(** * pymatgen.io.feff.inputs: the ATOMS shell table and the FEFF tag store

    A shallow embedding of [FeffAtoms] (potential dictionary and the shell
    table of [get_string]) and of [FeffTags] ([proc_val], [__setitem__],
    [diff], [__add__]) from [pymatgen/io/feff/inputs.py].

    Conventions.
    - Python [str] is [string]; the text is taken to be ASCII.
    - Python [int] is [Z]; Python [float] is IEEE binary64, as
      [spec_float] with the operations of [SpecFloat] at precision 53 and
      [emax = 1024].
    - A Python [dict] with string keys is a [gmap string _].
    - A call that may raise is a [result]: [Return v] or [Raise e].
    - Numbers are given by their values; a NaN held in a list is given
      with the identity of its object, which the comparison of two lists
      looks at before it compares the values. *)

From Stdlib Require Import ZArith Bool List Lia.
From Stdlib Require Import Strings.Ascii Strings.String.
From Stdlib Require Import Floats.SpecFloat.
From stdpp Require Import gmap strings list fin_maps sorting.

Local Open Scope Z_scope.

(** ** Exceptions *)

Inductive exn : Type :=
| ValueError
| OverflowError
| KeyError
| IndexError.

Inductive result (A : Type) : Type :=
| Return (a : A)
| Raise (e : exn).

Arguments Return {A} a.
Arguments Raise {A} e.

#[global] Instance result_ret : MRet result := fun A a => Return a.

#[global] Instance result_bind : MBind result := fun A B k r =>
  match r with
  | Return a => k a
  | Raise e => Raise e
  end.

(** [try: body except ValueError: handler]. *)
Definition except_ValueError {A : Type} (body : result A) (handler : result A)
  : result A :=
  match body with
  | Raise ValueError => handler
  | other => other
  end.

(** ** Characters and strings *)

Module Py.

Definition ord (c : ascii) : Z := Z.of_N (N_of_ascii c).

Definition isdigit (c : ascii) : bool := (48 <=? ord c) && (ord c <=? 57).

(** [str.isspace] on one ASCII character: TAB, LF, VT, FF, CR, the four
    separators 0x1c..0x1f and the blank. *)
Definition isspace (c : ascii) : bool :=
  ((9 <=? ord c) && (ord c <=? 13)) || ((28 <=? ord c) && (ord c <=? 32)).

Definition upper_char (c : ascii) : ascii :=
  if (97 <=? ord c) && (ord c <=? 122)
  then ascii_of_N (Z.to_N (ord c - 32)) else c.

Definition lower_char (c : ascii) : ascii :=
  if (65 <=? ord c) && (ord c <=? 90)
  then ascii_of_N (Z.to_N (ord c + 32)) else c.

Fixpoint upper (s : string) : string :=
  match s with
  | EmptyString => EmptyString
  | String c s' => String (upper_char c) (upper s')
  end.

Fixpoint lower (s : string) : string :=
  match s with
  | EmptyString => EmptyString
  | String c s' => String (lower_char c) (lower s')
  end.

(** [str.capitalize]: first character upper-cased, the rest lower-cased. *)
Definition capitalize (s : string) : string :=
  match s with
  | EmptyString => EmptyString
  | String c s' => String (upper_char c) (lower s')
  end.

Fixpoint lstrip (s : string) : string :=
  match s with
  | EmptyString => EmptyString
  | String c s' => if isspace c then lstrip s' else s
  end.

Fixpoint rstrip (s : string) : string :=
  match s with
  | EmptyString => EmptyString
  | String c s' =>
      match rstrip s' with
      | EmptyString => if isspace c then EmptyString else String c EmptyString
      | r => String c r
      end
  end.

Definition strip (s : string) : string := rstrip (lstrip s).

(** The text is empty or holds white space only. *)
Fixpoint all_space (s : string) : bool :=
  match s with
  | EmptyString => true
  | String c s' => isspace c && all_space s'
  end.

(** [c in s] for a one-character needle, i.e. [s.find(c) != -1]. *)
Fixpoint contains (c : ascii) (s : string) : bool :=
  match s with
  | EmptyString => false
  | String d s' => Ascii.eqb c d || contains c s'
  end.

(** [key in keys] for a tuple of strings. *)
Fixpoint mem (key : string) (keys : list string) : bool :=
  match keys with
  | [] => false
  | k :: ks => String.eqb key k || mem key ks
  end.

(** The longest prefix of [s] whose characters satisfy [p], and the rest. *)
Fixpoint span (p : ascii -> bool) (s : string) : string * string :=
  match s with
  | EmptyString => (EmptyString, EmptyString)
  | String c s' =>
      if p c then let '(a, b) := span p s' in (String c a, b)
      else (EmptyString, s)
  end.

(** [re.split("\s+", s)]: the pieces between maximal runs of white space;
    a leading or trailing run leaves an empty piece, as in Python.
    [in_gap] says that the previous character was white space. *)
Fixpoint re_split_ws_from (in_gap : bool) (s : string) : list string :=
  match s with
  | EmptyString => [EmptyString]
  | String c s' =>
      if isspace c then
        if in_gap then re_split_ws_from true s'
        else EmptyString :: re_split_ws_from true s'
      else
        match re_split_ws_from false s' with
        | tok :: rest => String c tok :: rest
        | [] => [String c EmptyString]
        end
  end.

Definition re_split_ws (s : string) : list string :=
  re_split_ws_from false s.

End Py.

(** ** Numbers: [int(s)], [float(s)] and ["{:f}".format(x)] *)

Module PyNum.

Definition prec : Z := 53.
Definition emax : Z := 1024.

Definition digit_val (c : ascii) : Z := Py.ord c - 48.

(** A group of decimal digits in which single underscores may separate
    digits: its value and its number of digits, or [None] when the text is
    not such a group.  [prev] says that the previous character was a
    digit. *)
Fixpoint digit_group_from (acc n : Z) (prev : bool) (s : string)
  : option (Z * Z) :=
  match s with
  | EmptyString => if prev then Some (acc, n) else None
  | String c s' =>
      if Py.isdigit c then digit_group_from (10 * acc + digit_val c) (n + 1) true s'
      else if Ascii.eqb c "_" && prev then digit_group_from acc n false s'
      else None
  end.

Definition digit_group (s : string) : option (Z * Z) :=
  digit_group_from 0 0 false s.

(** An optional sign in front of the rest of the text. *)
Definition split_sign (s : string) : bool * string :=
  match s with
  | String "+" r => (false, r)
  | String "-" r => (true, r)
  | _ => (false, s)
  end.

(** [int(s)] in base ten: surrounding white space, one optional sign, a
    digit group.  Anything else raises [ValueError].  (The bound that
    recent versions put on the number of digits is not modelled.) *)
Definition int (s : string) : result Z :=
  let '(neg, body) := split_sign (Py.strip s) in
  match digit_group body with
  | Some (v, _) => Return (if neg then - v else v)
  | None => Raise ValueError
  end.

(** The binary64 number nearest to [m * 10 ^ e10] (ties to even), for
    [0 <= m]. *)
Definition float_of_decimal (neg : bool) (m e10 : Z) : spec_float :=
  match m with
  | Zpos p =>
      if 0 <=? e10 then binary_round prec emax neg (p * Z.to_pos (10 ^ e10)) 0
      else
        let '(q, e, l) := SFdiv_core_binary prec emax m 0 (10 ^ (- e10)) 0 in
        binary_round_aux prec emax neg q e l
  | _ => S754_zero neg
  end.

(** The text before the first character satisfying [p], and the text after
    it when there is one. *)
Fixpoint cut (p : ascii -> bool) (s : string) : string * option string :=
  match s with
  | EmptyString => (EmptyString, None)
  | String c s' =>
      if p c then (EmptyString, Some s')
      else let '(a, b) := cut p s' in (String c a, b)
  end.

Definition is_e (c : ascii) : bool := Ascii.eqb c "e" || Ascii.eqb c "E".
Definition is_dot (c : ascii) : bool := Ascii.eqb c ".".

(** The exponent part after [e]: an optional sign and a digit group. *)
Definition exponent (s : option string) : option Z :=
  match s with
  | None => Some 0
  | Some t =>
      let '(neg, body) := split_sign t in
      match digit_group body with
      | Some (v, n) => if 0 <? n then Some (if neg then - v else v) else None
      | None => None
      end
  end.

(** An empty digit group is allowed on one side of the point. *)
Definition digits_or_empty (s : string) : option (Z * Z) :=
  match s with
  | EmptyString => Some (0, 0)
  | _ => digit_group s
  end.

(** [float(s)]: surrounding white space, an optional sign, then [inf],
    [infinity] or [nan] in any case, or a decimal numeral with an optional
    fraction and exponent.  Anything else raises [ValueError]. *)
Definition float (s : string) : result spec_float :=
  let '(neg, body) := split_sign (Py.strip s) in
  let low := Py.lower body in
  if String.eqb low "inf" || String.eqb low "infinity" then Return (S754_infinity neg)
  else if String.eqb low "nan" then Return S754_nan
  else
    let '(mant, ex) := cut is_e body in
    let '(ip, fp) := cut is_dot mant in
    match digits_or_empty ip, digits_or_empty (default EmptyString fp), exponent ex with
    | Some (iv, n1), Some (fv, n2), Some e =>
        if 0 <? n1 + n2
        then Return (float_of_decimal neg (iv * 10 ^ n2 + fv) (e - n2))
        else Raise ValueError
    | _, _, _ => Raise ValueError
    end.

(** *** Fixed-point formatting *)

Definition digit_char (d : Z) : ascii :=
  match d with
  | 0 => "0" | 1 => "1" | 2 => "2" | 3 => "3" | 4 => "4"
  | 5 => "5" | 6 => "6" | 7 => "7" | 8 => "8" | _ => "9"
  end%char.

(** The last [k] decimal digits of [n], in front of [acc]. *)
Fixpoint dec_fixed (k : nat) (n : Z) (acc : string) : string :=
  match k with
  | O => acc
  | S k' => dec_fixed k' (n / 10) (String (digit_char (n mod 10)) acc)
  end.

(** The decimal digits of [n] without leading zeros, in front of [acc];
    [fuel] bounds the number of digits. *)
Fixpoint dec_from (fuel : nat) (n : Z) (acc : string) : string :=
  match fuel with
  | O => acc
  | S fuel' =>
      let acc' := String (digit_char (n mod 10)) acc in
      if n / 10 =? 0 then acc' else dec_from fuel' (n / 10) acc'
  end.

(** [str(n)] for [0 <= n]. *)
Definition dec (n : Z) : string :=
  dec_from (S (Z.to_nat (Z.log2 n))) n EmptyString.

(** [num / den] rounded to the nearest integer, ties to even
    ([0 <= num], [0 < den]). *)
Definition div_half_even (num den : Z) : Z :=
  let q := num / den in
  let r := num mod den in
  match 2 * r ?= den with
  | Lt => q
  | Gt => q + 1
  | Eq => if Z.even q then q else q + 1
  end.

(** [|x| * 10^6] rounded to an integer, for finite [x = m * 2^e]. *)
Definition micro (m : positive) (e : Z) : Z :=
  if 0 <=? e then Zpos m * 2 ^ e * 1000000
  else div_half_even (Zpos m * 1000000) (2 ^ (- e)).

Definition sign_text (neg : bool) : string := if neg then "-" else "".

Definition fixed6 (neg : bool) (n : Z) : string :=
  sign_text neg +:+ dec (n / 1000000) +:+ "." +:+ dec_fixed 6 (n mod 1000000) "".

(** ["{:f}".format(x)]: six digits after the point, correctly rounded. *)
Definition format_f (x : spec_float) : string :=
  match x with
  | S754_nan => "nan"
  | S754_infinity neg => sign_text neg +:+ "inf"
  | S754_zero neg => fixed6 neg 0
  | S754_finite neg m e => fixed6 neg (micro m e)
  end.

(** The sign bit of a float is clear: [+0.0], a positive number, [+inf],
    and also NaN. *)
Definition sign_clear (d : spec_float) : bool :=
  match d with
  | S754_zero neg | S754_infinity neg | S754_finite neg _ _ => negb neg
  | S754_nan => true
  end.

End PyNum.

(** ** [sorted(l, key=...)] on string keys

    Python's sort is stable and compares keys with [<] only; on strings
    [<] is the lexicographic order of the code points, a strict total
    order, so the result is the one of any stable sort.  Each element is
    put in front of the first element already placed whose key is not
    smaller. *)

Section Sorted.
Context {A : Type} (key : A -> string).

Fixpoint insert_sorted (a : A) (l : list A) : list A :=
  match l with
  | [] => [a]
  | b :: l' =>
      if String.ltb (key b) (key a) then b :: insert_sorted a l'
      else a :: l
  end.

Definition sorted (l : list A) : list A := foldr insert_sorted [] l.
End Sorted.

(** ** The structure handed to [FeffAtoms] *)

Definition point : Type := spec_float * spec_float * spec_float.

(** A site of an ordered structure: [site.species_string],
    [site.specie.symbol] and [site.coords]. *)
Record site : Type := Site {
  species_string : string;
  symbol : string;
  coords : point
}.

Record structure : Type := Structure {
  is_ordered : bool;
  sites : list site
}.

(** One line of the shell table: the list
    [[x, y, z, ipot, atm, distance, i]] of [get_string]. *)
Record row : Type := Row {
  x : string;
  y : string;
  z : string;
  ipot : Z;
  atm : string;
  distance : string;
  number : Z
}.

Module FeffAtoms.

Record t : Type := Make {
  central_atom : string;
  struct : structure;
  pot_dict : gmap string Z
}.

Fixpoint count (a : string) (l : list string) : Z :=
  match l with
  | [] => 0
  | b :: l' => (if String.eqb b a then 1 else 0) + count a l'
  end.

(** [[unique_pot_atoms.append(i) for i in syms
      if not unique_pot_atoms.count(i)]] *)
Definition unique_pot_atoms (syms : list string) : list string :=
  fold_left (fun acc i => if count i acc =? 0 then acc ++ [i] else acc) syms [].

Fixpoint enumerate_from {A : Type} (i : Z) (l : list A) : list (Z * A) :=
  match l with
  | [] => []
  | a :: l' => (i, a) :: enumerate_from (i + 1) l'
  end.

Definition enumerate {A : Type} (l : list A) : list (Z * A) := enumerate_from 0 l.

(** [for i, atom in enumerate(unique_pot_atoms): pot_dict[atom] = i + 1] *)
Definition make_pot_dict (atoms : list string) : gmap string Z :=
  fold_left (fun d '(i, atom) => <[atom := i + 1]> d) (enumerate atoms) ∅.

(** [FeffAtoms.__init__] *)
Definition init (struct : structure) (central_atom : string) : result t :=
  if is_ordered struct then
    let syms := symbol <$> sites struct in
    Return (Make central_atom struct (make_pot_dict (unique_pot_atoms syms)))
  else Raise ValueError.

(** [l.index(a)] *)
Fixpoint index (a : string) (l : list string) : result nat :=
  match l with
  | [] => Raise ValueError
  | b :: l' => if String.eqb b a then Return O else i ← index a l'; Return (S i)
  end.

(** [re.sub(r"[^aA-zZ]+", "", s)]: the class holds [a], the range [A-z]
    and [Z], so the characters from [A] to [z] are kept. *)
Fixpoint strip_decoration (s : string) : string :=
  match s with
  | EmptyString => EmptyString
  | String c s' =>
      if (65 <=? Py.ord c) && (Py.ord c <=? 122)
      then String c (strip_decoration s')
      else strip_decoration s'
  end.

Definition fsub (a b : spec_float) : spec_float := SFsub PyNum.prec PyNum.emax a b.

(** [index = ptatoms.index(self.central_atom)] and
    [pt = self.struct.cart_coords[index]]: the position of the first site
    of the central species. *)
Definition center_point (self : t) : result point :=
  let ptatoms := symbol <$> sites (struct self) in
  index ← index (central_atom self) ptatoms;
  match sites (struct self) !! index with
  | None => Raise IndexError
  | Some center => Return (coords center)
  end.

(** [key] of the rows at distance zero. *)
Definition zero_text : string := "0.000000".

Section GetString.
(** [Structure.get_sites_in_sphere(struct, pt, radius)], a method of the
    structure library: a list of pairs (site, distance from [pt]). *)
Variable get_sites_in_sphere :
  structure -> point -> spec_float -> list (site * spec_float).

(** The body of the first loop of [get_string] for index [i]. *)
Definition make_row (self : t) (pt : point) (i : Z)
    (entry : site * spec_float) : result row :=
  let atom := entry.1 in
  let atm := strip_decoration (species_string atom) in
  match pot_dict self !! atm with
  | None => Raise KeyError
  | Some ipot =>
      let '(xshift, yshift, zshift) := pt in
      let '(ax, ay, az) := coords atom in
      Return (Row (PyNum.format_f (fsub ax xshift))
                  (PyNum.format_f (fsub ay yshift))
                  (PyNum.format_f (fsub az zshift))
                  ipot atm (PyNum.format_f entry.2) i)
  end.

Fixpoint make_rows (self : t) (pt : point) (i : Z)
    (sphere : list (site * spec_float)) : result (list row) :=
  match sphere with
  | [] => Return []
  | entry :: rest =>
      r ← make_row self pt i entry;
      rs ← make_rows self pt (i + 1) rest;
      Return (r :: rs)
  end.

(** [row_sorted[0][3] = 0] *)
Definition set_first_ipot (rows : list row) : result (list row) :=
  match rows with
  | [] => Raise IndexError
  | Row x y z _ atm d n :: rest => Return (Row x y z 0 atm d n :: rest)
  end.

(** [for i in range(end): row_sorted[i][6] = i] *)
Fixpoint renumber (i : Z) (rows : list row) : list row :=
  match rows with
  | [] => []
  | Row x y z ipot atm d _ :: rest => Row x y z ipot atm d i :: renumber (i + 1) rest
  end.

(** [get_string] up to the table [row_sorted] that is handed to
    [tabulate]. *)
Definition get_string_rows (self : t) (radius : spec_float)
  : result (list row) :=
  pt ← center_point self;
  let sphere := get_sites_in_sphere (struct self) pt radius in
  rows ← make_rows self pt 0 sphere;
  row_sorted ← set_first_ipot (sorted distance rows);
  Return (renumber 0 row_sorted).
End GetString.

(** A row with its last column set to [i]. *)
Definition with_number (i : Z) (r : row) : row :=
  Row (x r) (y r) (z r) (ipot r) (atm r) (distance r) i.

(** The row of the center: the site [center] seen from its own place,
    with potential index 0, the distance printed as zero and the
    number 0. *)
Definition center_row (center : site) : row :=
  let '(cx, cy, cz) := coords center in
  Row (PyNum.format_f (fsub cx cx)) (PyNum.format_f (fsub cy cy))
      (PyNum.format_f (fsub cz cz))
      0 (strip_decoration (species_string center)) zero_text 0.

(** The entry of the neighbour list that [get_string] puts in row 0 when
    no distance is printed below [zero_text]: the first one printed as
    [zero_text]. *)
Definition first_at_zero (sphere : list (site * spec_float))
  : option (site * spec_float) :=
  List.find (fun e => String.eqb (PyNum.format_f e.2) zero_text) sphere.

End FeffAtoms.

(** ** A neighbour search for the examples *)

Module Neighbours.

Definition fmul := SFmul PyNum.prec PyNum.emax.
Definition fadd := SFadd PyNum.prec PyNum.emax.
Definition fsqrt := SFsqrt PyNum.prec PyNum.emax.

(** The Euclidean distance of two points, in binary64 arithmetic. *)
Definition dist (p q : point) : spec_float :=
  let '(px, py, pz) := p in
  let '(qx, qy, qz) := q in
  let dx := FeffAtoms.fsub px qx in
  let dy := FeffAtoms.fsub py qy in
  let dz := FeffAtoms.fsub pz qz in
  fsqrt (fadd (fadd (fmul dx dx) (fmul dy dy)) (fmul dz dz)).

(** Modelled from the spec: the neighbour search
    [Structure.get_sites_in_sphere] of the structure library is not among
    the sources.  Following the spec ("select every site, including the
    center, whose distance from the center's position is <= radius"), it
    returns the sites of the list within [radius] of [pt], in list order,
    each with its distance. *)
Definition get_sites_in_sphere (struct : structure) (pt : point)
    (radius : spec_float) : list (site * spec_float) :=
  omap (fun s =>
          let d := dist (coords s) pt in
          if SFleb d radius then Some (s, d) else None)
       (sites struct).

End Neighbours.

(** ** Values of the tag store *)

(** An element of a list value: a number, as [smart_int_or_float]
    returns it, or a float NaN given with the identity of its object.
    The identity matters because Python compares the elements of two
    lists with [is] before [==]: a NaN is not equal to itself under
    [==], but a list that holds it is equal to itself and to every list
    that holds the same object in the same place.  For any other number
    the identity makes no difference, since the number is equal to
    itself anyway.  [SFloat S754_nan] is one more NaN object, the same
    wherever it is written. *)
Inductive scalar : Type :=
| SInt (n : Z)
| SFloat (f : spec_float)
| SNaN (object : positive).

(** What a tag can hold: an [int], a [float], a [bool], a [str] or a list
    of numbers. *)
Inductive value : Type :=
| VInt (n : Z)
| VFloat (f : spec_float)
| VBool (b : bool)
| VStr (s : string)
| VList (l : list scalar).

Module PyEq.

(** [n == f] for an [int] and a [float]: the comparison is exact. *)
Definition int_float_eqb (n : Z) (f : spec_float) : bool :=
  match f with
  | S754_zero _ => n =? 0
  | S754_finite neg m e =>
      let sm := if neg then Zneg m else Zpos m in
      if 0 <=? e then n =? sm * 2 ^ e else n * 2 ^ (- e) =? sm
  | _ => false
  end.

(** [f == g] for two floats in the normal form that [float(s)] and the
    arithmetic produce: NaN differs from everything, [0.0 == -0.0]. *)
Definition float_eqb (f g : spec_float) : bool := SFeqb f g.

(** [a == b] for two numbers; a NaN differs from everything. *)
Definition scalar_eqb (a b : scalar) : bool :=
  match a, b with
  | SInt n, SInt m => n =? m
  | SInt n, SFloat f => int_float_eqb n f
  | SFloat f, SInt n => int_float_eqb n f
  | SFloat f, SFloat g => float_eqb f g
  | SNaN _, _ | _, SNaN _ => false
  end.

(** [a is b] for two list elements of which one is a NaN: they are the
    same NaN object. *)
Definition same_nan (a b : scalar) : bool :=
  match a, b with
  | SNaN i, SNaN j => Pos.eqb i j
  | SFloat S754_nan, SFloat S754_nan => true
  | _, _ => false
  end.

(** The comparison of two list elements, [a is b or a == b]. *)
Definition element_eqb (a b : scalar) : bool :=
  same_nan a b || scalar_eqb a b.

(** [l1 == l2] for two lists: the same length, and the elements equal
    place by place. *)
Fixpoint list_eqb (l1 l2 : list scalar) : bool :=
  match l1, l2 with
  | [], [] => true
  | a :: l1', b :: l2' => element_eqb a b && list_eqb l1' l2'
  | _, _ => false
  end.

(** A number as a scalar; [bool] is a subclass of [int]. *)
Definition as_scalar (v : value) : option scalar :=
  match v with
  | VInt n => Some (SInt n)
  | VFloat f => Some (SFloat f)
  | VBool b => Some (SInt (if b then 1 else 0))
  | _ => None
  end.

(** [v == w].  Numbers compare by value across [int], [float] and [bool]
    (so a NaN held directly differs from itself), strings by their text,
    lists element by element, an element being equal to itself;
    values of different kinds are unequal. *)
Definition eqb (v w : value) : bool :=
  match v, w with
  | VStr s, VStr t => String.eqb s t
  | VList l1, VList l2 => list_eqb l1 l2
  | _, _ =>
      match as_scalar v, as_scalar w with
      | Some a, Some b => scalar_eqb a b
      | _, _ => false
      end
  end.

(** [v != w] *)
Definition neb (v w : value) : bool := negb (eqb v w).

Definition is_nan (f : spec_float) : bool :=
  match f with
  | S754_nan => true
  | _ => false
  end.

Definition nan_free_scalar (a : scalar) : bool :=
  match a with
  | SInt _ => true
  | SFloat f => negb (is_nan f)
  | SNaN _ => false
  end.

(** The value is not the float NaN and not a list holding it. *)
Definition nan_free (v : value) : bool :=
  match v with
  | VFloat f => negb (is_nan f)
  | VList l => forallb nan_free_scalar l
  | _ => true
  end.

End PyEq.

(** ** [FeffTags] *)

(** The module constant, as written: the literals ["FPRIME" "MDFF"] have no
    comma between them and make one entry. *)
Definition VALID_FEFF_TAGS : list string :=
  ["CONTROL"; "PRINT"; "ATOMS"; "POTENTIALS"; "RECIPROCAL";
   "REAL"; "MARKER"; "LATTICE"; "TITLE"; "RMULTIPLIER";
   "SGROUP"; "COORDINATES"; "EQUIVALENCE"; "CIF"; "CGRID";
   "CFAVERAGE"; "OVERLAP"; "EXAFS"; "XANES"; "ELNES"; "EXELFS";
   "LDOS"; "ELLIPTICITY"; "MULTIPOLE"; "POLARIZATION";
   "RHOZZP"; "DANES"; "FPRIME"; "NRIXS"; "XES"; "XNCD";
   "XMCD"; "XNCDCONTROL"; "END"; "KMESH"; "PRINT"; "EGRID";
   "DIMS"; "AFOLP"; "EDGE"; "COMPTON"; "DANES";
   "FPRIMEMDFF"; "HOLE"; "COREHOLE"; "S02"; "CHBROAD";
   "EXCHANGE"; "FOLP"; "NOHOLE"; "RGRID"; "SCF";
   "UNFREEZEF"; "CHSHIFT"; "DEBYE";
   "INTERSTITIAL"; "CHWIDTH"; "EGAP"; "EPS0"; "EXTPOT";
   "ION"; "JUMPRM"; "EXPOT"; "SPIN"; "LJMAX"; "LDEC"; "MPSE";
   "PLASMON"; "RPHASES"; "RSIGMA"; "PMBSE"; "TDLDA"; "FMS";
   "DEBYA"; "OPCONS"; "PREP"; "RESTART"; "SCREEN"; "SETE";
   "STRFACTORS"; "BANDSTRUCTURE"; "RPATH"; "NLEG"; "PCRITERIA";
   "SYMMETRY"; "SS"; "CRITERIA"; "IORDER"; "NSTAR"; "ABSOLUTE";
   "CORRECTIONS"; "SIG2"; "SIG3"; "MBCONV"; "SFCONV"; "RCONV";
   "SELF"; "SFSE"; "MAGIC"].

Module FeffTags.

Definition list_type_keys : list string := VALID_FEFF_TAGS.
Definition boolean_type_keys : list string := [].
Definition float_type_keys : list string :=
  ["SCF"; "EXCHANGE"; "S02"; "FMS"; "XANES"; "EXAFS"; "RPATH"; "LDOS"].
Definition int_type_keys : list string := ["PRINT"; "CONTROL"].

Definition smart_int_or_float (numstr : string) : result scalar :=
  if Py.contains "." numstr || Py.contains "e" (Py.lower numstr)
  then f ← PyNum.float numstr; Return (SFloat f)
  else n ← PyNum.int numstr; Return (SInt n).

(** The class [[\d\.\-\+]]. *)
Definition is_num_char (c : ascii) : bool :=
  Py.isdigit c || Ascii.eqb c "." || Ascii.eqb c "-" || Ascii.eqb c "+".

(** [re.match("(\d+)\*([\d\.\-\+]+)", tok)]: the two groups of a match at
    the start of [tok].  What follows the second group is not looked at. *)
Definition repeat_match (tok : string) : option (string * string) :=
  let '(g1, rest) := Py.span Py.isdigit tok in
  match g1, rest with
  | String _ _, String "*" rest' =>
      match Py.span is_num_char rest' with
      | (String c g2, _) => Some (g1, String c g2)
      | _ => None
      end
  | _, _ => None
  end.

Definition PY_SSIZE_T_MAX : Z := 2 ^ 63 - 1.

(** [l * n]: a count that does not fit an index-sized integer
    ([sys.maxsize], here the one of a 64-bit build) raises [OverflowError];
    a count below 1 gives the empty list.  Memory is taken to be
    unbounded: no [MemoryError] is modelled. *)
Definition list_repeat {A : Type} (l : list A) (n : Z) : result (list A) :=
  if PY_SSIZE_T_MAX <? n then Raise OverflowError
  else Return (mjoin (replicate (Z.to_nat n) l)).

(** The loop [for tok in toks] of the list class, from the list [output]
    built so far. *)
Fixpoint list_class_loop (toks : list string) (output : list scalar)
  : result (list scalar) :=
  match toks with
  | [] => Return output
  | tok :: toks' =>
      match repeat_match tok with
      | Some (g1, g2) =>
          v ← smart_int_or_float g2;
          n ← PyNum.int g1;
          vs ← list_repeat [v] n;
          list_class_loop toks' (output ++ vs)
      | None =>
          v ← smart_int_or_float tok;
          list_class_loop toks' (output ++ [v])
      end
  end.

Definition list_class (val : string) : result value :=
  output ← list_class_loop (Py.re_split_ws val) [];
  Return (VList output).

(** [\w] *)
Definition is_word_char (c : ascii) : bool :=
  Py.isdigit c || Ascii.eqb c "_"
  || ((65 <=? Py.ord c) && (Py.ord c <=? 90))
  || ((97 <=? Py.ord c) && (Py.ord c <=? 122)).

(** [re.search("^\W+([TtFf])", val)] and the branches on its group. *)
Definition boolean_class (val : string) : result value :=
  match Py.span (fun c => negb (is_word_char c)) val with
  | (String _ _, String c _) =>
      if Ascii.eqb c "T" || Ascii.eqb c "t" then Return (VBool true)
      else if Ascii.eqb c "F" || Ascii.eqb c "f" then Return (VBool false)
      else Raise ValueError
  | _ => Raise ValueError
  end.

Definition float_class (val : string) : result value :=
  f ← PyNum.float val; Return (VFloat f).

Definition int_class (val : string) : result value :=
  n ← PyNum.int val; Return (VInt n).

(** A statement of a function body either leaves the function, with a
    value or an exception, or falls through to the next statement. *)
Definition stmt : Type := option (result value).

Definition if_then (c : bool) (body : result value) : stmt :=
  if c then Some body else None.

Definition and_then (s1 s2 : stmt) : stmt :=
  match s1 with
  | Some r => Some r
  | None => s2
  end.

Infix ";;;" := and_then (at level 65, right associativity).

(** [return val.capitalize()], in the handler and after the [try]
    statement. *)
Definition fallback (val : string) : result value :=
  Return (VStr (Py.capitalize val)).

(** [proc_val] for given class tuples: the four [if] statements inside
    [try], the handler of [ValueError], and the [return] after the
    [try] statement. *)
Definition proc_val_with (list_keys boolean_keys float_keys int_keys : list string)
    (key val : string) : result value :=
  let try_body :=
    if_then (Py.mem key list_keys) (list_class val) ;;;
    if_then (Py.mem key boolean_keys) (boolean_class val) ;;;
    if_then (Py.mem key float_keys) (float_class val) ;;;
    if_then (Py.mem key int_keys) (int_class val) in
  match try_body with
  | Some r => except_ValueError r (fallback val)
  | None => fallback val
  end.

Definition proc_val (key val : string) : result value :=
  proc_val_with list_type_keys boolean_type_keys float_type_keys int_type_keys
    key val.

(** [FeffTags(params)]: the constructor fills the new dictionary with
    [dict.update], which stores the pairs as they are. *)
Definition init (params : gmap string value) : gmap string value :=
  params ∪ ∅.

(** [self[key] = val]: the warnings issued and the outcome. *)
Definition __setitem__ (self : gmap string value) (key : string) (val : value)
  : list string * result (gmap string value) :=
  let name := Py.strip key in
  let warned :=
    if Py.mem (Py.upper name) VALID_FEFF_TAGS then []
    else [name +:+ " not in VALID_FEFF_TAGS list"] in
  (warned,
   v ← match val with
       | VStr s => proc_val name (Py.strip s)
       | other => Return other
       end;
   Return (<[name := v]> self)).

(** An entry of the ["Different"] group:
    [{"FEFF_TAGS1": ..., "FEFF_TAGS2": ...}]. *)
Record tags_pair : Type := Pair {
  FEFF_TAGS1 : value;
  FEFF_TAGS2 : value
}.

Definition Default : value := VStr "Default".

(** The first loop of [diff]: one pass over [self.items()]. *)
Definition diff_self_step (other : gmap string value) (k1 : string) (v1 : value)
    (acc : gmap string value * gmap string tags_pair)
  : gmap string value * gmap string tags_pair :=
  let '(similar_param, different_param) := acc in
  match other !! k1 with
  | None => (similar_param, <[k1 := Pair v1 Default]> different_param)
  | Some v2 =>
      if PyEq.neb v1 v2
      then (similar_param, <[k1 := Pair v1 v2]> different_param)
      else (<[k1 := v1]> similar_param, different_param)
  end.

(** The second loop: one pass over [other.items()]. *)
Definition diff_other_step (self similar_param : gmap string value)
    (k2 : string) (v2 : value) (different_param : gmap string tags_pair)
  : gmap string tags_pair :=
  if bool_decide (similar_param !! k2 = None)
     && bool_decide (different_param !! k2 = None)
  then
    if bool_decide (self !! k2 = None)
    then <[k2 := Pair Default v2]> different_param
    else different_param
  else different_param.

(** [self.diff(other)]: the groups ["Same"] and ["Different"]. *)
Definition diff (self other : gmap string value)
  : gmap string value * gmap string tags_pair :=
  let '(similar_param, different_param) :=
    map_fold (diff_self_step other) (∅, ∅) self in
  (similar_param,
   map_fold (diff_other_step self similar_param) different_param other).

(** One pass of the loop of [__add__] over [other.items()]. *)
Definition add_step (self : gmap string value) (k : string) (v : value)
    (acc : result (gmap string value)) : result (gmap string value) :=
  params ← acc;
  match self !! k with
  | Some v' =>
      if PyEq.neb v v' then Raise ValueError else Return (<[k := v]> params)
  | None => Return (<[k := v]> params)
  end.

(** [self + other] *)
Definition __add__ (self other : gmap string value)
  : result (gmap string value) :=
  params ← map_fold (add_step self) (Return self) other;
  Return (init params).

(** The repeat count of a token in the [count*scalar] shorthand fits an
    index-sized integer. *)
Definition small_count (tok : string) : Prop :=
  forall g1 g2 n,
    repeat_match tok = Some (g1, g2) ->
    PyNum.int g1 = Return n ->
    n <= PY_SSIZE_T_MAX.

(** [k] is in both stores with values that [!=] tells apart. *)
Definition conflict (self other : gmap string value) (k : string) : Prop :=
  exists a b, self !! k = Some a /\ other !! k = Some b /\ PyEq.neb b a = true.

(** What [__setitem__] stores for [val] under a name of no class. *)
Definition stored_unclassified (val : value) : value :=
  match val with
  | VStr s => VStr (Py.capitalize (Py.strip s))
  | other => other
  end.

End FeffTags.

(** ** Inputs used in the examples *)

Module Examples.

(** The float [m * 2 ^ e], for [m] of at most 53 bits. *)
Definition dyadic (m e : Z) : spec_float :=
  binary_normalize PyNum.prec PyNum.emax m e false.

Definition origin : point := (dyadic 0 0, dyadic 0 0, dyadic 0 0).

(** Co at the origin, O at distance 1.0 on the x axis, O (written with an
    oxidation state) at distance 2.0 on the z axis. *)
Definition Co_site : site := Site "Co" "Co" origin.
Definition O_near : site := Site "O" "O" (dyadic 1 0, dyadic 0 0, dyadic 0 0).
Definition O_far : site := Site "O2-" "O" (dyadic 0 0, dyadic 0 0, dyadic 2 0).

Definition CoO2 : structure := Structure true [Co_site; O_near; O_far].

Definition CoO2_atoms : FeffAtoms.t :=
  FeffAtoms.Make "Co" CoO2
    (FeffAtoms.make_pot_dict (FeffAtoms.unique_pot_atoms ["Co"; "O"; "O"])).

(** Co at the origin, O at distance 2.0 and O at distance 10.0. *)
Definition O_at_2 : site := Site "O" "O" (dyadic 2 0, dyadic 0 0, dyadic 0 0).
Definition O_at_10 : site := Site "O" "O" (dyadic 0 0, dyadic 0 0, dyadic 10 0).

Definition wide : structure := Structure true [Co_site; O_at_2; O_at_10].

Definition wide_atoms : FeffAtoms.t :=
  FeffAtoms.Make "Co" wide
    (FeffAtoms.make_pot_dict (FeffAtoms.unique_pot_atoms ["Co"; "O"; "O"])).

(** The neighbours of the Co site of [CoO2] with their distances. *)
Definition CoO2_neighbours : list (site * spec_float) :=
  [(Co_site, dyadic 0 0); (O_near, dyadic 1 0); (O_far, dyadic 2 0)].

(** The table of [CoO2] around Co. *)
Definition CoO2_table : list row :=
  [Row "0.000000" "0.000000" "0.000000" 0 "Co" "0.000000" 0;
   Row "1.000000" "0.000000" "0.000000" 2 "O" "1.000000" 1;
   Row "0.000000" "0.000000" "2.000000" 2 "O" "2.000000" 2].

(** The table of [wide] around Co. *)
Definition wide_table : list row :=
  [Row "0.000000" "0.000000" "0.000000" 0 "Co" "0.000000" 0;
   Row "0.000000" "0.000000" "10.000000" 2 "O" "10.000000" 1;
   Row "2.000000" "0.000000" "0.000000" 2 "O" "2.000000" 2].

(** Co at the origin and O at [2^-22] from it, a distance that is
    printed as [0.000000]; a neighbour search that returns the two sites
    with the O site first. *)
Definition O_close : site :=
  Site "O" "O" (dyadic 1 (-22), dyadic 0 0, dyadic 0 0).

Definition close_pair : structure := Structure true [Co_site; O_close].

Definition close_pair_atoms : FeffAtoms.t :=
  FeffAtoms.Make "Co" close_pair
    (FeffAtoms.make_pot_dict (FeffAtoms.unique_pot_atoms ["Co"; "O"])).

Definition close_pair_neighbours : list (site * spec_float) :=
  [(O_close, dyadic 1 (-22)); (Co_site, dyadic 0 0)].

Definition close_pair_search
  : structure -> point -> spec_float -> list (site * spec_float) :=
  fun _ _ _ => close_pair_neighbours.

(** One Fe site whose species string carries an oxidation state and a
    spin after the symbol; stripped of its non-letters it reads
    [Fespin]. *)
Definition Fe_spin : site := Site "Fe2+spin=5" "Fe" origin.

Definition Fe_only : structure := Structure true [Fe_spin].

Definition Fe_only_atoms : FeffAtoms.t :=
  FeffAtoms.Make "Fe" Fe_only
    (FeffAtoms.make_pot_dict (FeffAtoms.unique_pot_atoms ["Fe"])).

(** A store holding one tag whose value is the float NaN. *)
Definition nan_store : gmap string value := {[ "S02" := VFloat S754_nan ]}.

(** Stores holding a list with a NaN: [nan_list] and [same_nan_list]
    hold the same NaN object, [other_nan_list] another one. *)
Definition nan_list : gmap string value :=
  {[ "EXAFS" := VList [SNaN 1; SInt 1] ]}.

Definition same_nan_list : gmap string value :=
  {[ "EXAFS" := VList [SNaN 1; SFloat (dyadic 1 0)] ]}.

Definition other_nan_list : gmap string value :=
  {[ "EXAFS" := VList [SNaN 2; SInt 1] ]}.

Definition two_tags : gmap string value :=
  {[ "EDGE" := VStr "K"; "SCF" := VList [SInt 7] ]}.

Definition other_tags : gmap string value :=
  {[ "SCF" := VList [SFloat (dyadic 7 0)]; "RPATH" := VList [SInt 4] ]}.

Definition clashing_tags : gmap string value :=
  {[ "SCF" := VList [SInt 8] ]}.

End Examples.

(** * Further functions of the module *)

(** ** Site symbols and counts *)

Module Groups.

(** [itertools.groupby(syms)] with each group replaced by its length: the
    runs of equal consecutive symbols.  The loop
    [for (s, data) in itertools.groupby(syms)] of the three constructors
    appends the first components to [_site_symbols] and the second ones
    to [_natoms]. *)
Fixpoint groupby (syms : list string) : list (string * Z) :=
  match syms with
  | [] => []
  | s :: rest =>
      match groupby rest with
      | (s', n) :: groups =>
          if String.eqb s s' then (s, n + 1) :: groups
          else (s, 1) :: (s', n) :: groups
      | [] => [(s, 1)]
      end
  end.

(** The symbols of a list, each once, in the order of first occurrence. *)
Fixpoint first_occurrences (syms : list string) : list string :=
  match syms with
  | [] => []
  | s :: rest => s :: filter (fun a => a <> s) (first_occurrences rest)
  end.

End Groups.

(** ** Reading the shell table *)

Module Table.

(** The columns of a row that [get_string] does not overwrite after the
    sort. *)
Definition row_data (r : row) : string * string * string * string * string :=
  (x r, y r, z r, atm r, distance r).

(** The number written by the digits of a text, other characters
    skipped: for a fixed-point text it is the value in millionths. *)
Fixpoint digits_value (acc : Z) (s : string) : Z :=
  match s with
  | EmptyString => acc
  | String c s' =>
      if Py.isdigit c then digits_value (10 * acc + PyNum.digit_val c) s'
      else digits_value acc s'
  end.

Definition text_value (s : string) : Z := digits_value 0 s.

(** The magnitude of a float in millionths, rounded as ["{:f}"] rounds. *)
Definition micro_of (d : spec_float) : Z :=
  match d with
  | S754_finite _ m e => PyNum.micro m e
  | _ => 0
  end.

(** A distance that is printed with one digit before the point: zero or
    a positive number that rounds to less than 10. *)
Definition prints_below_10 (d : spec_float) : bool :=
  match d with
  | S754_zero false => true
  | S754_finite false m e => PyNum.micro m e <? 10000000
  | _ => false
  end.

End Table.

(** ** Reading the result of [diff] *)

Module DiffView.

(** An entry of "Different" seen from the other store. *)
Definition mirror (p : FeffTags.tags_pair) : FeffTags.tags_pair :=
  FeffTags.Pair (FeffTags.FEFF_TAGS2 p) (FeffTags.FEFF_TAGS1 p).

(** What [diff] reports under "Same" for a key, from the two lookups. *)
Definition same_entry (a b : option value) : option value :=
  match a, b with
  | Some v1, Some v2 => if PyEq.neb v1 v2 then None else Some v1
  | _, _ => None
  end.

(** What [diff] reports under "Different" for a key, from the two
    lookups. *)
Definition different_entry (a b : option value) : option FeffTags.tags_pair :=
  match a, b with
  | Some v1, Some v2 =>
      if PyEq.neb v1 v2 then Some (FeffTags.Pair v1 v2) else None
  | Some v1, None => Some (FeffTags.Pair v1 FeffTags.Default)
  | None, Some v2 => Some (FeffTags.Pair FeffTags.Default v2)
  | None, None => None
  end.

End DiffView.

(** ** Texts made of numerals *)

Module Numerals.

(** [s.isdigit()] for a non-empty ASCII text: every character is a
    decimal digit. *)
Fixpoint all_digits (s : string) : bool :=
  match s with
  | EmptyString => true
  | String c s' => Py.isdigit c && all_digits s'
  end.

Definition numeral (s : string) : Prop := s <> "" /\ all_digits s = true.

(** [" ".join(toks)] *)
Fixpoint join_blank (toks : list string) : string :=
  match toks with
  | [] => ""
  | [t] => t
  | t :: rest => t +:+ String " " (join_blank rest)
  end.

End Numerals.

(** ** More of [str] *)

Module PyStr.

(** [s.startswith(sub)] *)
Fixpoint startswith (sub s : string) : bool :=
  match sub, s with
  | EmptyString, _ => true
  | String a sub', String b s' => Ascii.eqb a b && startswith sub' s'
  | String _ _, EmptyString => false
  end.

(** [s.find(sub)], counted from [i]: the lowest index at which [sub]
    occurs, or -1. *)
Fixpoint find_from (i : Z) (sub s : string) : Z :=
  if startswith sub s then i
  else
    match s with
    | EmptyString => -1
    | String _ s' => find_from (i + 1) sub s'
    end.

Definition find (sub s : string) : Z := find_from 0 sub s.

(** [s.replace(c, "")] for a one-character [c]. *)
Fixpoint remove_char (c : ascii) (s : string) : string :=
  match s with
  | EmptyString => EmptyString
  | String d s' =>
      if Ascii.eqb d c then remove_char c s' else String d (remove_char c s')
  end.

Definition CR : ascii := "013".
Definition LF : ascii := "010".

(** [''.join(l)] *)
Definition join (l : list string) : string := foldr String.append "" l.

(** [s.split()]: the pieces between runs of white space, none empty. *)
Definition split (s : string) : list string :=
  filter (fun t => t <> "") (Py.re_split_ws s).

(** [s.split("\n")] *)
Fixpoint split_lines (s : string) : list string :=
  match s with
  | EmptyString => [EmptyString]
  | String c s' =>
      if Ascii.eqb c LF then EmptyString :: split_lines s'
      else
        match split_lines s' with
        | l :: ls => String c l :: ls
        | [] => [String c EmptyString]
        end
  end.

(** Every character of [s] satisfies [p]. *)
Fixpoint all_chars (p : ascii -> bool) (s : string) : bool :=
  match s with
  | EmptyString => true
  | String c s' => p c && all_chars p s'
  end.

(** [l[i]] *)
Definition item {A : Type} (l : list A) (i : nat) : result A :=
  match l !! i with
  | Some a => Return a
  | None => Raise IndexError
  end.

(** [try: body / except (ValueError, IndexError): handler]. *)
Definition except_Value_Index {A : Type} (body handler : result A) : result A :=
  match body with
  | Raise ValueError | Raise IndexError => handler
  | other => other
  end.

End PyStr.

(** ** Readers of [feff.inp] text

    The readers take the list [f] of lines that [readlines()] returns. *)

Module Readers.
Import PyStr.

(** *** [FeffAtoms.atoms_string_from_file] *)

(** One pass of the loop, on the state [(coords, atoms_str)]. *)
Definition atoms_step (st : Z * list string) (line : string) : Z * list string :=
  let '(coords, atoms_str) := st in
  let coords :=
    if coords =? 0 then
      let find_atoms := find "ATOMS" line in
      if find_atoms >=? 0 then 1 else coords
    else coords in
  if coords =? 1 then (coords, atoms_str ++ [remove_char CR line])
  else (coords, atoms_str).

Definition atoms_string_from_file (f : list string) : string :=
  join (fold_left atoms_step f (0, [])).2.

(** *** [Header.header_string_from_file] *)

(** [line[0]] *)
Definition first_char (line : string) : result ascii :=
  match line with
  | EmptyString => Raise IndexError
  | String c _ => Return c
  end.

(** One pass of the loop of the branch for files of unknown origin, on
    the state [(end, feff_header_str)]. *)
Definition header_step (st : result (Z * list string)) (line : string)
  : result (Z * list string) :=
  '(end_, feff_header_str) ← st;
  c ← first_char line;
  if (Ascii.eqb c "*" || Ascii.eqb c "T") && (end_ =? 0)
  then Return (end_, feff_header_str ++ [remove_char CR line])
  else Return (1, feff_header_str).

(** One pass of the loop of the branch for files written by pymatgen, on
    the state [(ln, feff_header_str)]. *)
Definition pmg_header_step (nsites : Z) (st : Z * list string) (line : string)
  : Z * list string :=
  let '(ln, feff_header_str) := st in
  let ln := ln + 1 in
  if ln <=? nsites + 9 then (ln, feff_header_str ++ [line])
  else (ln, feff_header_str).

Definition header_string_from_file (f : list string) : result string :=
  let feffpmg :=
    match f with
    | line0 :: _ => find "pymatgen" line0
    | [] => 0
    end in
  if feffpmg >? 0 then
    line8 ← item f 8;
    field ← item (split line8) 2;
    nsites ← PyNum.int field;
    Return (join (fold_left (pmg_header_step nsites) f (0, [])).2)
  else
    '(_, feff_header_str) ← fold_left header_step f (Return (0, []));
    Return (join feff_header_str).

(** *** [FeffPot.pot_string_from_file] *)

Record pot_state : Type := PotState {
  ln : Z;
  pot_str : list string;
  pot_tag : Z;
  pot_data : Z;
  pot_data_over : Z
}.

(** [int(line.split()[0])] *)
Definition first_field_int (line : string) : result Z :=
  field ← item (split line) 0;
  PyNum.int field.

Definition pot_step (st : pot_state) (line : string) : pot_state :=
  if pot_data_over st =? 1 then
    let ln1 := ln st + 1 in
    let '(pot_tag1, ln2) :=
      if pot_tag st =? -1 then (find "POTENTIALS" line, 0)
      else (pot_tag st, ln1) in
    if (pot_tag1 >=? 0) && (ln2 >? 0) && (pot_data_over st >? 0) then
      match first_field_int line with
      | Return n =>
          if n =? pot_data st
          then PotState ln2 (pot_str st ++ [remove_char CR line]) pot_tag1
                 (pot_data st + 1) (pot_data_over st)
          else PotState ln2 (pot_str st) pot_tag1 (pot_data st) (pot_data_over st)
      | Raise _ =>
          (* only [ValueError] and [IndexError] can be raised here *)
          if pot_data st >? 0
          then PotState ln2 (pot_str st) pot_tag1 (pot_data st) 0
          else PotState ln2 (pot_str st) pot_tag1 (pot_data st) (pot_data_over st)
      end
    else PotState ln2 (pot_str st) pot_tag1 (pot_data st) (pot_data_over st)
  else st.

Definition pot_start : pot_state :=
  PotState (-1) [String.append "POTENTIALS" (String LF "")] (-1) 0 1.

Definition pot_lines (f : list string) : pot_state := fold_left pot_step f pot_start.

Definition pot_string_from_file (f : list string) : string :=
  join (pot_str (pot_lines f)).

(** *** [FeffPot.pot_dict_from_string] *)

Record dict_state : Type := DictState {
  pot_dict : gmap string Z;
  pot_dict_reverse : gmap Z string;
  begin : Z;
  dln : Z
}.

(** The [try] statement for one line, with its handler [pass]: the state
    after the line.  An exception in the first condition leaves the state
    as it was; an exception in the last block keeps the new [begin] and
    [ln] (the dictionaries are only changed by the last two statements,
    which do not raise). *)
Definition dict_try (st : dict_state) (line : string) : dict_state :=
  let fields := split line in
  (* if begin == 0 and line.split()[0] == "0" *)
  let started : result (Z * Z) :=
    if begin st =? 0 then
      f0 ← item fields 0;
      if String.eqb f0 "0" then Return (begin st + 1, 0)
      else Return (begin st, dln st)
    else Return (begin st, dln st) in
  match started with
  | Raise _ => st
  | Return (begin1, ln1) =>
      let ln2 := if begin1 =? 1 then ln1 + 1 else ln1 in
      let st1 := DictState (pot_dict st) (pot_dict_reverse st) begin1 ln2 in
      if ln2 >? 0 then
        match (atom ← item fields 2;
               f0 ← item fields 0;
               index ← PyNum.int f0;
               Return (atom, index)) with
        | Return (atom, index) =>
            DictState (<[atom := index]> (pot_dict st))
                      (<[index := atom]> (pot_dict_reverse st)) begin1 ln2
        | Raise _ => st1
        end
      else st1
  end.

Definition pot_dict_from_string (pot_data : string)
  : gmap string Z * gmap Z string :=
  let st := fold_left dict_try (split_lines pot_data) (DictState ∅ ∅ 0 (-1)) in
  (pot_dict st, pot_dict_reverse st).

(** *** Reading the results *)

(** The leading elements that satisfy [p]. *)
Fixpoint take_while {A : Type} (p : A -> bool) (l : list A) : list A :=
  match l with
  | [] => []
  | a :: l' => if p a then a :: take_while p l' else []
  end.

(** The line is a header line: it begins with [*] or [T]. *)
Definition header_line (line : string) : bool :=
  match line with
  | String c _ => Ascii.eqb c "*" || Ascii.eqb c "T"
  | EmptyString => false
  end.

(** The line holds the text ["ATOMS"]. *)
Definition has_ATOMS (line : string) : bool := find "ATOMS" line >=? 0.

(** The line does not hold the text ["POTENTIALS"]. *)
Definition no_tag (line : string) : Prop := find "POTENTIALS" line = -1.

(** The line opens the table of potentials: its first field is ["0"]. *)
Definition opens_table (line : string) : bool :=
  match split line with
  | f0 :: _ => String.eqb f0 "0"
  | [] => false
  end.

(** The pair [(atom, index)] that a line of the table gives: its third
    field and the integer of its first field, when both exist. *)
Definition entry (line : string) : option (string * Z) :=
  match split line !! 2%nat, split line !! 0%nat with
  | Some atom, Some f0 =>
      match PyNum.int f0 with
      | Return index => Some (atom, index)
      | Raise _ => None
      end
  | _, _ => None
  end.

(** The list without its leading elements that satisfy [p]. *)
Fixpoint drop_while {A : Type} (p : A -> bool) (l : list A) : list A :=
  match l with
  | [] => []
  | a :: l' => if p a then drop_while p l' else l
  end.

(** The entries of the text, in the order of its lines, from the first
    line that opens the table. *)
Definition entries (pot_data : string) : list (string * Z) :=
  omap entry (drop_while (fun line => negb (opens_table line))
                (split_lines pot_data)).

(** The state after a line read while the table is open. *)
Definition add_entry (st : dict_state) (e : option (string * Z)) : dict_state :=
  match e with
  | Some (atom, index) =>
      DictState (<[atom := index]> (pot_dict st))
                (<[index := atom]> (pot_dict_reverse st)) 1 (dln st + 1)
  | None => DictState (pot_dict st) (pot_dict_reverse st) 1 (dln st + 1)
  end.

(** The two dictionaries after the assignments of the entries [es], in
    order. *)
Definition insert_entries (es : list (string * Z))
  (dr : gmap string Z * gmap Z string) : gmap string Z * gmap Z string :=
  fold_left (fun dr e => (<[e.1 := e.2]> dr.1, <[e.2 := e.1]> dr.2)) es dr.

(** A [POTENTIALS] card as [FeffPot.__str__] lays it out, for Co with
    neighbours Co and O. *)
Definition potentials_card : string :=
  "POTENTIALS
 *ipot  Z  tag  lmax1  lmax2  xnatph(stoichometry)  spinph
*****  **  ***  *****  *****  ********************  ******
    0  27  Co   -1     -1     0.0001                0
    1  27  Co   -1     -1     1                     0
    2  8   O    -1     -1     2                     0
".

End Readers.

(** ** [FeffTags]: reading and writing a store *)

Module FeffTagsIO.
Import PyStr FeffTags.

(** *** [FeffTags.from_file]

    The function is modelled from the list [lines] that [clean_lines]
    hands to its loop. *)

(** [[A-Z]] *)
Definition is_upper (c : ascii) : bool := (65 <=? Py.ord c) && (Py.ord c <=? 90).

(** The [re.match] of the loop, at the start of [line], and its two
    groups.  The pattern is a group of one or more letters [A-Z] followed
    by digits (written as two starred digit classes), then starred white
    space, then a group of any characters but the line feed.  Every part
    after the letters may be empty, so each part takes the longest run
    it can, and the first digit class takes all the digits. *)
Definition tag_match (line : string) : option (string * string) :=
  let '(letters, rest) := Py.span is_upper line in
  match letters with
  | EmptyString => None
  | _ =>
      let '(digits, rest) := Py.span Py.isdigit rest in
      let '(_, rest) := Py.span Py.isspace rest in
      let '(group2, _) := Py.span (fun c => negb (Ascii.eqb c LF)) rest in
      Some (letters +:+ digits, group2)
  end.

Definition markers : list string := ["ATOMS"; "POTENTIALS"; "END"; "TITLE"].

(** One pass of the loop over [lines], on the dictionary [params]. *)
Definition from_file_step (params : result (gmap string value)) (line : string)
  : result (gmap string value) :=
  params ← params;
  match tag_match line with
  | Some (group1, group2) =>
      let key := Py.strip group1 in
      let val := Py.strip group2 in
      val ← proc_val key val;
      if Py.mem key markers then Return params
      else Return (<[key := val]> params)
  | None => Return params
  end.

Definition from_file (lines : list string) : result (gmap string value) :=
  params ← fold_left from_file_step lines (Return ∅);
  Return (init params).

(** *** [FeffTags.as_dict] and [FeffTags.from_dict] *)

(** The dictionary with the two entries that name the class. *)
Definition as_dict (self : gmap string value) : gmap string value :=
  <["@class" := VStr "FeffTags"]>
    (<["@module" := VStr "pymatgen.io.feff.inputs"]> self).

Definition meta_keys : list string := ["@module"; "@class"].

(** One pass of the loop over [d.items()], on the new store [i]; the
    warnings of the assignment are not kept. *)
Definition from_dict_step (i : result (gmap string value)) (kv : string * value)
  : result (gmap string value) :=
  i ← i;
  if Py.mem kv.1 meta_keys then Return i else (__setitem__ i kv.1 kv.2).2.

(** [from_dict(d)], from the list [d.items()] in the order of the
    dictionary. *)
Definition from_dict (items : list (string * value)) : result (gmap string value) :=
  fold_left from_dict_step items (Return ∅).

(** *** Reading the results *)

(** A predicate on characters that does not look at the case of letters. *)
Definition case_blind (p : ascii -> bool) : Prop :=
  forall c, p (Py.lower_char c) = p c.

(** An assignment stores the entry [(key, v)] as it is: the name has no
    surrounding white space, and a text is processed to itself. *)
Definition settled (key : string) (v : value) : Prop :=
  Py.strip key = key
  /\ forall t, v = VStr t -> proc_val key (Py.strip t) = Return (VStr t).

Definition settled_store (store : gmap string value) : Prop :=
  forall k v, store !! k = Some v -> settled k v.

(** The store after an entry of [d.items()] that is stored as it is. *)
Definition keep_entry (m : gmap string value) (kv : string * value)
  : gmap string value :=
  if Py.mem kv.1 meta_keys then m else <[kv.1 := kv.2]> m.

(** The key and the text of the value that a line gives. *)
Definition tag_line (line : string) : option (string * string) :=
  match tag_match line with
  | Some (group1, group2) => Some (Py.strip group1, Py.strip group2)
  | None => None
  end.

(** The keys and value texts of the lines, in order. *)
Definition tags (lines : list string) : list (string * string) :=
  omap tag_line lines.

(** The value of a call that returns. *)
Definition returned (r : result value) : option value :=
  match r with
  | Return v => Some v
  | Raise _ => None
  end.

(** The processed value of the last of the tags [l] with the key [key]. *)
Definition last_tag (key : string) (l : list (string * string)) : option value :=
  t ← last (filter (fun t => t.1 = key) l); returned (proc_val t.1 t.2).

(** An upper-case letter or a digit. *)
Definition is_tag_char (c : ascii) : bool := is_upper c || Py.isdigit c.

(** Lines of a parameter file, cleaned. *)
Definition parameter_lines : list string :=
  ["TITLE cobalt oxide"; "EDGE   K"; "S02 1.0"; "Scf 7";
   "CONTROL 1 1 1 1 1 1"; "EDGE L1"; "RPATH20 4"; "ATOMS"].

End FeffTagsIO.

(** ** [sorted(l, key=...)] on integer keys

    As for string keys: each element is put in front of the first element
    already placed whose key is not smaller. *)
Section SortedZ.
Context {A : Type} (key : A -> Z).

Fixpoint insert_by (a : A) (l : list A) : list A :=
  match l with
  | [] => [a]
  | b :: l' => if key b <? key a then b :: insert_by a l' else a :: l
  end.

Definition sorted_by (l : list A) : list A := foldr insert_by [] l.
End SortedZ.

(** ** [FeffPot]: the table of potentials *)

Module FeffPot.

(** An element, as [site.specie] and the keys of a composition give it:
    its [symbol] and its atomic number [Z]. *)
Record element : Type := Element {
  el_symbol : string;
  el_Z : Z
}.

(** What [FeffPot] reads of the structure: [is_ordered], [species] (the
    element of each site) and [composition.items()] (elements with their
    amounts). *)
Record pot_structure : Type := PotStructure {
  is_ordered : bool;
  species : list element;
  composition : list (element * spec_float)
}.

Record t : Type := Make {
  central_atom : string;
  struct : pot_structure;
  pot_dict : gmap string Z
}.

(** [FeffPot.__init__] *)
Definition init (struct : pot_structure) (central_atom : string) : result t :=
  if is_ordered struct then
    let syms := el_symbol <$> species struct in
    Return (Make central_atom struct
              (FeffAtoms.make_pot_dict (FeffAtoms.unique_pot_atoms syms)))
  else Raise ValueError.

(** One line of the table: [[ipot, cz, cs, -1, -1, stoic, 0]]. *)
Record pot_row : Type := PotRow {
  ipot : Z;
  cz : Z;
  cs : string;
  lmax1 : Z;
  lmax2 : Z;
  stoic : spec_float;
  spinph : Z
}.

(** The literal [.0001]. *)
Definition trace : spec_float := PyNum.float_of_decimal false 1 (-4).

(** The body of the loop over the composition. *)
Definition composition_row (self : t) (item : element * spec_float)
  : result pot_row :=
  let center := item.1 in
  match pot_dict self !! el_symbol center with
  | None => Raise KeyError
  | Some ipot => Return (PotRow ipot (el_Z center) (el_symbol center) (-1) (-1) item.2 0)
  end.

Fixpoint composition_rows (self : t) (items : list (element * spec_float))
  : result (list pot_row) :=
  match items with
  | [] => Return []
  | item :: rest =>
      r ← composition_row self item;
      rs ← composition_rows self rest;
      Return (r :: rs)
  end.

(** [__str__] up to the table [ipot_sorted] that is handed to
    [tabulate]. *)
Definition ipot_sorted (self : t) : result (list pot_row) :=
  let ptatoms := el_symbol <$> species (struct self) in
  index ← FeffAtoms.index (central_atom self) ptatoms;
  match species (struct self) !! index with
  | None => Raise IndexError
  | Some center =>
      let first := PotRow 0 (el_Z center) (el_symbol center) (-1) (-1) trace 0 in
      rest ← composition_rows self (composition (struct self));
      Return (sorted_by ipot (first :: rest))
  end.

(** *** Reading the results *)

(** The row of an item of the composition. *)
Definition row_of (self : t) (item : element * spec_float) (r : pot_row) : Prop :=
  pot_dict self !! el_symbol item.1 = Some (ipot r)
  /\ cs r = el_symbol item.1 /\ cz r = el_Z item.1 /\ stoic r = item.2.

(** Co, O, O with the composition listed as O, Co. *)
Definition Co : element := Element "Co" 27.
Definition O : element := Element "O" 8.

Definition CoO2 : pot_structure :=
  PotStructure true [Co; O; O]
    [(O, Examples.dyadic 2 0); (Co, Examples.dyadic 1 0)].

Definition CoO2_pot : t :=
  Make "Co" CoO2
    (FeffAtoms.make_pot_dict (FeffAtoms.unique_pot_atoms ["Co"; "O"; "O"])).

End FeffPot.
(** * Properties *)

(** ** Fixed-point text of a non-negative float *)

Section FormatFacts.
Import PyNum.

Lemma digit_char_isdigit d : Py.isdigit (digit_char d) = true.
Proof.
  unfold digit_char.
  repeat match goal with
         | |- context [match ?t with _ => _ end] => destruct t
         end; reflexivity.
Qed.

Lemma isdigit_not_below_0 c :
  Py.isdigit c = true -> Ascii.compare c "0" <> Lt.
Proof.
  unfold Py.isdigit, Py.ord, Ascii.compare. intros H.
  apply andb_true_iff in H as [H _]. apply Z.leb_le in H.
  change (N_of_ascii "0") with 48%N.
  rewrite N.compare_lt_iff. lia.
Qed.

Lemma digit_char_positive d :
  1 <= d <= 9 -> Ascii.compare (digit_char d) "0" = Gt.
Proof.
  intros H.
  assert (d = 1 \/ d = 2 \/ d = 3 \/ d = 4 \/ d = 5 \/ d = 6 \/ d = 7
          \/ d = 8 \/ d = 9) as Hd by lia.
  repeat destruct Hd as [-> | Hd]; try subst d; reflexivity.
Qed.

Lemma compare_digit_cons c s t :
  Py.isdigit c = true ->
  String.compare s t <> Lt ->
  String.compare (String c s) (String "0" t) <> Lt.
Proof.
  intros Hc Hs. simpl.
  pose proof (isdigit_not_below_0 c Hc).
  destruct (Ascii.compare c "0"); congruence.
Qed.

Lemma dec_fixed_6_not_below n :
  String.compare (dec_fixed 6 n "") "000000" <> Lt.
Proof.
  cbn [dec_fixed].
  repeat (apply compare_digit_cons; [apply digit_char_isdigit |]).
  discriminate.
Qed.

Lemma pow2_le_pow10 (k : Z) : 0 <= k -> 2 ^ k <= 10 ^ k.
Proof. intros. apply Z.pow_le_mono_l. lia. Qed.

(** With enough fuel the first digit of a positive number is not [0]. *)
Lemma dec_from_head fuel : forall n acc,
  0 < n < 10 ^ Z.of_nat fuel ->
  exists c rest, dec_from fuel n acc = String c rest
                 /\ Ascii.compare c "0" = Gt.
Proof.
  induction fuel as [|fuel IH]; intros n acc Hn.
  - change (10 ^ Z.of_nat 0) with 1 in Hn. lia.
  - cbn [dec_from]. destruct (n / 10 =? 0) eqn:Hq.
    + apply Z.eqb_eq in Hq.
      assert (n mod 10 = n) as Hm.
      { pose proof (Z.div_mod n 10 ltac:(lia)). lia. }
      eexists _, _. split; [reflexivity |].
      apply digit_char_positive. rewrite Hm.
      pose proof (Z.mod_pos_bound n 10 ltac:(lia)). lia.
    + apply Z.eqb_neq in Hq. apply IH.
      rewrite Nat2Z.inj_succ, Z.pow_succ_r in Hn by lia.
      pose proof (Z.div_pos n 10).
      split; [| apply Z.div_lt_upper_bound; lia].
      assert (0 <= n / 10) by (apply Z.div_pos; lia). lia.
Qed.

Lemma dec_head n :
  0 <= n ->
  (n = 0 /\ dec n = "0") \/
  (exists c rest, dec n = String c rest /\ Ascii.compare c "0" = Gt).
Proof.
  intros Hn. destruct (Z.eq_dec n 0) as [-> | Hne]; [left; split; reflexivity |].
  right. unfold dec. apply dec_from_head.
  split; [lia |].
  pose proof (Z.log2_spec n ltac:(lia)) as [_ Hlt].
  pose proof (Z.log2_nonneg n).
  rewrite Nat2Z.inj_succ, Z2Nat.id by lia.
  pose proof (pow2_le_pow10 (Z.succ (Z.log2 n)) ltac:(lia)). lia.
Qed.

Lemma div_half_even_nonneg num den :
  0 <= num -> 0 < den -> 0 <= div_half_even num den.
Proof.
  intros Hn Hd. unfold div_half_even.
  assert (0 <= num / den) by (apply Z.div_pos; lia).
  destruct (2 * (num mod den) ?= den); [destruct (Z.even _) | |]; lia.
Qed.

Lemma micro_nonneg m e : 0 <= micro m e.
Proof.
  unfold micro. destruct (0 <=? e) eqn:He.
  - apply Z.leb_le in He.
    assert (0 < 2 ^ e) by (apply Z.pow_pos_nonneg; lia). nia.
  - apply Z.leb_gt in He. apply div_half_even_nonneg; [lia |].
    apply Z.pow_pos_nonneg; lia.
Qed.

Lemma fixed6_not_below n :
  0 <= n -> String.compare (fixed6 false n) "0.000000" <> Lt.
Proof.
  intros Hn. unfold fixed6, sign_text.
  assert (0 <= n / 1000000) as Hq by (apply Z.div_pos; lia).
  destruct (dec_head _ Hq) as [[_ ->] | (c & rest & -> & Hc)].
  - pose proof (dec_fixed_6_not_below (n mod 1000000)) as H.
    change (String.compare (dec_fixed 6 (n mod 1000000) "") "000000" <> Lt).
    exact H.
  - change (String.compare
              (String c (rest +:+ "." +:+ dec_fixed 6 (n mod 1000000) ""))
              "0.000000" <> Lt).
    cbn [String.compare]. rewrite Hc. discriminate.
Qed.

(** No distance with a clear sign is printed as a text below the text of
    zero. *)
Lemma format_f_not_below_zero d :
  sign_clear d = true -> String.ltb (format_f d) "0.000000" = false.
Proof.
  intros Hd. unfold String.ltb.
  assert (String.compare (format_f d) "0.000000" <> Lt) as H.
  { destruct d as [[] | [] | | [] m e]; try discriminate Hd.
    - vm_compute; discriminate.
    - vm_compute; discriminate.
    - vm_compute; discriminate.
    - apply fixed6_not_below, micro_nonneg. }
  destruct (String.compare _ _); congruence.
Qed.
End FormatFacts.

(** ** The stable sort *)

Section SortedFacts.
Context {A : Type} (key : A -> string).

Lemma insert_sorted_perm a l : insert_sorted key a l ≡ₚ a :: l.
Proof.
  induction l as [|b l IH]; [reflexivity |].
  cbn [insert_sorted]. destruct (String.ltb (key b) (key a)); [| reflexivity].
  rewrite IH. apply Permutation_swap.
Qed.

Lemma sorted_perm l : sorted key l ≡ₚ l.
Proof.
  induction l as [|a l IH]; [reflexivity |].
  cbn [sorted foldr]. fold (sorted key l).
  rewrite insert_sorted_perm. by rewrite IH.
Qed.

Lemma sorted_length l : length (sorted key l) = length l.
Proof. by rewrite sorted_perm. Qed.

Lemma ltb_flip s k :
  String.ltb s k = false -> s <> k -> String.ltb k s = true.
Proof.
  unfold String.ltb. intros Hlt Hne.
  rewrite String.compare_antisym.
  destruct (String.compare s k) eqn:Hc; try discriminate; [| reflexivity].
  apply String.compare_eq_iff in Hc. contradiction.
Qed.

(** When no key is below [k0], the sorted list starts with the first
    element of the input whose key is [k0]. *)
Lemma sorted_head k0 l a :
  Forall (fun b => String.ltb (key b) k0 = false) l ->
  List.find (fun b => String.eqb (key b) k0) l = Some a ->
  exists rest, sorted key l = a :: rest.
Proof.
  induction l as [|b l IH]; intros Hmin Hfind; [discriminate |].
  apply Forall_cons in Hmin as [Hb Hmin].
  cbn [sorted foldr]. fold (sorted key l).
  cbn [List.find] in Hfind.
  destruct (String.eqb (key b) k0) eqn:Hk.
  - injection Hfind as <-. apply String.eqb_eq in Hk.
    destruct (sorted key l) as [|h t] eqn:Hs; [by eexists |].
    cbn [insert_sorted].
    assert (h ∈ l) as Hh.
    { rewrite <- (sorted_perm l), Hs. apply list_elem_of_here. }
    rewrite Forall_forall in Hmin. rewrite Hk, (Hmin h Hh). by eexists.
  - destruct (IH Hmin Hfind) as [t Ht]. rewrite Ht.
    apply List.find_some in Hfind as [_ Ha]. apply String.eqb_eq in Ha.
    apply String.eqb_neq in Hk.
    cbn [insert_sorted]. rewrite Ha, (ltb_flip _ _ Hb Hk). by eexists.
Qed.

Lemma ltb_leb s t : String.ltb s t = true -> String.leb s t = true.
Proof. unfold String.ltb, String.leb. by destruct (String.compare s t). Qed.

Lemma not_ltb_leb s t : String.ltb s t = false -> String.leb t s = true.
Proof.
  unfold String.ltb, String.leb. rewrite (String.compare_antisym s t).
  by destruct (String.compare t s).
Qed.

Lemma insert_sorted_order a l :
  Sorted (fun b c => String.leb (key b) (key c) = true) l ->
  Sorted (fun b c => String.leb (key b) (key c) = true) (insert_sorted key a l).
Proof.
  induction 1 as [|b l Hl IH Hb]; cbn [insert_sorted].
  - by repeat constructor.
  - destruct (String.ltb (key b) (key a)) eqn:Hlt.
    + constructor; [exact IH |].
      destruct Hb as [|c l Hbc]; cbn [insert_sorted].
      * constructor. by apply ltb_leb.
      * destruct (String.ltb (key c) (key a)); constructor;
          [exact Hbc | by apply ltb_leb].
    + constructor; [by constructor |].
      constructor. by apply not_ltb_leb.
Qed.

(** The sorted list is in ascending order of the keys as texts. *)
Lemma sorted_order l :
  Sorted (fun b c => String.leb (key b) (key c) = true) (sorted key l).
Proof.
  induction l as [|a l IH]; [constructor |].
  cbn [sorted foldr]. by apply insert_sorted_order.
Qed.
End SortedFacts.

(** ** The potential dictionary *)

Section PotDictFacts.
Import FeffAtoms.

Lemma count_nonneg a l : 0 <= count a l.
Proof. induction l as [|b l IH]; cbn [count]; [lia |]. destruct (String.eqb b a); lia. Qed.

Lemma count_nonzero_elem a l : count a l <> 0 -> a ∈ l.
Proof.
  induction l as [|b l IH]; cbn [count]; [lia |].
  destruct (String.eqb b a) eqn:Hb.
  - apply String.eqb_eq in Hb as ->. intros _. apply list_elem_of_here.
  - intros H. apply list_elem_of_further, IH. lia.
Qed.

Lemma unique_fold_elem a syms : forall acc,
  a ∈ acc \/ a ∈ syms ->
  a ∈ fold_left (fun acc i => if count i acc =? 0 then acc ++ [i] else acc)
        syms acc.
Proof.
  induction syms as [|s syms IH]; intros acc [H | H]; cbn [fold_left].
  - exact H.
  - by apply elem_of_nil in H.
  - apply IH. left. destruct (count s acc =? 0); [| exact H].
    apply elem_of_app. by left.
  - apply elem_of_cons in H as [-> | H]; apply IH; [left | by right].
    destruct (count s acc =? 0) eqn:Hc.
    + apply elem_of_app. right. apply list_elem_of_here.
    + apply Z.eqb_neq in Hc. by apply count_nonzero_elem.
Qed.

Lemma unique_pot_atoms_elem a syms : a ∈ syms -> a ∈ unique_pot_atoms syms.
Proof. intros H. apply unique_fold_elem. by right. Qed.

Lemma pot_dict_fold atoms : forall (i : Z) (d : gmap string Z),
  0 <= i ->
  (forall k v, d !! k = Some v -> 1 <= v) ->
  let d' := fold_left (fun d '(i, atom) => <[atom := i + 1]> d)
              (enumerate_from i atoms) d in
  (forall k v, d' !! k = Some v -> 1 <= v)
  /\ (forall k, k ∈ atoms \/ is_Some (d !! k) -> is_Some (d' !! k)).
Proof.
  induction atoms as [|a atoms IH]; intros i d Hi Hd; cbn [enumerate_from fold_left].
  - split; [exact Hd |]. intros k [H | H]; [by apply elem_of_nil in H | exact H].
  - destruct (IH (i + 1) (<[a := i + 1]> d)) as [Hv Hk]; [lia | |].
    { intros k v. rewrite lookup_insert. case_decide.
      - intros [= <-]. lia.
      - apply Hd. }
    split; [exact Hv |].
    intros k Hin. apply Hk.
    destruct Hin as [[-> | Hin]%elem_of_cons | Hin].
    + right. rewrite lookup_insert_eq. by eexists.
    + by left.
    + right. rewrite lookup_insert. case_decide; [by eexists | exact Hin].
Qed.

Lemma make_pot_dict_values atoms k v :
  make_pot_dict atoms !! k = Some v -> 1 <= v.
Proof.
  apply (pot_dict_fold atoms 0 ∅); [lia |].
  intros k' v'. by rewrite lookup_empty.
Qed.

Lemma make_pot_dict_keys atoms k :
  k ∈ atoms -> is_Some (make_pot_dict atoms !! k).
Proof.
  intros H. apply (pot_dict_fold atoms 0 ∅); [lia | | by left].
  intros k' v'. by rewrite lookup_empty.
Qed.

(** After [__init__] every species symbol of the structure has an index,
    and every index is at least 1. *)
Lemma init_pot_dict struct central self :
  init struct central = Return self ->
  struct = FeffAtoms.struct self
  /\ central = central_atom self
  /\ (forall k v, pot_dict self !! k = Some v -> 1 <= v)
  /\ (forall k, k ∈ symbol <$> sites struct -> is_Some (pot_dict self !! k)).
Proof.
  unfold init. destruct (is_ordered struct); [| discriminate].
  intros [= <-]. cbn. repeat split.
  - apply make_pot_dict_values.
  - intros k Hk. by apply make_pot_dict_keys, unique_pot_atoms_elem.
Qed.
End PotDictFacts.

(** ** The shell table *)

Section ShellTable.
Import FeffAtoms.

Variable get_sites_in_sphere :
  structure -> point -> spec_float -> list (site * spec_float).

Lemma make_row_inv self pt i e r :
  make_row self pt i e = Return r ->
  distance r = PyNum.format_f e.2
  /\ atm r = strip_decoration (species_string e.1)
  /\ pot_dict self !! atm r = Some (ipot r)
  /\ number r = i.
Proof.
  unfold make_row.
  destruct (pot_dict self !! _) as [v|] eqn:Hv; [| discriminate].
  destruct pt as [[xs ys] zs], (coords e.1) as [[ax ay] az].
  intros [= <-]. cbn. by rewrite Hv.
Qed.

Lemma make_rows_spec self pt sphere : forall i,
  Forall (fun e => is_Some (pot_dict self
                              !! strip_decoration (species_string e.1)))
         sphere ->
  exists rows,
    make_rows self pt i sphere = Return rows
    /\ Forall2 (fun e r => exists j, make_row self pt j e = Return r)
               sphere rows.
Proof.
  induction sphere as [|e sphere IH]; intros i Hs; cbn [make_rows].
  - exists []. split; [reflexivity | constructor].
  - apply Forall_cons in Hs as [[v Hv] Hs].
    destruct (IH (i + 1) Hs) as (rows & -> & HF).
    assert (exists r, make_row self pt i e = Return r) as [r Hr].
    { unfold make_row. rewrite Hv.
      destruct pt as [[xs ys] zs], (coords e.1) as [[ax ay] az]. by eexists. }
    rewrite Hr. exists (r :: rows). split; [reflexivity |].
    constructor; [by exists i | exact HF].
Qed.

Lemma find_Forall2 {A B : Type} (R : A -> B -> Prop) p q l1 l2 a :
  Forall2 R l1 l2 ->
  (forall a b, R a b -> p a = q b) ->
  List.find p l1 = Some a ->
  exists b, List.find q l2 = Some b /\ R a b.
Proof.
  intros HF Hpq. induction HF as [|a' b' l1 l2 HR HF IH]; [discriminate |].
  cbn [List.find]. rewrite <- (Hpq _ _ HR).
  destruct (p a'); [intros [= <-]; by exists b' | exact IH].
Qed.

Lemma renumber_cons i r rows :
  renumber i (r :: rows) = with_number i r :: renumber (i + 1) rows.
Proof. by destruct r. Qed.

Lemma renumber_numbers rows : forall i,
  number <$> renumber i rows = seqZ i (Z.of_nat (length rows)).
Proof.
  induction rows as [|r rows IH]; intros i; [reflexivity |].
  rewrite renumber_cons, fmap_cons, IH. cbn [length with_number number].
  rewrite Nat2Z.inj_succ, (seqZ_cons i) by lia.
  by rewrite Z.pred_succ, Z.add_1_r.
Qed.

Lemma renumber_length rows : forall i, length (renumber i rows) = length rows.
Proof.
  induction rows as [|r rows IH]; intros i; [reflexivity |].
  rewrite renumber_cons. cbn [length]. by rewrite IH.
Qed.

Lemma renumber_ipot rows : forall i,
  Forall (fun r => 1 <= ipot r) rows ->
  Forall (fun r => 1 <= ipot r) (renumber i rows).
Proof.
  induction rows as [|r rows IH]; intros i H; [constructor |].
  apply Forall_cons in H as [Hr H].
  rewrite renumber_cons. constructor; [exact Hr | by apply IH].
Qed.

Lemma renumber_distance rows : forall i,
  distance <$> renumber i rows = distance <$> rows.
Proof.
  induction rows as [|r rows IH]; intros i; [reflexivity |].
  rewrite renumber_cons, !fmap_cons, IH. reflexivity.
Qed.

(** Whatever the neighbour list, the rows of the table are in ascending
    order of the texts in the distance column. *)
Lemma get_string_rows_text_order self radius rows :
  get_string_rows get_sites_in_sphere self radius = Return rows ->
  Sorted (fun s t => String.leb s t = true) (distance <$> rows).
Proof.
  unfold get_string_rows.
  destruct (center_point self) as [pt|]; cbn [mbind result_bind]; [| discriminate].
  destruct (make_rows _ _ _ _) as [rows0|]; cbn [mbind result_bind];
    [| discriminate].
  pose proof (sorted_order distance rows0) as Hs.
  destruct (sorted distance rows0) as [|[rx ry rz ri ra rd rn] t];
    cbn [set_first_ipot mbind result_bind]; [discriminate |].
  intros [= <-]. rewrite fmap_cons, renumber_distance.
  exact (Sorted_fmap distance
           (fun b c => String.leb (distance b) (distance c) = true)
           (fun s t => String.leb s t = true) _ (fun r1 r2 H => H) Hs).
Qed.

Lemma no_zero_ipot rows :
  Forall (fun r => 1 <= ipot r) rows ->
  filter (fun r => ipot r = 0) rows = [].
Proof.
  induction 1 as [|r rows Hr _ IH]; [reflexivity |].
  rewrite filter_cons_False by lia. exact IH.
Qed.

(** The table around a point [pt]: when the neighbour list is not
    empty, each of its sites carries a species of the structure, its
    distances have a clear sign and one of them is printed as zero, the
    table has one row per neighbour, row 0 comes from the first neighbour
    printed at distance zero and has potential index 0, no other row has
    potential index 0, and the last column counts 0, 1, ..., N-1. *)
Lemma shell_table_rows struct central radius self pt sphere :
  init struct central = Return self ->
  center_point self = Return pt ->
  sphere = get_sites_in_sphere struct pt radius ->
  sphere <> [] ->
  Forall (fun e => strip_decoration (species_string e.1)
                     ∈ symbol <$> sites struct) sphere ->
  Forall (fun e => PyNum.sign_clear e.2 = true) sphere ->
  Exists (fun e => PyNum.format_f e.2 = zero_text) sphere ->
  exists r0 rest,
    get_string_rows get_sites_in_sphere self radius = Return (r0 :: rest)
    /\ length (r0 :: rest) = length sphere
    /\ ipot r0 = 0
    /\ distance r0 = zero_text
    /\ (exists e j r,
          first_at_zero sphere = Some e
          /\ make_row self pt j e = Return r
          /\ x r0 = x r /\ y r0 = y r /\ z r0 = z r /\ atm r0 = atm r)
    /\ (Forall (fun e => PyNum.format_f e.2 = zero_text ->
                         strip_decoration (species_string e.1) = central)
               sphere ->
        atm r0 = central)
    /\ filter (fun r => ipot r = 0) (r0 :: rest) = [r0]
    /\ number <$> (r0 :: rest) = seqZ 0 (Z.of_nat (length sphere)).
Proof.
  intros Hinit Hpt Hsphere Hne Hknown Hsign Hzero.
  destruct (init_pot_dict _ _ _ Hinit) as (Hstruct & _ & Hvals & Hkeys).
  unfold get_string_rows. rewrite Hpt. cbn [mbind result_bind].
  rewrite <- Hstruct, <- Hsphere.
  destruct (make_rows_spec self pt sphere 0) as (rows & -> & HF).
  { eapply Forall_impl; [exact Hknown |]. intros e He. by apply Hkeys. }
  cbn [mbind result_bind].
  (* the first neighbour at distance zero and its row *)
  assert (exists e, first_at_zero sphere = Some e) as [e He].
  { unfold first_at_zero. destruct (List.find _ sphere) eqn:Hf; [by eexists |].
    apply Exists_exists in Hzero as (e & Hin & Hz).
    apply list_elem_of_In in Hin.
    pose proof (List.find_none _ _ Hf e Hin) as Hn. cbn in Hn.
    rewrite Hz, String.eqb_refl in Hn. discriminate. }
  destruct (find_Forall2 _
              (fun e => String.eqb (PyNum.format_f e.2) zero_text)
              (fun r => String.eqb (distance r) zero_text)
              _ _ e HF) as (r & Hfind & j & Hr).
  { intros a b [j Hj]. apply make_row_inv in Hj as (-> & _). reflexivity. }
  { exact He. }
  (* no row is below the text of zero *)
  assert (Forall (fun r => String.ltb (distance r) zero_text = false) rows)
    as Hmin.
  { clear -HF Hsign. induction HF as [|a b l1 l2 [j Hj] _ IH]; [constructor |].
    apply Forall_cons in Hsign as [Ha Hsign].
    constructor; [| by apply IH].
    apply make_row_inv in Hj as (-> & _).
    by apply format_f_not_below_zero. }
  destruct (sorted_head distance zero_text rows r Hmin Hfind) as [t Hsorted].
  rewrite Hsorted.
  (* every row carries an index of the dictionary *)
  assert (Forall (fun r => 1 <= ipot r) rows) as Hipot.
  { clear -HF Hvals. induction HF as [|a b l1 l2 [j Hj] _ IH]; constructor;
      [| exact IH].
    apply make_row_inv in Hj as (_ & _ & Hb & _). by eapply Hvals. }
  assert (Forall (fun r => 1 <= ipot r) t) as Ht.
  { assert (Forall (fun r => 1 <= ipot r) (r :: t)) as Hrt.
    { rewrite <- Hsorted. by rewrite sorted_perm. }
    by apply Forall_cons in Hrt as [_ ?]. }
  assert (length rows = length sphere) as Hlen.
  { symmetry. eapply Forall2_length, HF. }
  assert (length (r :: t) = length sphere) as Hlen'.
  { rewrite <- Hsorted, sorted_length. exact Hlen. }
  pose proof Hr as Hr'. apply make_row_inv in Hr' as (Hd & _).
  apply List.find_some in Hfind as [_ Hrz]. apply String.eqb_eq in Hrz.
  destruct r as [rx ry rz ri ra rd rn]. cbn [set_first_ipot mbind result_bind].
  cbn [renumber]. cbn [distance] in Hrz.
  eexists _, _. split; [reflexivity |].
  cbn [length] in Hlen'. cbn [length ipot distance x y z atm].
  rewrite renumber_length.
  repeat split.
  - exact Hlen'.
  - exact Hrz.
  - exists e, j, (Row rx ry rz ri ra rd rn). by repeat split.
  - intros Hcentral. rewrite Forall_forall in Hcentral.
    apply make_row_inv in Hr as (_ & Ha & _). cbn [atm] in Ha. rewrite Ha.
    apply List.find_some in He as [Hin Hz].
    apply Hcentral; [by apply list_elem_of_In | by apply String.eqb_eq].
  - rewrite filter_cons_True by reflexivity.
    by rewrite no_zero_ipot by by apply renumber_ipot.
  - rewrite fmap_cons, renumber_numbers. cbn [number].
    rewrite <- Hlen', Nat2Z.inj_succ, (seqZ_cons 0) by lia.
    by rewrite Z.pred_succ.
Qed.

Lemma center_point_first self i center :
  list_find (fun s => symbol s = central_atom self) (sites (struct self))
    = Some (i, center) ->
  center_point self = Return (coords center).
Proof.
  unfold center_point. generalize (central_atom self) as a. intros a.
  assert (forall l j c,
            list_find (fun s => symbol s = a) l = Some (j, c) ->
            index a (symbol <$> l) = Return j /\ l !! j = Some c) as Hfind.
  { induction l as [|s l IH]; intros j c; [discriminate |].
    cbn [list_find fmap list_fmap index].
    destruct (decide (symbol s = a)) as [-> | Hs].
    - rewrite String.eqb_refl. by intros [= <- <-].
    - apply String.eqb_neq in Hs. rewrite Hs.
      destruct (list_find _ l) as [[j' c']|]; [| discriminate].
      cbn. intros [= <- <-]. destruct (IH j' c' eq_refl) as [Hi Hl].
      fold (fmap (M := list) symbol l). by rewrite Hi. }
  intros [Hi Hl]%Hfind. cbn zeta. rewrite Hi. cbn [mbind result_bind].
  by rewrite Hl.
Qed.

(** C1, amended.  Take an ordered structure, let [center] be its first
    site of the central species and [sphere] the neighbour list around
    it for the given radius.  Suppose every neighbour carries a species
    of the structure, the distances have a clear sign, and the first
    neighbour printed at distance zero is the center.  Then
    [get_string] builds a table with one row per neighbour whose row 0
    is the row of the center, with potential index 0, distance
    [0.000000] and number 0; no other row has potential index 0, and
    the last column counts 0, 1, ..., N-1. *)
Theorem shell_table_invariant struct central radius self i center d sphere :
  init struct central = Return self ->
  list_find (fun s => symbol s = central) (sites struct) = Some (i, center) ->
  sphere = get_sites_in_sphere struct (coords center) radius ->
  Forall (fun e => strip_decoration (species_string e.1)
                     ∈ symbol <$> sites struct) sphere ->
  Forall (fun e => PyNum.sign_clear e.2 = true) sphere ->
  first_at_zero sphere = Some (center, d) ->
  exists rest,
    get_string_rows get_sites_in_sphere self radius
      = Return (center_row center :: rest)
    /\ length (center_row center :: rest) = length sphere
    /\ filter (fun r => ipot r = 0) (center_row center :: rest)
       = [center_row center]
    /\ number <$> (center_row center :: rest)
       = seqZ 0 (Z.of_nat (length sphere)).
Proof.
  intros Hinit Hcenter Hsphere Hknown Hsign Hfirst.
  destruct (init_pot_dict _ _ _ Hinit) as (Hstruct & Hcentral & _).
  assert (center_point self = Return (coords center)) as Hpt.
  { apply (center_point_first self i). by rewrite <- Hstruct, <- Hcentral. }
  destruct (shell_table_rows struct central radius self (coords center) sphere)
    as (r0 & rest & Hrows & Hlen & Hipot & Hdist & (e & j & r & He & Hr & Hrow)
        & _ & Hfilter & Hnumber); try done.
  { intros ->. discriminate Hfirst. }
  { unfold first_at_zero in Hfirst. apply List.find_some in Hfirst as [Hin Hz].
    apply Exists_exists. exists (center, d).
    split; [by apply list_elem_of_In | by apply String.eqb_eq]. }
  assert (r0 = center_row center) as ->.
  { rewrite Hfirst in He. injection He as <-.
    destruct Hrow as (Hx & Hy & Hz & Ha).
    assert (number r0 = 0) as Hn.
    { pose proof (f_equal (fun l => l !! 0%nat) Hnumber) as H0.
      cbn in H0. destruct sphere as [|e0 sphere]; [discriminate Hfirst |].
      rewrite lookup_seqZ_lt in H0 by (cbn [length]; lia).
      by injection H0. }
    unfold make_row in Hr. cbn [fst snd] in Hr.
    destruct (pot_dict self !! _); [| discriminate].
    unfold center_row. destruct (coords center) as [[cx cy] cz].
    injection Hr as <-. cbn [x y z atm] in *.
    destruct r0 as [rx ry rz ri ra rd rn]. cbn in *. by subst. }
  by exists rest.
Qed.
End ShellTable.

Section ShellExamples.
Import FeffAtoms Examples.

Lemma center_point_exists self :
  central_atom self ∈ symbol <$> sites (struct self) ->
  exists pt, center_point self = Return pt.
Proof.
  unfold center_point. generalize (central_atom self) as a.
  induction (sites (struct self)) as [|s l IH]; intros a Ha.
  - by apply elem_of_nil in Ha.
  - cbn [fmap list_fmap index]. destruct (String.eqb (symbol s) a) eqn:Hs.
    + by eexists.
    + apply elem_of_cons in Ha as [-> | Ha].
      { by rewrite String.eqb_refl in Hs. }
      destruct (IH a Ha) as [pt Hpt]. fold (fmap (M := list) symbol l).
      destruct (index a (symbol <$> l)) as [i|e]; [| discriminate].
      cbn in Hpt |- *. destruct (l !! i); [by eexists | discriminate].
Qed.

(** The hypotheses of [shell_table_invariant] hold for Co in [CoO2] with
    radius 2.5 and the neighbour search of the spec. *)
Lemma shell_table_invariant_witness :
  exists rest,
    get_string_rows Neighbours.get_sites_in_sphere CoO2_atoms (dyadic 5 (-1))
      = Return (center_row Co_site :: rest)
    /\ filter (fun r => ipot r = 0) (center_row Co_site :: rest)
       = [center_row Co_site]
    /\ number <$> (center_row Co_site :: rest) = [0; 1; 2].
Proof.
  destruct (shell_table_invariant Neighbours.get_sites_in_sphere
              CoO2 "Co" (dyadic 5 (-1)) CoO2_atoms 0%nat Co_site (dyadic 0 0)
              CoO2_neighbours)
    as (rest & H1 & _ & H3 & H4).
  - reflexivity.
  - reflexivity.
  - vm_compute. reflexivity.
  - repeat constructor.
  - repeat constructor.
  - vm_compute. reflexivity.
  - exists rest. repeat split; assumption.
Defined.

(** C1 as stated fails.  With an O site at [2^-22] from the Co center
    and a neighbour list that has the O site first, both distances are
    printed as [0.000000], the stable sort keeps the O site in front,
    and row 0 is the O site with potential index 0, while the center is
    row 1 with potential index 1.  And with a center whose species
    string carries more letters than its symbol, no table is built:
    [get_string] raises [KeyError]. *)
Lemma shell_table_center_not_first :
  get_string_rows close_pair_search close_pair_atoms (dyadic 1 0)
    = Return [Row "0.000000" "0.000000" "0.000000" 0 "O" "0.000000" 0;
              Row "0.000000" "0.000000" "0.000000" 1 "Co" "0.000000" 1]
  /\ init close_pair "Co" = Return close_pair_atoms
  /\ get_string_rows Neighbours.get_sites_in_sphere Fe_only_atoms (dyadic 1 0)
     = Raise KeyError
  /\ init Fe_only "Fe" = Return Fe_only_atoms.
Proof. repeat split; vm_compute; reflexivity. Qed.

(** C5, amended: the potential indices are [0, 2, 2].  For Co at the
    origin and O at distances 1.0 and 2.0, radius 2.5 and a neighbour
    search that returns the three sites with these distances in any
    order, [get_string] builds three rows ordered by distance, row 0
    with symbol Co and index 0, both O rows with index 2: Co is the
    first species of the structure and O the second, so the dictionary
    gives O the index 2. *)
Theorem three_site_table
    (search : structure -> point -> spec_float -> list (site * spec_float)) :
  search CoO2 origin (dyadic 5 (-1)) ≡ₚ CoO2_neighbours ->
  get_string_rows search CoO2_atoms (dyadic 5 (-1)) = Return CoO2_table
  /\ length CoO2_table = 3%nat
  /\ ipot <$> CoO2_table = [0; 2; 2]
  /\ atm <$> CoO2_table = ["Co"; "O"; "O"]
  /\ distance <$> CoO2_table = ["0.000000"; "1.000000"; "2.000000"].
Proof.
  intros Hperm. split; [| by repeat split].
  symmetry in Hperm. apply permutations_Permutation in Hperm.
  unfold get_string_rows.
  change (center_point CoO2_atoms) with (Return (A := point) origin).
  cbn [mbind result_bind]. change (struct CoO2_atoms) with CoO2.
  set (sphere := search CoO2 origin (dyadic 5 (-1))) in *.
  let l := eval vm_compute in (permutations CoO2_neighbours) in
  change (permutations CoO2_neighbours) with l in Hperm.
  repeat (apply elem_of_cons in Hperm as [-> | Hperm]; [vm_compute; reflexivity |]).
  by apply elem_of_nil in Hperm.
Qed.

Lemma three_site_table_witness :
  get_string_rows Neighbours.get_sites_in_sphere CoO2_atoms (dyadic 5 (-1))
    = Return CoO2_table.
Proof.
  apply (three_site_table Neighbours.get_sites_in_sphere).
  vm_compute. reflexivity.
Defined.

(** C5 as stated fails: the rows do not carry the indices [0, 1, 1]. *)
Lemma three_site_indices_not_0_1_1 :
  ~ exists rows,
      get_string_rows Neighbours.get_sites_in_sphere CoO2_atoms (dyadic 5 (-1))
        = Return rows
      /\ ipot <$> rows = [0; 1; 1].
Proof.
  intros (rows & Hrows & Hipot).
  vm_compute in Hrows. injection Hrows as <-. discriminate Hipot.
Qed.

(** C2 at a failing input: with neighbours at distances 2.0 and 10.0 the
    row at distance 10.0 comes before the row at distance 2.0, because
    the rows are sorted on the text of the distance, and ["10.000000"]
    is below ["2.000000"] as text. *)
Theorem wide_table_order :
  get_string_rows Neighbours.get_sites_in_sphere wide_atoms (dyadic 12 0)
    = Return wide_table
  /\ distance <$> wide_table = ["0.000000"; "10.000000"; "2.000000"]
  /\ String.ltb "10.000000" "2.000000" = true
  /\ SFltb (dyadic 2 0) (dyadic 10 0) = true.
Proof. repeat split; vm_compute; reflexivity. Qed.
End ShellExamples.

(** ** [FeffTags.proc_val] *)

Section ProcVal.
Import FeffTags Examples.

(** C3.  [proc_val] tries the classes in the order list, boolean, float,
    integer: the outcome is the one of the first class whose tuple holds
    the key, whatever later tuples hold it as well, with [ValueError]
    turned into the capitalized text.  For the tuples of the source every
    key of the list class, among them all float and integer keys, is
    treated by the list class. *)
Theorem proc_val_class_order
    (list_keys boolean_keys float_keys int_keys : list string)
    (key val : string) :
  let r := proc_val_with list_keys boolean_keys float_keys int_keys key val in
  (Py.mem key list_keys = true ->
     r = except_ValueError (list_class val) (fallback val))
  /\ (Py.mem key list_keys = false -> Py.mem key boolean_keys = true ->
        r = except_ValueError (boolean_class val) (fallback val))
  /\ (Py.mem key list_keys = false -> Py.mem key boolean_keys = false ->
      Py.mem key float_keys = true ->
        r = except_ValueError (float_class val) (fallback val))
  /\ (Py.mem key list_keys = false -> Py.mem key boolean_keys = false ->
      Py.mem key float_keys = false -> Py.mem key int_keys = true ->
        r = except_ValueError (int_class val) (fallback val))
  /\ (Py.mem key list_keys = false -> Py.mem key boolean_keys = false ->
      Py.mem key float_keys = false -> Py.mem key int_keys = false ->
        r = fallback val)
  /\ (Py.mem key list_type_keys = true ->
        proc_val key val = except_ValueError (list_class val) (fallback val))
  /\ forallb (fun k => Py.mem k list_type_keys)
       (boolean_type_keys ++ float_type_keys ++ int_type_keys) = true.
Proof.
  unfold proc_val, proc_val_with, if_then, and_then, fallback. cbn zeta.
  repeat split; try (intros; repeat match goal with
                                    | H : Py.mem _ _ = _ |- _ => rewrite H; clear H
                                    end; reflexivity).
Qed.

(** "SCF" is in the list tuple and in the float tuple; the list class
    decides. *)
Lemma proc_val_class_order_witness :
  proc_val "SCF" "7" = except_ValueError (list_class "7") (fallback "7")
  /\ proc_val_with [] ["B"] ["B"] [] "B" ".t"
     = except_ValueError (boolean_class ".t") (fallback ".t").
Proof.
  split.
  - apply (proc_val_class_order list_type_keys boolean_type_keys
             float_type_keys int_type_keys "SCF" "7"). reflexivity.
  - apply (proc_val_class_order [] ["B"] ["B"] [] "B" ".t"); reflexivity.
Defined.

(** C4, amended: [proc_val("SCF", "7")] returns the one-element list
    [[7]]: "SCF" is in [VALID_FEFF_TAGS], so the list class treats the
    value. *)
Theorem proc_val_SCF_7 : proc_val "SCF" "7" = Return (VList [SInt 7]).
Proof. vm_compute. reflexivity. Qed.

(** C4 as stated fails: the result is not the integer 7. *)
Lemma proc_val_SCF_7_not_int : proc_val "SCF" "7" <> Return (VInt 7).
Proof. vm_compute. discriminate. Qed.

(** C8.  [proc_val("EXAFS", "3*1.5 2.0")] returns the list
    [[1.5, 1.5, 1.5, 2.0]] of floats; 1.5 is [3 * 2^-1] and 2.0 is
    [1 * 2^1]. *)
Theorem proc_val_EXAFS_repeat :
  proc_val "EXAFS" "3*1.5 2.0"
  = Return (VList [SFloat (dyadic 3 (-1)); SFloat (dyadic 3 (-1));
                   SFloat (dyadic 3 (-1)); SFloat (dyadic 1 1)]).
Proof. vm_compute. reflexivity. Qed.
End ProcVal.

(** ** Which exceptions leave [proc_val] *)

Section ProcValTotal.
Import FeffTags.

Lemma int_raises s e : PyNum.int s = Raise e -> e = ValueError.
Proof.
  unfold PyNum.int. destruct (PyNum.split_sign _) as [neg body].
  destruct (PyNum.digit_group body) as [[v n]|]; congruence.
Qed.

Lemma float_raises s e : PyNum.float s = Raise e -> e = ValueError.
Proof.
  unfold PyNum.float. destruct (PyNum.split_sign _) as [neg body].
  repeat case_match; congruence.
Qed.

Lemma smart_int_or_float_raises s e :
  smart_int_or_float s = Raise e -> e = ValueError.
Proof.
  unfold smart_int_or_float. destruct (_ || _).
  - destruct (PyNum.float s) eqn:H; cbn; [discriminate |].
    intros [= <-]. by eapply float_raises.
  - destruct (PyNum.int s) eqn:H; cbn; [discriminate |].
    intros [= <-]. by eapply int_raises.
Qed.

Lemma list_repeat_small {A : Type} (a : A) n :
  n <= PY_SSIZE_T_MAX -> exists l, list_repeat [a] n = Return l.
Proof.
  intros Hn. unfold list_repeat.
  assert ((PY_SSIZE_T_MAX <? n) = false) as -> by (apply Z.ltb_ge; lia).
  by eexists.
Qed.

Lemma list_repeat_raises {A : Type} (l : list A) n e :
  list_repeat l n = Raise e -> e = OverflowError.
Proof.
  unfold list_repeat. destruct (_ <? _); congruence.
Qed.

Lemma list_class_loop_raises toks : forall output e,
  list_class_loop toks output = Raise e ->
  e = ValueError \/ e = OverflowError.
Proof.
  induction toks as [|tok toks IH]; intros output e; cbn [list_class_loop];
    [discriminate |].
  destruct (repeat_match tok) as [[g1 g2]|].
  - destruct (smart_int_or_float g2) as [v|e1] eqn:Hv; cbn [mbind result_bind].
    2: { intros [= <-]. left. by eapply smart_int_or_float_raises. }
    destruct (PyNum.int g1) as [n|e2] eqn:Hn; cbn [mbind result_bind].
    2: { intros [= <-]. left. by eapply int_raises. }
    destruct (list_repeat [v] n) as [vs|e3] eqn:Hr; cbn [mbind result_bind].
    2: { intros [= <-]. right. by eapply list_repeat_raises. }
    apply IH.
  - destruct (smart_int_or_float tok) as [v|e1] eqn:Hv; cbn [mbind result_bind].
    2: { intros [= <-]. left. by eapply smart_int_or_float_raises. }
    apply IH.
Qed.

Lemma list_class_loop_small toks : forall output e,
  Forall small_count toks ->
  list_class_loop toks output = Raise e -> e = ValueError.
Proof.
  induction toks as [|tok toks IH]; intros output e Hs; cbn [list_class_loop];
    [discriminate |].
  apply Forall_cons in Hs as [Htok Hs].
  destruct (repeat_match tok) as [[g1 g2]|] eqn:Hm.
  - destruct (smart_int_or_float g2) as [v|e1] eqn:Hv; cbn [mbind result_bind].
    2: { intros [= <-]. by eapply smart_int_or_float_raises. }
    destruct (PyNum.int g1) as [n|e2] eqn:Hn; cbn [mbind result_bind].
    2: { intros [= <-]. by eapply int_raises. }
    destruct (list_repeat_small v n) as [vs ->]; [by eapply Htok |].
    cbn [mbind result_bind]. by apply IH.
  - destruct (smart_int_or_float tok) as [v|e1] eqn:Hv; cbn [mbind result_bind].
    2: { intros [= <-]. by eapply smart_int_or_float_raises. }
    by apply IH.
Qed.

Lemma except_ValueError_returns (r : result value) v :
  (forall e, r = Raise e -> e = ValueError) ->
  exists w, except_ValueError r (Return v) = Return w.
Proof.
  intros H. destruct r as [w|e]; [by exists w |].
  rewrite (H e eq_refl). by exists v.
Qed.

Lemma except_ValueError_raises (r : result value) v e :
  except_ValueError r (Return v) = Raise e -> r = Raise e /\ e <> ValueError.
Proof. destruct r as [w|[]]; cbn; intros [= <-]; by split. Qed.

Lemma boolean_class_raises val e :
  boolean_class val = Raise e -> e = ValueError.
Proof. unfold boolean_class. repeat case_match; congruence. Qed.

Lemma float_class_raises val e : float_class val = Raise e -> e = ValueError.
Proof.
  unfold float_class. destruct (PyNum.float val) eqn:H; cbn; [discriminate |].
  intros [= <-]. by eapply float_raises.
Qed.

Lemma int_class_raises val e : int_class val = Raise e -> e = ValueError.
Proof.
  unfold int_class. destruct (PyNum.int val) eqn:H; cbn; [discriminate |].
  intros [= <-]. by eapply int_raises.
Qed.

Lemma list_class_raises val e :
  list_class val = Raise e ->
  exists output, list_class_loop (Py.re_split_ws val) output = Raise e.
Proof.
  unfold list_class.
  destruct (list_class_loop _ []) eqn:H; cbn; [discriminate |].
  intros [= <-]. by eexists.
Qed.

(** C10, amended: [proc_val] returns a value for every key and every
    text in which each repeat count of the [count*scalar] shorthand fits
    an index-sized integer; the only exception that leaves it, for any
    input, is the [OverflowError] of the list repetition, which the
    handler of [ValueError] does not catch. *)
Theorem proc_val_returns key val :
  (Forall small_count (Py.re_split_ws val) ->
     exists v, proc_val key val = Return v)
  /\ (forall e, proc_val key val = Raise e -> e = OverflowError).
Proof.
  unfold proc_val, proc_val_with, if_then, and_then. cbn zeta.
  destruct (Py.mem key list_type_keys).
  { split.
    - intros Hs. apply except_ValueError_returns.
      intros e [output He]%list_class_raises.
      by eapply list_class_loop_small.
    - intros e [[output He]%list_class_raises Hne]%except_ValueError_raises.
      apply list_class_loop_raises in He as [-> | He]; [done | exact He]. }
  destruct (Py.mem key boolean_type_keys).
  { split.
    - intros _. apply except_ValueError_returns, boolean_class_raises.
    - intros e [He%boolean_class_raises Hne]%except_ValueError_raises. done. }
  destruct (Py.mem key float_type_keys).
  { split.
    - intros _. apply except_ValueError_returns, float_class_raises.
    - intros e [He%float_class_raises Hne]%except_ValueError_raises. done. }
  destruct (Py.mem key int_type_keys).
  { split.
    - intros _. apply except_ValueError_returns, int_class_raises.
    - intros e [He%int_class_raises Hne]%except_ValueError_raises. done. }
  split; [by eexists | discriminate].
Qed.

Lemma proc_val_returns_witness :
  exists v, proc_val "EXAFS" "3*1.5 2.0" = Return v.
Proof.
  apply (proc_val_returns "EXAFS" "3*1.5 2.0").
  change (Py.re_split_ws "3*1.5 2.0") with ["3*1.5"; "2.0"].
  repeat constructor; intros g1 g2 n Hm Hn; vm_compute in Hm;
    try discriminate Hm.
  injection Hm as <- <-. vm_compute in Hn. injection Hn as <-.
  vm_compute. discriminate.
Defined.

(** C10 as stated fails: a repeat count that does not fit an index makes
    [proc_val] raise [OverflowError]. *)
Lemma proc_val_overflow :
  proc_val "EXAFS" "9223372036854775808*1" = Raise OverflowError
  /\ ~ (forall key val, exists v, proc_val key val = Return v).
Proof.
  assert (proc_val "EXAFS" "9223372036854775808*1" = Raise OverflowError)
    as H by (vm_compute; reflexivity).
  split; [exact H |].
  intros Hall. destruct (Hall "EXAFS" "9223372036854775808*1") as [v Hv].
  rewrite H in Hv. discriminate.
Qed.
End ProcValTotal.

(** ** The tag store *)

Section TagStore.
Import FeffTags Examples.

Lemma init_params (params : gmap string value) : init params = params.
Proof. unfold init. apply (right_id ∅ (∪)). Qed.

Lemma strip_all_space s : Py.all_space s = true -> Py.strip s = "".
Proof.
  unfold Py.strip. induction s as [|c s IH]; [reflexivity |].
  cbn [Py.all_space Py.lstrip]. intros [-> Hs]%andb_true_iff. by apply IH.
Qed.

(** C6, amended: [__setitem__] does not reject a name.  Under a name
    that is empty or white space only it issues the warning that the
    (empty) name is not in [VALID_FEFF_TAGS] and stores the value under
    the empty key: a text capitalized, any other value as it is. *)
Theorem setitem_blank_name (self : gmap string value) key val :
  Py.all_space key = true ->
  __setitem__ self key val
  = ([" not in VALID_FEFF_TAGS list"],
     Return (<["" := stored_unclassified val]> self)).
Proof.
  intros Hkey. unfold __setitem__. rewrite (strip_all_space key Hkey).
  destruct val; reflexivity.
Qed.

Lemma setitem_blank_name_witness :
  __setitem__ two_tags "  " (VStr " k edge ")
  = ([" not in VALID_FEFF_TAGS list"],
     Return (<["" := VStr "K edge"]> two_tags)).
Proof. apply (setitem_blank_name two_tags "  " (VStr " k edge ")). reflexivity. Defined.

(** C6 as stated fails: the assignment under a blank name succeeds and
    the store then holds the empty key. *)
Lemma setitem_blank_name_stored :
  exists store,
    (__setitem__ ∅ "  " (VStr "1")).2 = Return store
    /\ store !! "" = Some (VStr "1")
    /\ Py.strip "" = "".
Proof. exists {[ "" := VStr "1" ]}. repeat split. Qed.

(** *** [__add__] *)

Lemma add_fold (self other : gmap string value) :
  let r := map_fold (add_step self) (Return self) other in
  ((forall k, ~ conflict self other k) -> r = Return (other ∪ self))
  /\ ((exists k, conflict self other k) -> r = Raise ValueError)
  /\ (forall e, r = Raise e -> e = ValueError).
Proof.
  cbn zeta.
  apply (map_fold_weak_ind (fun r (m : gmap string value) =>
    ((forall k, ~ conflict self m k) -> r = Return (m ∪ self))
    /\ ((exists k, conflict self m k) -> r = Raise ValueError)
    /\ (forall e, r = Raise e -> e = ValueError))).
  - repeat split.
    + intros _. by rewrite (left_id ∅ (∪)).
    + intros (k & a & b & _ & Hb & _). by rewrite lookup_empty in Hb.
    + discriminate.
  - intros i v m r Hi (Hfree & Hclash & Herr).
    assert (forall k, conflict self m k -> conflict self (<[i:=v]> m) k) as Hup.
    { intros k (a & b & Ha & Hb & Hne). exists a, b. repeat split; [done | | done].
      rewrite lookup_insert_ne; [done |]. intros ->. congruence. }
    repeat split.
    + intros Hnone. rewrite Hfree by (intros k Hk; eapply Hnone, Hup, Hk).
      unfold add_step. cbn [mbind result_bind].
      rewrite <- insert_union_l.
      destruct (self !! i) as [a|] eqn:Ha; [| done].
      destruct (PyEq.neb v a) eqn:Hne; [| done].
      exfalso. apply (Hnone i). exists a, v.
      by rewrite lookup_insert_eq.
    + intros (k & a & b & Ha & Hb & Hne). unfold add_step.
      destruct r as [params|e]; cbn [mbind result_bind].
      * destruct (decide (i = k)) as [-> | Hik].
        -- rewrite lookup_insert_eq in Hb. injection Hb as ->.
           by rewrite Ha, Hne.
        -- rewrite lookup_insert_ne in Hb by done.
           discriminate Hclash. by exists k, a, b.
      * f_equal. by apply Herr.
    + intros e. unfold add_step.
      destruct r as [params|e']; cbn [mbind result_bind].
      * destruct (self !! i) as [a|]; [| discriminate].
        destruct (PyEq.neb v a); [congruence | discriminate].
      * intros [= <-]. by apply Herr.
Qed.

(** C7.  [A + B] returns a store when no key is in both stores with
    values that differ under [!=], and raises [ValueError] when some key
    is (two lists differ when they differ in length or in some place
    hold elements that are neither the same object nor equal).  The
    store returned has the keys of [A] and of [B]; a key of [A] alone
    keeps the value of [A], and every key of [B] has the value of
    [B]. *)
Theorem add_merges (A B : gmap string value) :
  ((forall k, ~ conflict A B k) ->
     exists C,
       __add__ A B = Return C
       /\ (forall k, is_Some (C !! k) <-> is_Some (A !! k) \/ is_Some (B !! k))
       /\ (forall k v, A !! k = Some v -> B !! k = None -> C !! k = Some v)
       /\ (forall k v, B !! k = Some v -> C !! k = Some v))
  /\ ((exists k, conflict A B k) -> __add__ A B = Raise ValueError).
Proof.
  destruct (add_fold A B) as (Hfree & Hclash & _). unfold __add__. split.
  - intros Hnone. exists (B ∪ A). rewrite (Hfree Hnone). cbn [mbind result_bind].
    rewrite init_params. repeat split.
    + intros [v [Hv | [_ Hv]]%lookup_union_Some_raw]; [right | left]; by eexists.
    + intros [[v Hv] | [v Hv]].
      * destruct (B !! k) as [w|] eqn:Hw.
        -- exists w. by apply lookup_union_Some_l.
        -- exists v. apply lookup_union_Some_raw. by right.
      * exists v. by apply lookup_union_Some_l.
    + intros k v Ha Hb. apply lookup_union_Some_raw. by right.
    + intros k v Hb. by apply lookup_union_Some_l.
  - intros Hsome. by rewrite (Hclash Hsome).
Qed.

Lemma add_merges_witness :
  (exists C, __add__ two_tags other_tags = Return C
             /\ C !! "EDGE" = Some (VStr "K")
             /\ C !! "RPATH" = Some (VList [SInt 4])
             /\ C !! "SCF" = Some (VList [SFloat (dyadic 7 0)]))
  /\ __add__ two_tags clashing_tags = Raise ValueError
  /\ (exists C, __add__ nan_list same_nan_list = Return C
                /\ C !! "EXAFS" = Some (VList [SNaN 1; SFloat (dyadic 1 0)]))
  /\ __add__ nan_list other_nan_list = Raise ValueError.
Proof.
  destruct (add_merges two_tags other_tags) as [Hok _].
  destruct (add_merges two_tags clashing_tags) as [_ Hbad].
  destruct (add_merges nan_list same_nan_list) as [Hsame _].
  destruct (add_merges nan_list other_nan_list) as [_ Hother].
  split; [| split; [| split]].
  - destruct Hok as (C & HC & _ & HA & HB).
    { intros k (a & b & Ha & Hb & Hne). unfold two_tags in Ha.
      apply lookup_insert_Some in Ha as [[<- <-] | [_ Ha]].
      - vm_compute in Hb. discriminate Hb.
      - apply lookup_singleton_Some in Ha as [<- <-].
        vm_compute in Hb. injection Hb as <-.
        vm_compute in Hne. discriminate Hne. }
    exists C. repeat split; [exact HC | | |].
    + apply HA; reflexivity.
    + apply HB; reflexivity.
    + apply HB; reflexivity.
  - apply Hbad. exists "SCF", (VList [SInt 7]), (VList [SInt 8]).
    repeat split.
  - destruct Hsame as (C & HC & _ & _ & HB).
    { intros k (a & b & Ha & Hb & Hne). unfold nan_list in Ha.
      apply lookup_singleton_Some in Ha as [<- <-].
      vm_compute in Hb. injection Hb as <-.
      vm_compute in Hne. discriminate Hne. }
    exists C. split; [exact HC |]. apply HB; reflexivity.
  - apply Hother.
    exists "EXAFS", (VList [SNaN 1; SInt 1]), (VList [SNaN 2; SInt 1]).
    repeat split.
Defined.

(** *** [diff] *)

Lemma diff_self_fold (other m : gmap string value) :
  (forall k v, m !! k = Some v ->
     other !! k = Some v /\ PyEq.neb v v = false) ->
  map_fold (diff_self_step other) (∅, ∅) m = (m, ∅).
Proof.
  apply (map_fold_weak_ind (fun r (m : gmap string value) =>
    (forall k v, m !! k = Some v ->
       other !! k = Some v /\ PyEq.neb v v = false) ->
    r = (m, ∅))); [done |].
  clear m. intros i v m r Hi IH Hm.
  rewrite IH.
  - destruct (Hm i v) as [Ho Hv]; [by rewrite lookup_insert_eq |].
    unfold diff_self_step. by rewrite Ho, Hv.
  - intros k w Hk. apply Hm. rewrite lookup_insert_ne; [done |].
    intros ->. congruence.
Qed.

Lemma diff_other_fold (self similar m : gmap string value)
    (different : gmap string tags_pair) :
  (forall k v, m !! k = Some v -> is_Some (similar !! k)) ->
  map_fold (diff_other_step self similar) different m = different.
Proof.
  apply (map_fold_weak_ind (fun r (m : gmap string value) =>
    (forall k v, m !! k = Some v -> is_Some (similar !! k)) ->
    r = different)); [done |].
  clear m. intros i v m r Hi IH Hm.
  rewrite IH.
  - destruct (Hm i v) as [w Hw]; [by rewrite lookup_insert_eq |].
    unfold diff_other_step.
    rewrite (bool_decide_eq_false_2 (similar !! i = None)); [done |].
    by rewrite Hw.
  - intros k w Hk. apply (Hm k w). rewrite lookup_insert_ne; [done |].
    intros ->. congruence.
Qed.

Lemma float_eqb_refl f : PyEq.is_nan f = false -> PyEq.float_eqb f f = true.
Proof.
  unfold PyEq.float_eqb, SFeqb.
  destruct f as [[] | [] | | [] m e]; try reflexivity; try discriminate;
    intros _; cbn [SFcompare]; rewrite Z.compare_refl;
    change (Pos.compare_cont Eq m m) with (Pos.compare m m);
    by rewrite Pos.compare_refl.
Qed.

(** An element of a list is equal to itself: a number that is not NaN
    under [==], a NaN as the same object. *)
Lemma element_eqb_refl a : PyEq.element_eqb a a = true.
Proof.
  unfold PyEq.element_eqb. destruct a as [n | f | i]; cbn.
  - apply Z.eqb_refl.
  - destruct (PyEq.is_nan f) eqn:Hf; [by destruct f |].
    rewrite float_eqb_refl by done. apply orb_true_r.
  - by rewrite Pos.eqb_refl.
Qed.

(** A list is equal to itself under [==], whatever it holds. *)
Lemma list_eqb_refl l : PyEq.list_eqb l l = true.
Proof.
  induction l as [|a l IH]; [reflexivity |].
  cbn [PyEq.list_eqb]. by rewrite element_eqb_refl, IH.
Qed.

(** A value other than the float NaN equals itself under [==]. *)
Lemma neb_self v : v <> VFloat S754_nan -> PyEq.neb v v = false.
Proof.
  unfold PyEq.neb. intros Hv. apply negb_false_iff.
  destruct v as [n | f | b | s | l]; cbn.
  - apply Z.eqb_refl.
  - apply float_eqb_refl. by destruct f.
  - apply Z.eqb_refl.
  - apply String.eqb_refl.
  - apply list_eqb_refl.
Qed.

(** A value without NaN equals itself under [==]. *)
Lemma neb_refl v : PyEq.nan_free v = true -> PyEq.neb v v = false.
Proof. intros Hv. apply neb_self. by intros ->. Qed.

(** C9, amended: for every store [S] none of whose values is the float
    NaN, [S.diff(S)] has all of [S] in the group "Same" and nothing in
    the group "Different".  (A list is equal to itself also when it
    holds a NaN.) *)
Theorem diff_same (S : gmap string value) :
  (forall k v, S !! k = Some v -> v <> VFloat S754_nan) ->
  diff S S = (S, ∅).
Proof.
  intros HS. unfold diff.
  rewrite diff_self_fold
    by (intros k v Hk; split; [done | by eapply neb_self, HS]).
  by rewrite diff_other_fold by (intros k v Hk; by eexists).
Qed.

Lemma diff_same_witness :
  diff two_tags two_tags = (two_tags, ∅)
  /\ diff nan_list nan_list = (nan_list, ∅).
Proof.
  split.
  - apply (diff_same two_tags). intros k v Hk.
    unfold two_tags in Hk.
    apply lookup_insert_Some in Hk as [[_ <-] | [_ Hk]]; [discriminate |].
    apply lookup_singleton_Some in Hk as [_ <-]. discriminate.
  - apply (diff_same nan_list). intros k v Hk.
    unfold nan_list in Hk.
    apply lookup_singleton_Some in Hk as [_ <-]. discriminate.
Defined.

(** C9 as stated fails: a tag holding NaN is reported as different from
    itself. *)
Lemma diff_same_nan :
  diff nan_store nan_store
  = (∅, {[ "S02" := Pair (VFloat S754_nan) (VFloat S754_nan) ]})
  /\ diff nan_store nan_store <> (nan_store, ∅).
Proof.
  assert (diff nan_store nan_store
          = (∅, {[ "S02" := Pair (VFloat S754_nan) (VFloat S754_nan) ]})) as H.
  { unfold diff, nan_store. rewrite map_fold_singleton.
    unfold diff_self_step. rewrite lookup_singleton_eq. cbn.
    rewrite map_fold_singleton. unfold diff_other_step.
    rewrite lookup_empty, lookup_singleton_eq. reflexivity. }
  split; [exact H |]. rewrite H. intros Heq.
  apply (f_equal (fun p : gmap string value * gmap string tags_pair =>
                    p.1 !! "S02")) in Heq.
  cbn [fst] in Heq. rewrite lookup_empty in Heq. unfold nan_store in Heq.
  rewrite lookup_singleton_eq in Heq. discriminate.
Qed.
End TagStore.

(** * Further properties *)

(** ** Species, runs and the potential dictionary *)

Section GroupFacts.
Import FeffAtoms Groups.

Lemma count_zero_iff a l : count a l = 0 <-> a ∉ l.
Proof.
  split.
  - intros H Hin. induction Hin as [a l | a b l Hin IH]; cbn [count] in H.
    + rewrite String.eqb_refl in H. pose proof (count_nonneg a l). lia.
    + pose proof (count_nonneg a l). destruct (String.eqb b a); apply IH; lia.
  - intros Hn. destruct (Z.eq_dec (count a l) 0) as [|Hc]; [done |].
    by apply count_nonzero_elem in Hc.
Qed.

Lemma filter_all {A : Type} (P : A -> Prop) `{!forall a, Decision (P a)} l :
  Forall P l -> filter P l = l.
Proof.
  induction 1 as [|a l Ha _ IH]; [done |].
  by rewrite filter_cons_True, IH.
Qed.

Lemma unique_fold_spec syms : forall acc,
  fold_left (fun acc i => if count i acc =? 0 then acc ++ [i] else acc) syms acc
  = acc ++ filter (fun a => a ∉ acc) (first_occurrences syms).
Proof.
  induction syms as [|s syms IH]; intros acc; cbn [fold_left first_occurrences].
  - by rewrite filter_nil, app_nil_r.
  - rewrite IH. destruct (count s acc =? 0) eqn:Hc.
    + apply Z.eqb_eq, count_zero_iff in Hc.
      rewrite filter_cons_True by done. rewrite <- app_assoc. cbn [app].
      do 2 f_equal. rewrite list_filter_filter.
      apply list_filter_iff. intros a. rewrite elem_of_app, list_elem_of_singleton.
      tauto.
    + apply Z.eqb_neq in Hc.
      assert (s ∈ acc) as Hs.
      { destruct (decide (s ∈ acc)) as [|Hn]; [done |].
        by apply count_zero_iff in Hn. }
      rewrite filter_cons_False by tauto. f_equal.
      rewrite list_filter_filter. apply list_filter_iff. intros a.
      split; [intros Ha; split; [done | by intros ->] | tauto].
Qed.

Lemma first_occurrences_elem a syms : a ∈ first_occurrences syms <-> a ∈ syms.
Proof.
  induction syms as [|s syms IH]; cbn [first_occurrences]; [done |].
  rewrite !elem_of_cons, list_elem_of_filter, IH.
  destruct (decide (a = s)); tauto.
Qed.

Lemma first_occurrences_NoDup syms : NoDup (first_occurrences syms).
Proof.
  induction syms as [|s syms IH]; cbn [first_occurrences]; constructor.
  - rewrite list_elem_of_filter. tauto.
  - by apply NoDup_filter.
Qed.

Lemma unique_pot_atoms_eq syms : unique_pot_atoms syms = first_occurrences syms.
Proof.
  unfold unique_pot_atoms. rewrite unique_fold_spec. cbn [app].
  apply filter_all, Forall_forall. intros a _. apply not_elem_of_nil.
Qed.

(** X1.  [unique_pot_atoms] lists every symbol of the structure exactly
    once, in the order in which the symbols first occur. *)
Theorem unique_pot_atoms_first_occurrences syms :
  unique_pot_atoms syms = first_occurrences syms
  /\ NoDup (unique_pot_atoms syms)
  /\ (forall a, a ∈ unique_pot_atoms syms <-> a ∈ syms).
Proof.
  rewrite unique_pot_atoms_eq.
  split; [done |]. split; [apply first_occurrences_NoDup |].
  intros a. apply first_occurrences_elem.
Qed.

Lemma pot_dict_fold_lookup atoms : forall (i : Z) (d : gmap string Z) a,
  NoDup atoms ->
  fold_left (fun d '(i, atom) => <[atom := i + 1]> d) (enumerate_from i atoms) d
    !! a
  = match list_find (fun b => b = a) atoms with
    | Some (j, _) => Some (i + Z.of_nat j + 1)
    | None => d !! a
    end.
Proof.
  induction atoms as [|b atoms IH]; intros i d a Hnd;
    cbn [enumerate_from fold_left]; [done |].
  apply NoDup_cons in Hnd as [Hb Hnd]. rewrite IH by done.
  cbn [list_find]. destruct (decide (b = a)) as [-> | Hne].
  - destruct (list_find _ atoms) as [[j c]|] eqn:Hf.
    + apply list_find_Some in Hf as (Hj & -> & _).
      exfalso. apply Hb. by eapply list_elem_of_lookup_2.
    + rewrite lookup_insert_eq. cbn. f_equal. lia.
  - destruct (list_find _ atoms) as [[j c]|] eqn:Hf; cbn.
    + f_equal. lia.
    + by rewrite lookup_insert_ne.
Qed.

Lemma make_pot_dict_lookup atoms a v :
  NoDup atoms ->
  make_pot_dict atoms !! a = Some v
  <-> exists i : nat, atoms !! i = Some a /\ v = Z.of_nat i + 1.
Proof.
  intros Hnd. unfold make_pot_dict, enumerate.
  rewrite pot_dict_fold_lookup by done. rewrite lookup_empty.
  destruct (list_find _ atoms) as [[j c]|] eqn:Hf.
  - apply list_find_Some in Hf as (Hj & -> & _). split.
    + intros [= <-]. exists j. split; [done | lia].
    + intros (i & Hi & ->). f_equal.
      assert (i = j) as -> by (eapply NoDup_lookup; eauto). lia.
  - split; [discriminate |]. intros (i & Hi & _).
    apply list_find_None in Hf. rewrite Forall_forall in Hf.
    exfalso. eapply Hf; [by eapply list_elem_of_lookup_2 | done].
Qed.

(** X2.  The potential dictionary built by the constructors gives the
    species that occurs first the index 1, the next new species 2, and so
    on: a species has index [i + 1] exactly when it is the [i]-th distinct
    symbol.  So the dictionary is one-to-one, and its indices are the
    numbers from 1 to the number of distinct species. *)
Theorem pot_dict_numbering struct central self :
  init struct central = Return self ->
  let atoms := first_occurrences (symbol <$> sites struct) in
  (forall a v, pot_dict self !! a = Some v <->
               exists i : nat, atoms !! i = Some a /\ v = Z.of_nat i + 1)
  /\ (forall a b v, pot_dict self !! a = Some v -> pot_dict self !! b = Some v ->
                    a = b)
  /\ (forall a v, pot_dict self !! a = Some v ->
                  1 <= v <= Z.of_nat (length atoms))
  /\ (forall v, 1 <= v <= Z.of_nat (length atoms) ->
                exists a, pot_dict self !! a = Some v).
Proof.
  unfold init. destruct (is_ordered struct); [| discriminate].
  intros [= <-]. cbn [pot_dict].
  rewrite unique_pot_atoms_eq.
  pose proof (first_occurrences_NoDup (symbol <$> sites struct)) as Hnd.
  set (atoms := first_occurrences (symbol <$> sites struct)) in *.
  assert (forall a v, make_pot_dict atoms !! a = Some v <->
                      exists i : nat, atoms !! i = Some a /\ v = Z.of_nat i + 1)
    as Hspec by (intros a v; by apply make_pot_dict_lookup).
  repeat split.
  - apply Hspec.
  - apply Hspec.
  - intros a b v [i [Hi ->]]%Hspec [j [Hj Hij]]%Hspec.
    assert (i = j) as -> by lia. congruence.
  - apply Hspec in H as [i [Hi ->]]. lia.
  - apply Hspec in H as [i [Hi ->]]. apply lookup_lt_Some in Hi. lia.
  - intros v Hv.
    destruct (lookup_lt_is_Some_2 atoms (Z.to_nat (v - 1))) as [a Ha]; [lia |].
    exists a. apply Hspec. exists (Z.to_nat (v - 1)). split; [done | lia].
Qed.

Lemma pot_dict_numbering_witness :
  pot_dict Examples.CoO2_atoms !! "Co" = Some 1
  /\ pot_dict Examples.CoO2_atoms !! "O" = Some 2.
Proof.
  destruct (pot_dict_numbering Examples.CoO2 "Co" Examples.CoO2_atoms eq_refl)
    as (H & _).
  split; apply H.
  - exists 0%nat. split; reflexivity.
  - exists 1%nat. split; reflexivity.
Defined.

Lemma groupby_cons s syms :
  groupby (s :: syms)
  = match groupby syms with
    | (s', n) :: groups =>
        if String.eqb s s' then (s, n + 1) :: groups
        else (s, 1) :: (s', n) :: groups
    | [] => [(s, 1)]
    end.
Proof. reflexivity. Qed.

Lemma groupby_head s syms :
  exists n groups, groupby (s :: syms) = (s, n) :: groups.
Proof.
  rewrite groupby_cons. destruct (groupby syms) as [|[s' n] groups]; [by eexists _, _ |].
  destruct (String.eqb s s'); by eexists _, _.
Qed.

(** X3.  The runs recorded by the constructors ([_site_symbols] with
    [_natoms]) describe the list of site symbols exactly: repeating each
    run symbol by its count gives the list back, every count is at least
    1, the counts add up to the number of sites, and two neighbouring runs
    have different symbols. *)
Theorem groupby_runs syms :
  mjoin ((fun g => replicate (Z.to_nat g.2) g.1) <$> groupby syms) = syms
  /\ Forall (fun g => 1 <= g.2) (groupby syms)
  /\ foldr Z.add 0 (groupby syms).*2 = Z.of_nat (length syms)
  /\ (forall i g h, groupby syms !! i = Some g -> groupby syms !! S i = Some h ->
                    g.1 <> h.1).
Proof.
  induction syms as [|s syms (IH1 & IH2 & IH3 & IH4)].
  - repeat split; [constructor | intros i g h Hg; by destruct i].
  - rewrite groupby_cons.
    destruct (groupby syms) as [|[s' n] groups] eqn:Hg.
    + cbn in IH1, IH3. subst syms. repeat split.
      * by repeat constructor.
      * intros [|i] g h; cbn; [discriminate | done].
    + apply Forall_cons in IH2 as [Hn IH2]. cbn [snd] in Hn.
      destruct (String.eqb s s') eqn:Hs.
      * apply String.eqb_eq in Hs as <-. repeat split.
        -- rewrite <- IH1. cbn [fmap list_fmap mjoin list_join fst snd].
           replace (Z.to_nat (n + 1)) with (S (Z.to_nat n)) by lia.
           reflexivity.
        -- constructor; [cbn; lia | done].
        -- cbn [fmap list_fmap foldr snd length] in IH3 |- *. lia.
        -- intros [|i] g h Hgi Hhi.
           ++ cbn in Hgi, Hhi. injection Hgi as <-.
              apply (IH4 0%nat (s, n) h); [done | exact Hhi].
           ++ apply (IH4 (S i) g h); [exact Hgi | exact Hhi].
      * apply String.eqb_neq in Hs. repeat split.
        -- rewrite <- IH1. reflexivity.
        -- constructor; [cbn; lia |]. by constructor.
        -- cbn [fmap list_fmap foldr snd length] in IH3 |- *. lia.
        -- intros [|i] g h Hgi Hhi.
           ++ cbn in Hgi, Hhi. injection Hgi as <-. injection Hhi as <-. done.
           ++ apply (IH4 i g h); [exact Hgi | exact Hhi].
Qed.
End GroupFacts.

(** ** More on the sort *)

Section SortStable.
Context {A : Type} (key : A -> string).

Lemma string_compare_refl s : String.compare s s = Eq.
Proof.
  induction s as [|c s IH]; [reflexivity |].
  cbn [String.compare]. unfold Ascii.compare. by rewrite N.compare_refl.
Qed.

Lemma ltb_irrefl s : String.ltb s s = false.
Proof. unfold String.ltb. by rewrite string_compare_refl. Qed.

Lemma insert_sorted_filter k a l :
  filter (fun b => key b = k) (insert_sorted key a l)
  = filter (fun b => key b = k) (a :: l).
Proof.
  induction l as [|b l IH]; [reflexivity |].
  cbn [insert_sorted]. destruct (String.ltb (key b) (key a)) eqn:Hlt; [| reflexivity].
  destruct (decide (key b = k)) as [Hb | Hb].
  - rewrite (filter_cons_True _ b) by done. rewrite IH.
    assert (key a <> k) as Ha.
    { intros Ha. rewrite Hb, Ha, ltb_irrefl in Hlt. discriminate. }
    rewrite !(filter_cons_False _ a) by done. by rewrite filter_cons_True.
  - rewrite (filter_cons_False _ b) by done. rewrite IH.
    destruct (decide (key a = k)).
    + rewrite !(filter_cons_True _ a) by done. by rewrite filter_cons_False.
    + rewrite !(filter_cons_False _ a) by done. by rewrite filter_cons_False.
Qed.

(** The elements with one and the same key keep their order. *)
Lemma sorted_stable k l :
  filter (fun b => key b = k) (sorted key l) = filter (fun b => key b = k) l.
Proof.
  induction l as [|a l IH]; [reflexivity |].
  cbn [sorted foldr]. fold (sorted key l). rewrite insert_sorted_filter.
  destruct (decide (key a = k)).
  - rewrite !(filter_cons_True _ a) by done. by rewrite IH.
  - rewrite !(filter_cons_False _ a) by done. by rewrite IH.
Qed.
End SortStable.

(** ** Fixed-point texts as numbers *)

Section FixedPointOrder.
Import PyNum Table.

Lemma ord_digit_char a : 0 <= a <= 9 -> Py.ord (digit_char a) = 48 + a.
Proof.
  intros H.
  assert (a = 0 \/ a = 1 \/ a = 2 \/ a = 3 \/ a = 4 \/ a = 5 \/ a = 6
          \/ a = 7 \/ a = 8 \/ a = 9) as Ha by lia.
  repeat destruct Ha as [-> | Ha]; try subst a; reflexivity.
Qed.

Lemma digit_val_digit_char a : 0 <= a <= 9 -> digit_val (digit_char a) = a.
Proof. intros H. unfold digit_val. rewrite ord_digit_char by done. lia. Qed.

Lemma ascii_compare_ord c d : Ascii.compare c d = (Py.ord c ?= Py.ord d).
Proof. unfold Ascii.compare, Py.ord. by rewrite N2Z.inj_compare. Qed.

Lemma compare_digit_char a b :
  0 <= a <= 9 -> 0 <= b <= 9 ->
  Ascii.compare (digit_char a) (digit_char b) = (a ?= b).
Proof.
  intros Ha Hb. rewrite ascii_compare_ord, !ord_digit_char by done.
  destruct (Z.compare_spec a b), (Z.compare_spec (48 + a) (48 + b)); lia || done.
Qed.

(** Digit strings of one length compare as the numbers they write. *)
Lemma compare_dec_fixed k : forall n m acc1 acc2,
  0 <= n < 10 ^ Z.of_nat k -> 0 <= m < 10 ^ Z.of_nat k ->
  String.compare (dec_fixed k n acc1) (dec_fixed k m acc2)
  = match n ?= m with
    | Eq => String.compare acc1 acc2
    | c => c
    end.
Proof.
  induction k as [|k IH]; intros n m acc1 acc2 Hn Hm.
  - change (10 ^ Z.of_nat 0) with 1 in *.
    assert (n = 0) as -> by lia. assert (m = 0) as -> by lia. reflexivity.
  - rewrite Nat2Z.inj_succ, Z.pow_succ_r in Hn, Hm by lia.
    cbn [dec_fixed].
    pose proof (Z.div_mod n 10 ltac:(lia)) as Hdn.
    pose proof (Z.div_mod m 10 ltac:(lia)) as Hdm.
    pose proof (Z.mod_pos_bound n 10 ltac:(lia)) as Hbn.
    pose proof (Z.mod_pos_bound m 10 ltac:(lia)) as Hbm.
    rewrite IH by (split; [apply Z.div_pos; lia | apply Z.div_lt_upper_bound; lia]).
    cbn [String.compare]. rewrite compare_digit_char by lia.
    destruct (Z.compare_spec (n / 10) (m / 10)),
             (Z.compare_spec (n mod 10) (m mod 10)),
             (Z.compare_spec n m); lia || done.
Qed.

Lemma digits_value_dec_fixed k : forall n acc rest,
  0 <= n < 10 ^ Z.of_nat k ->
  digits_value acc (dec_fixed k n rest)
  = digits_value (acc * 10 ^ Z.of_nat k + n) rest.
Proof.
  induction k as [|k IH]; intros n acc rest Hn.
  - change (10 ^ Z.of_nat 0) with 1 in *. cbn [dec_fixed]. f_equal. lia.
  - rewrite Nat2Z.inj_succ, Z.pow_succ_r in Hn |- * by lia.
    cbn [dec_fixed].
    pose proof (Z.div_mod n 10 ltac:(lia)) as Hdn.
    pose proof (Z.mod_pos_bound n 10 ltac:(lia)) as Hbn.
    rewrite IH by (split; [apply Z.div_pos; lia | apply Z.div_lt_upper_bound; lia]).
    cbn [digits_value]. rewrite digit_char_isdigit, digit_val_digit_char by lia.
    f_equal. lia.
Qed.

Lemma dec_one_digit q : 0 <= q <= 9 -> dec q = String (digit_char q) "".
Proof.
  intros Hq. unfold dec. cbn [dec_from].
  rewrite Z.div_small, Z.mod_small by lia. reflexivity.
Qed.

Lemma fixed6_below_10 n :
  0 <= n < 10000000 ->
  fixed6 false n
  = String (digit_char (n / 1000000))
      (String "." (dec_fixed 6 (n mod 1000000) "")).
Proof.
  intros Hn. unfold fixed6, sign_text.
  rewrite dec_one_digit; [reflexivity |].
  split; [apply Z.div_pos; lia |].
  assert (n / 1000000 < 10) by (apply Z.div_lt_upper_bound; lia). lia.
Qed.

Lemma compare_fixed6 n m :
  0 <= n < 10000000 -> 0 <= m < 10000000 ->
  String.compare (fixed6 false n) (fixed6 false m) = (n ?= m).
Proof.
  intros Hn Hm. rewrite !fixed6_below_10 by done.
  pose proof (Z.div_mod n 1000000 ltac:(lia)) as Hdn.
  pose proof (Z.div_mod m 1000000 ltac:(lia)) as Hdm.
  pose proof (Z.mod_pos_bound n 1000000 ltac:(lia)) as Hbn.
  pose proof (Z.mod_pos_bound m 1000000 ltac:(lia)) as Hbm.
  assert (0 <= n / 1000000 <= 9) as Hqn.
  { split; [apply Z.div_pos; lia |].
    assert (n / 1000000 < 10) by (apply Z.div_lt_upper_bound; lia). lia. }
  assert (0 <= m / 1000000 <= 9) as Hqm.
  { split; [apply Z.div_pos; lia |].
    assert (m / 1000000 < 10) by (apply Z.div_lt_upper_bound; lia). lia. }
  cbn [String.compare]. rewrite compare_digit_char by done.
  change (Ascii.compare "." ".") with Eq. cbv iota.
  rewrite (compare_dec_fixed 6) by (change (10 ^ Z.of_nat 6) with 1000000; lia).
  change (String.compare "" "") with Eq.
  destruct (Z.compare_spec (n / 1000000) (m / 1000000)),
           (Z.compare_spec (n mod 1000000) (m mod 1000000)),
           (Z.compare_spec n m); lia || done.
Qed.

Lemma text_value_fixed6 n :
  0 <= n < 10000000 -> text_value (fixed6 false n) = n.
Proof.
  intros Hn. rewrite fixed6_below_10 by done. unfold text_value.
  pose proof (Z.div_mod n 1000000 ltac:(lia)) as Hdn.
  pose proof (Z.mod_pos_bound n 1000000 ltac:(lia)) as Hbn.
  assert (0 <= n / 1000000 <= 9) as Hqn.
  { split; [apply Z.div_pos; lia |].
    assert (n / 1000000 < 10) by (apply Z.div_lt_upper_bound; lia). lia. }
  cbn [digits_value]. rewrite digit_char_isdigit, digit_val_digit_char by done.
  change (Py.isdigit ".") with false. cbv iota.
  rewrite (digits_value_dec_fixed 6)
    by (change (10 ^ Z.of_nat 6) with 1000000; lia).
  change (10 ^ Z.of_nat 6) with 1000000. cbn [digits_value]. lia.
Qed.

Lemma prints_below_10_format d :
  prints_below_10 d = true ->
  format_f d = fixed6 false (micro_of d) /\ 0 <= micro_of d < 10000000.
Proof.
  destruct d as [[] | [] | | [] m e]; try discriminate; cbn.
  - intros _. split; [reflexivity | lia].
  - intros H%Z.ltb_lt. split; [reflexivity |].
    pose proof (micro_nonneg m e). lia.
Qed.

Lemma format_f_leb_below_10 d1 d2 :
  prints_below_10 d1 = true -> prints_below_10 d2 = true ->
  String.leb (format_f d1) (format_f d2) = (micro_of d1 <=? micro_of d2).
Proof.
  intros [-> H1]%prints_below_10_format [-> H2]%prints_below_10_format.
  unfold String.leb. rewrite compare_fixed6 by done.
  unfold Z.leb. by destruct (micro_of d1 ?= micro_of d2).
Qed.

Lemma text_value_format_f d :
  prints_below_10 d = true -> text_value (format_f d) = micro_of d.
Proof.
  intros [-> H]%prints_below_10_format. by apply text_value_fixed6.
Qed.

(** X6.  For distances that are printed with one digit before the point
    (that is, below 10 after rounding to six decimals) the text order
    used by the sort is the numeric order of the printed values, and the
    digits of the text write the distance in millionths. *)
Theorem format_f_order_below_10 d1 d2 :
  prints_below_10 d1 = true -> prints_below_10 d2 = true ->
  String.leb (format_f d1) (format_f d2) = (micro_of d1 <=? micro_of d2)
  /\ String.ltb (format_f d1) (format_f d2) = (micro_of d1 <? micro_of d2)
  /\ text_value (format_f d1) = micro_of d1.
Proof.
  intros Hd1 Hd2. rewrite format_f_leb_below_10, text_value_format_f by done.
  split; [done |]. split; [| done].
  apply prints_below_10_format in Hd1 as [-> H1], Hd2 as [-> H2].
  unfold String.ltb. rewrite compare_fixed6 by done.
  unfold Z.ltb. by destruct (micro_of d1 ?= micro_of d2).
Qed.

Lemma format_f_order_below_10_witness :
  String.leb (format_f (Examples.dyadic 5 (-1))) (format_f (Examples.dyadic 9 0))
  = true
  /\ text_value (format_f (Examples.dyadic 5 (-1))) = 2500000.
Proof.
  destruct (format_f_order_below_10 (Examples.dyadic 5 (-1)) (Examples.dyadic 9 0))
    as (H1 & _ & H3); [reflexivity | reflexivity |].
  split; [rewrite H1 | rewrite H3]; reflexivity.
Defined.
End FixedPointOrder.

(** ** More on the shell table *)

Section ShellTableMore.
Import FeffAtoms Table Examples.

Variable get_sites_in_sphere :
  structure -> point -> spec_float -> list (site * spec_float).

Lemma index_raises a l e : index a l = Raise e -> (a ∉ l) /\ e = ValueError.
Proof.
  induction l as [|b l IH]; cbn [index].
  - intros [= <-]. split; [apply not_elem_of_nil | done].
  - destruct (String.eqb b a) eqn:Hb; [discriminate |].
    apply String.eqb_neq in Hb.
    destruct (index a l) as [i|e'] eqn:Hi; cbn; [discriminate |].
    intros [= <-]. destruct (IH eq_refl) as [Hn ->]. split; [| done].
    intros [-> | Hin]%elem_of_cons; [done | by apply Hn].
Qed.

Lemma index_returns a l i : index a l = Return i -> l !! i = Some a.
Proof.
  revert i. induction l as [|b l IH]; intros i; cbn [index]; [discriminate |].
  destruct (String.eqb b a) eqn:Hb.
  - apply String.eqb_eq in Hb as ->. by intros [= <-].
  - destruct (index a l) as [j|] eqn:Hj; cbn; [| discriminate].
    intros [= <-]. by apply IH.
Qed.

Lemma center_point_outcome self :
  (central_atom self ∈ symbol <$> sites (struct self) ->
     exists pt, center_point self = Return pt)
  /\ (central_atom self ∉ symbol <$> sites (struct self) ->
        center_point self = Raise ValueError).
Proof.
  split; [apply center_point_exists |].
  intros Hn. unfold center_point.
  destruct (index _ _) as [i|e] eqn:Hi; cbn.
  - apply index_returns in Hi. exfalso. apply Hn.
    by eapply list_elem_of_lookup_2.
  - by apply index_raises in Hi as [_ ->].
Qed.

Lemma make_rows_unknown self pt sphere : forall i,
  Exists (fun e => pot_dict self !! strip_decoration (species_string e.1) = None)
         sphere ->
  make_rows self pt i sphere = Raise KeyError.
Proof.
  induction sphere as [|e sphere IH]; intros i Hex; [by apply Exists_nil in Hex |].
  cbn [make_rows]. unfold make_row at 1.
  destruct (pot_dict self !! _) as [v|] eqn:Hv; [| reflexivity].
  apply Exists_cons in Hex as [Hex | Hex]; [congruence |].
  destruct pt as [[xs ys] zs], (coords e.1) as [[ax ay] az].
  cbn [mbind result_bind]. by rewrite (IH (i + 1) Hex).
Qed.

(** X4.  The failures of [get_string]: it raises [ValueError] when no
    site of the structure has the central species, [KeyError] when a
    neighbour carries a species (letters of its species string) that the
    potential dictionary does not hold, [IndexError] when the neighbour
    list is empty; in every other case it returns one row per
    neighbour. *)
Theorem get_string_rows_outcome self radius :
  (central_atom self ∉ symbol <$> sites (struct self) ->
     get_string_rows get_sites_in_sphere self radius = Raise ValueError)
  /\ (forall pt,
        center_point self = Return pt ->
        let sphere := get_sites_in_sphere (struct self) pt radius in
        (Exists (fun e => pot_dict self
                            !! strip_decoration (species_string e.1) = None)
                sphere ->
           get_string_rows get_sites_in_sphere self radius = Raise KeyError)
        /\ (sphere = [] ->
              get_string_rows get_sites_in_sphere self radius = Raise IndexError)
        /\ (sphere <> [] ->
            Forall (fun e => is_Some (pot_dict self
                                        !! strip_decoration (species_string e.1)))
                   sphere ->
              exists rows,
                get_string_rows get_sites_in_sphere self radius = Return rows
                /\ length rows = length sphere)).
Proof.
  split.
  - intros Hn. unfold get_string_rows.
    by rewrite (proj2 (center_point_outcome self) Hn).
  - intros pt Hpt sphere. unfold get_string_rows. rewrite Hpt.
    cbn [mbind result_bind]. fold sphere. repeat split.
    + intros Hex. by rewrite make_rows_unknown.
    + intros ->. reflexivity.
    + intros Hne Hknown.
      destruct (make_rows_spec self pt sphere 0 Hknown) as (rows & -> & HF).
      cbn [mbind result_bind].
      assert (length (sorted distance rows) = length sphere) as Hlen.
      { rewrite sorted_length. symmetry. eapply Forall2_length, HF. }
      destruct (sorted distance rows) as [|[rx ry rz ri ra rd rn] t].
      { destruct sphere; [done | discriminate Hlen]. }
      cbn [set_first_ipot mbind result_bind]. eexists. split; [reflexivity |].
      cbn [renumber length] in *. by rewrite renumber_length.
Qed.

Lemma renumber_row_data rows : forall i,
  row_data <$> renumber i rows = row_data <$> rows.
Proof.
  induction rows as [|r rows IH]; intros i; [reflexivity |].
  rewrite renumber_cons, !fmap_cons, IH. reflexivity.
Qed.

Lemma set_first_ipot_row_data rows rows' :
  set_first_ipot rows = Return rows' -> row_data <$> rows' = row_data <$> rows.
Proof.
  destruct rows as [|[rx ry rz ri ra rd rn] t]; [discriminate |].
  by intros [= <-].
Qed.

Lemma filter_fmap_distance k (rows : list row) :
  filter (fun d => d.2 = k) (row_data <$> rows)
  = row_data <$> filter (fun r => distance r = k) rows.
Proof.
  induction rows as [|r rows IH]; [reflexivity |].
  rewrite fmap_cons. destruct (decide (distance r = k)) as [Hr | Hr].
  - rewrite !filter_cons_True by done. by rewrite fmap_cons, IH.
  - by rewrite !filter_cons_False by done.
Qed.

Lemma get_string_rows_row_data self radius pt rows0 rows :
  center_point self = Return pt ->
  make_rows self pt 0 (get_sites_in_sphere (struct self) pt radius)
    = Return rows0 ->
  get_string_rows get_sites_in_sphere self radius = Return rows ->
  row_data <$> rows = row_data <$> sorted distance rows0.
Proof.
  intros Hpt Hrows0 Hrows.
  unfold get_string_rows in Hrows. rewrite Hpt in Hrows.
  cbn [mbind result_bind] in Hrows. rewrite Hrows0 in Hrows.
  cbn [mbind result_bind] in Hrows.
  destruct (set_first_ipot _) as [rows1|] eqn:H1; [| discriminate].
  cbn [mbind result_bind] in Hrows. injection Hrows as <-.
  apply set_first_ipot_row_data in H1. by rewrite renumber_row_data.
Qed.

(** X5.  The table holds the rows built from the neighbour list, none
    lost and none added, in ascending order of the texts of the distance
    column, and rows with the same distance text stay in the order of the
    neighbour list (coordinates, symbol and distance; the potential index
    of row 0 and the last column are rewritten afterwards). *)
Theorem get_string_rows_order self radius pt rows0 rows :
  center_point self = Return pt ->
  make_rows self pt 0 (get_sites_in_sphere (struct self) pt radius)
    = Return rows0 ->
  get_string_rows get_sites_in_sphere self radius = Return rows ->
  row_data <$> rows ≡ₚ row_data <$> rows0
  /\ Sorted (fun s t => String.leb s t = true) (distance <$> rows)
  /\ (forall k, filter (fun d => d.2 = k) (row_data <$> rows)
                = filter (fun d => d.2 = k) (row_data <$> rows0)).
Proof.
  intros Hpt Hrows0 Hrows.
  pose proof (get_string_rows_row_data self radius pt rows0 rows Hpt Hrows0 Hrows)
    as Hdata.
  split; [| split; [by eapply get_string_rows_text_order |]].
  - rewrite Hdata. by rewrite sorted_perm.
  - intros k. rewrite Hdata, !filter_fmap_distance.
    by rewrite sorted_stable.
Qed.

Lemma make_rows_inv self pt sphere : forall i rows,
  make_rows self pt i sphere = Return rows ->
  Forall2 (fun e r => exists j, make_row self pt j e = Return r) sphere rows.
Proof.
  induction sphere as [|e sphere IH]; intros i rows; cbn [make_rows].
  - intros [= <-]. constructor.
  - destruct (make_row self pt i e) as [r|] eqn:Hr; cbn [mbind result_bind];
      [| discriminate].
    destruct (make_rows self pt (i + 1) sphere) as [rs|] eqn:Hrs;
      cbn [mbind result_bind]; [| discriminate].
    intros [= <-]. constructor; [by exists i | by eapply IH].
Qed.

Lemma Sorted_on {B : Type} (R R' : B -> B -> Prop) (P : B -> Prop) l :
  (forall a b, P a -> P b -> R a b -> R' a b) ->
  Forall P l -> Sorted R l -> Sorted R' l.
Proof.
  intros HR HP Hs. induction Hs as [|a l Hs IH Hhd]; [constructor |].
  apply Forall_cons in HP as [Ha HP]. constructor; [by apply IH |].
  destruct Hhd as [|b l Hab]; constructor.
  apply Forall_cons in HP as [Hb _]. by apply HR.
Qed.

(** X7.  When every neighbour distance is printed with one digit before
    the point (below 10 after rounding, as for any radius under 10), the
    rows of the table are in ascending numeric order of the printed
    distances, and each printed distance is the rounded distance of a
    neighbour. *)
Theorem get_string_rows_numeric_order self radius pt rows :
  center_point self = Return pt ->
  Forall (fun e => prints_below_10 e.2 = true)
         (get_sites_in_sphere (struct self) pt radius) ->
  get_string_rows get_sites_in_sphere self radius = Return rows ->
  Sorted (fun s t => text_value s <= text_value t) (distance <$> rows)
  /\ Forall (fun s => exists e,
                e ∈ get_sites_in_sphere (struct self) pt radius
                /\ s = PyNum.format_f e.2
                /\ text_value s = micro_of e.2)
            (distance <$> rows).
Proof.
  intros Hpt Hsmall Hrows.
  set (sphere := get_sites_in_sphere (struct self) pt radius) in *.
  assert (exists rows0, make_rows self pt 0 sphere = Return rows0) as [rows0 H0].
  { unfold get_string_rows in Hrows. rewrite Hpt in Hrows.
    cbn [mbind result_bind] in Hrows. fold sphere in Hrows.
    destruct (make_rows self pt 0 sphere); [by eexists | discriminate]. }
  assert (row_data <$> rows ≡ₚ row_data <$> rows0) as Hperm.
  { rewrite (get_string_rows_row_data self radius pt rows0 rows Hpt H0 Hrows).
    by rewrite sorted_perm. }
  pose proof (get_string_rows_text_order get_sites_in_sphere self radius rows
                Hrows) as Hsorted.
  assert (Forall (fun s => exists e, e ∈ sphere /\ prints_below_10 e.2 = true
                                    /\ s = PyNum.format_f e.2)
                 (distance <$> rows)) as Hall.
  { assert (distance <$> rows ≡ₚ distance <$> rows0) as ->.
    { change distance with (snd ∘ row_data).
      rewrite !(list_fmap_compose row_data snd). by rewrite Hperm. }
    apply make_rows_inv in H0. rewrite Forall_fmap.
    clear -H0 Hsmall. induction H0 as [|e r l1 l2 [j Hj] _ IH]; [constructor |].
    apply Forall_cons in Hsmall as [He Hsmall]. constructor.
    - exists e. apply make_row_inv in Hj as (Hd & _).
      split; [apply list_elem_of_here | by split].
    - eapply Forall_impl; [by apply IH |].
      intros r' (e' & Hin & Hp & Hd). exists e'.
      split; [by apply list_elem_of_further | by split]. }
  split.
  - eapply Sorted_on; [| exact Hall | exact Hsorted].
    intros s t (e1 & _ & Hp1 & ->) (e2 & _ & Hp2 & ->) Hle.
    rewrite !text_value_format_f by done.
    rewrite format_f_leb_below_10 in Hle by done. by apply Z.leb_le.
  - eapply Forall_impl; [exact Hall |].
    intros s (e & Hin & Hp & ->). exists e. split; [done |]. split; [done |].
    by apply text_value_format_f.
Qed.
End ShellTableMore.

Section ShellTableMoreExamples.
Import FeffAtoms Table Examples.

Lemma get_string_rows_outcome_witness :
  get_string_rows Neighbours.get_sites_in_sphere
    (Make "Fe" CoO2 (pot_dict CoO2_atoms)) (dyadic 5 (-1)) = Raise ValueError
  /\ get_string_rows Neighbours.get_sites_in_sphere
       (Make "Co" CoO2 {[ "Co" := 1 ]}) (dyadic 5 (-1)) = Raise KeyError
  /\ get_string_rows (fun _ _ _ => []) CoO2_atoms (dyadic 5 (-1))
     = Raise IndexError
  /\ exists rows,
       get_string_rows Neighbours.get_sites_in_sphere CoO2_atoms (dyadic 5 (-1))
       = Return rows /\ length rows = 3%nat.
Proof.
  split; [| split; [| split]].
  - apply (get_string_rows_outcome Neighbours.get_sites_in_sphere
             (Make "Fe" CoO2 (pot_dict CoO2_atoms)) (dyadic 5 (-1))).
    vm_compute. intros H.
    repeat (apply elem_of_cons in H as [H | H]; [discriminate H |]).
    by apply elem_of_nil in H.
  - destruct (get_string_rows_outcome Neighbours.get_sites_in_sphere
                (Make "Co" CoO2 {[ "Co" := 1 ]}) (dyadic 5 (-1))) as [_ H].
    destruct (H origin eq_refl) as (Hkey & _ & _).
    apply Hkey. apply Exists_cons_tl, Exists_cons_hd. reflexivity.
  - destruct (get_string_rows_outcome (fun _ _ _ => [])
                CoO2_atoms (dyadic 5 (-1))) as [_ H].
    destruct (H origin eq_refl) as (_ & Hempty & _).
    by apply Hempty.
  - destruct (get_string_rows_outcome Neighbours.get_sites_in_sphere
                CoO2_atoms (dyadic 5 (-1))) as [_ H].
    destruct (H origin eq_refl) as (_ & _ & Hok).
    apply Hok; [discriminate |].
    repeat constructor; by eexists.
Defined.
Lemma get_string_rows_order_witness :
  Sorted (fun s t => String.leb s t = true) (distance <$> CoO2_table).
Proof.
  assert (exists rows0,
            make_rows CoO2_atoms origin 0
              (Neighbours.get_sites_in_sphere (struct CoO2_atoms) origin
                 (dyadic 5 (-1))) = Return rows0) as [rows0 H0]
    by (vm_compute; eexists; reflexivity).
  apply (get_string_rows_order Neighbours.get_sites_in_sphere CoO2_atoms
           (dyadic 5 (-1)) origin rows0 CoO2_table eq_refl H0).
  vm_compute. reflexivity.
Defined.

Lemma get_string_rows_numeric_order_witness :
  Sorted (fun s t => text_value s <= text_value t) (distance <$> CoO2_table).
Proof.
  apply (get_string_rows_numeric_order Neighbours.get_sites_in_sphere
           CoO2_atoms (dyadic 5 (-1)) origin CoO2_table eq_refl).
  - repeat constructor.
  - vm_compute. reflexivity.
Defined.
End ShellTableMoreExamples.

(** ** More on [diff] and [__add__] *)

Section TagStoreMore.
Import FeffTags DiffView Examples.

Lemma diff_first_loop (other m : gmap string value) :
  let r := map_fold (diff_self_step other) (∅, ∅) m in
  forall k,
    r.1 !! k = same_entry (m !! k) (other !! k)
    /\ r.2 !! k = match m !! k with
                  | Some v1 => different_entry (Some v1) (other !! k)
                  | None => None
                  end.
Proof.
  cbn zeta.
  apply (map_fold_weak_ind (fun r (m : gmap string value) =>
    forall k,
      r.1 !! k = same_entry (m !! k) (other !! k)
      /\ r.2 !! k = match m !! k with
                    | Some v1 => different_entry (Some v1) (other !! k)
                    | None => None
                    end)).
  - intros k. by rewrite !lookup_empty.
  - clear m. intros i v m [sim dif] Hi IH k. cbn [fst snd] in IH.
    destruct (IH k) as [IH1 IH2].
    unfold diff_self_step. destruct (decide (i = k)) as [<- | Hik].
    + rewrite lookup_insert_eq, Hi in *. cbn [same_entry different_entry] in *.
      destruct (other !! i) as [v2|]; cbn [fst snd].
      * destruct (PyEq.neb v v2); cbn [fst snd];
          by rewrite ?lookup_insert_eq.
      * by rewrite lookup_insert_eq.
    + rewrite (lookup_insert_ne m) by done.
      destruct (other !! i) as [v2|]; [destruct (PyEq.neb v v2) |];
        cbn [fst snd]; by rewrite ?lookup_insert_ne.
Qed.

Lemma diff_second_loop (self similar m : gmap string value)
    (different : gmap string tags_pair) :
  (forall k, self !! k = None -> similar !! k = None /\ different !! k = None) ->
  (forall k, is_Some (similar !! k) -> is_Some (self !! k)) ->
  forall k,
    map_fold (diff_other_step self similar) different m !! k
    = match different !! k with
      | Some p => Some p
      | None =>
          match self !! k, m !! k with
          | None, Some v2 => Some (Pair Default v2)
          | _, _ => None
          end
      end.
Proof.
  intros Hnone Hsim.
  apply (map_fold_weak_ind (fun r (m : gmap string value) =>
    forall k,
      r !! k
      = match different !! k with
        | Some p => Some p
        | None =>
            match self !! k, m !! k with
            | None, Some v2 => Some (Pair Default v2)
            | _, _ => None
            end
        end)).
  - intros k. rewrite lookup_empty. by destruct (different !! k), (self !! k).
  - clear m. intros i v m r Hi IH k.
    unfold diff_other_step.
    destruct (self !! i) as [a|] eqn:Ha.
    + (* a key of self is never added *)
      assert ((if bool_decide (similar !! i = None)
                  && bool_decide (r !! i = None)
               then if bool_decide (Some a = None)
                    then <[i := Pair Default v]> r else r
               else r) = r) as ->.
      { rewrite (bool_decide_eq_false_2 (Some a = None)) by done.
        by destruct (_ && _). }
      rewrite IH. destruct (decide (i = k)) as [<- | Hik].
      * by rewrite Ha.
      * by rewrite lookup_insert_ne.
    + destruct (Hnone i Ha) as [Hs Hd].
      assert (r !! i = None) as Hr by (by rewrite IH, Hd, Ha, Hi).
      rewrite !bool_decide_eq_true_2 by done. cbn [andb].
      destruct (decide (i = k)) as [<- | Hik].
      * by rewrite !lookup_insert_eq, Hd, Ha.
      * by rewrite !lookup_insert_ne, IH by done.
Qed.

Lemma diff_same_lookup (self other : gmap string value) k :
  (diff self other).1 !! k = same_entry (self !! k) (other !! k).
Proof.
  unfold diff.
  pose proof (diff_first_loop other self) as H1. cbn zeta in H1.
  destruct (map_fold (diff_self_step other) (∅, ∅) self) as [sim dif].
  cbn [fst snd] in *. apply H1.
Qed.

Lemma diff_different_lookup (self other : gmap string value) k :
  (diff self other).2 !! k = different_entry (self !! k) (other !! k).
Proof.
  unfold diff.
  pose proof (diff_first_loop other self) as H1. cbn zeta in H1.
  destruct (map_fold (diff_self_step other) (∅, ∅) self) as [sim dif].
  cbn [fst snd] in *.
  assert (forall k', self !! k' = None -> sim !! k' = None /\ dif !! k' = None)
    as Hnone.
  { intros k' Hk'. destruct (H1 k') as [-> ->]. by rewrite Hk'. }
  assert (forall k', is_Some (sim !! k') -> is_Some (self !! k')) as Hsim.
  { intros k' [v Hv]. destruct (H1 k') as [Hk' _]. rewrite Hv in Hk'.
    destruct (self !! k'); [by eexists | discriminate]. }
  rewrite (diff_second_loop self sim other dif Hnone Hsim).
  destruct (H1 k) as [_ ->].
  destruct (self !! k) as [v1|] eqn:Hs.
  - unfold different_entry.
    destruct (other !! k) as [v2|]; [destruct (PyEq.neb v1 v2) |]; done.
  - by destruct (other !! k).
Qed.

(** X8.  What [diff] reports for each key [k]: under "Same" the value of
    [self] when both stores hold [k] with values that [!=] does not tell
    apart; under "Different" both values when [!=] tells them apart, the
    value and the text ["Default"] for the missing side when one store
    lacks [k]; nothing when neither store holds [k]. *)
Theorem diff_lookup (self other : gmap string value) k :
  (diff self other).1 !! k = same_entry (self !! k) (other !! k)
  /\ (diff self other).2 !! k = different_entry (self !! k) (other !! k).
Proof.
  split; [apply diff_same_lookup | apply diff_different_lookup].
Qed.

Lemma diff_lookup_witness :
  (diff nan_list nan_list).1 !! "EXAFS" = Some (VList [SNaN 1; SInt 1])
  /\ (diff nan_list same_nan_list).1 !! "EXAFS" = Some (VList [SNaN 1; SInt 1])
  /\ (diff nan_list other_nan_list).1 !! "EXAFS" = None
  /\ (diff nan_store nan_store).1 !! "S02" = None.
Proof.
  destruct (diff_lookup nan_list nan_list "EXAFS") as [-> _].
  destruct (diff_lookup nan_list same_nan_list "EXAFS") as [-> _].
  destruct (diff_lookup nan_list other_nan_list "EXAFS") as [-> _].
  destruct (diff_lookup nan_store nan_store "S02") as [-> _].
  repeat split; vm_compute; reflexivity.
Defined.

(** X9.  [diff] sorts the keys: a key held by at least one store is
    reported in exactly one of the two groups, a key held by neither in
    none; and every entry under "Same" is an entry of [self]. *)
Theorem diff_partition (self other : gmap string value) k :
  let same := (diff self other).1 in
  let different := (diff self other).2 in
  (is_Some (self !! k) \/ is_Some (other !! k) <->
     is_Some (same !! k) \/ is_Some (different !! k))
  /\ ~ (is_Some (same !! k) /\ is_Some (different !! k))
  /\ (forall v, same !! k = Some v -> self !! k = Some v).
Proof.
  cbn zeta. rewrite diff_same_lookup, diff_different_lookup.
  unfold same_entry, different_entry.
  destruct (self !! k) as [v1|], (other !! k) as [v2|];
    [destruct (PyEq.neb v1 v2) | | |];
    (split; [split; intros [[? ?] | [? ?]]; eauto; done
            | split; [intros [[? ?] [? ?]]; done | intros v; congruence]]).
Qed.
Lemma float_eqb_sym f g : PyEq.float_eqb f g = PyEq.float_eqb g f.
Proof.
  unfold PyEq.float_eqb, SFeqb.
  destruct f as [[] | [] | | [] m1 e1], g as [[] | [] | | [] m2 e2];
    try reflexivity; cbn [SFcompare];
    rewrite (Z.compare_antisym e1 e2);
    destruct (e1 ?= e2)%Z; cbn [CompOpp]; try reflexivity;
    change (Pos.compare_cont Eq m1 m2) with (Pos.compare m1 m2);
    change (Pos.compare_cont Eq m2 m1) with (Pos.compare m2 m1);
    rewrite (Pos.compare_antisym m1 m2);
    by destruct (m1 ?= m2)%positive.
Qed.

Lemma scalar_eqb_sym a b : PyEq.scalar_eqb a b = PyEq.scalar_eqb b a.
Proof.
  destruct a as [n | f | i], b as [m | g | j]; cbn [PyEq.scalar_eqb];
    try done; [apply Z.eqb_sym | apply float_eqb_sym].
Qed.

Lemma same_nan_sym a b : PyEq.same_nan a b = PyEq.same_nan b a.
Proof.
  destruct a as [n | f | i], b as [m | g | j];
    try destruct f; try destruct g; cbn [PyEq.same_nan]; try done.
  apply Pos.eqb_sym.
Qed.

Lemma element_eqb_sym a b : PyEq.element_eqb a b = PyEq.element_eqb b a.
Proof. unfold PyEq.element_eqb. by rewrite same_nan_sym, scalar_eqb_sym. Qed.

Lemma list_eqb_sym l1 : forall l2, PyEq.list_eqb l1 l2 = PyEq.list_eqb l2 l1.
Proof.
  induction l1 as [|a l1 IH]; intros [|b l2]; cbn [PyEq.list_eqb]; try done.
  by rewrite element_eqb_sym, IH.
Qed.

(** [==] and [!=] do not depend on the order of their operands. *)
Lemma neb_sym v w : PyEq.neb v w = PyEq.neb w v.
Proof.
  unfold PyEq.neb. f_equal.
  destruct v, w; cbn [PyEq.eqb PyEq.as_scalar];
    try done; try apply scalar_eqb_sym;
    [apply String.eqb_sym | apply list_eqb_sym].
Qed.

(** X10.  Swapping the two stores mirrors the report: "Different" holds
    the same keys with the two sides exchanged, and "Same" holds the same
    keys (with the values of the store that is now [self]). *)
Theorem diff_mirror (self other : gmap string value) k :
  (diff other self).2 !! k = mirror <$> (diff self other).2 !! k
  /\ (is_Some ((diff other self).1 !! k) <-> is_Some ((diff self other).1 !! k))
  /\ (forall v w, (diff self other).1 !! k = Some v ->
                  (diff other self).1 !! k = Some w ->
                  self !! k = Some v /\ other !! k = Some w
                  /\ PyEq.neb v w = false).
Proof.
  rewrite !diff_same_lookup, !diff_different_lookup.
  unfold same_entry, different_entry.
  destruct (self !! k) as [v1|], (other !! k) as [v2|]; cbn;
    try (split; [done | split; [split; intros [? ?]; done | intros ? ?; done]]).
  rewrite (neb_sym v2 v1). destruct (PyEq.neb v1 v2) eqn:Hne; cbn.
  - split; [done | split; [done | intros ? ?; done]].
  - split; [done | split; [split; intros _; by eexists |]].
    intros v w [= <-] [= <-]. done.
Qed.

Lemma diff_mirror_witness :
  PyEq.neb (VList [SNaN 1; SInt 1]) (VList [SNaN 1; SFloat (dyadic 1 0)])
  = false.
Proof.
  destruct (diff_mirror nan_list same_nan_list "EXAFS") as (_ & _ & H).
  destruct (H (VList [SNaN 1; SInt 1]) (VList [SNaN 1; SFloat (dyadic 1 0)]))
    as (_ & _ & Hne); [vm_compute; reflexivity | vm_compute; reflexivity |].
  exact Hne.
Defined.

(** *** [__add__] *)

Lemma conflict_sym (A B : gmap string value) k : conflict A B k <-> conflict B A k.
Proof.
  split; intros (a & b & Ha & Hb & Hne); exists b, a;
    (repeat split; [done | done | by rewrite neb_sym]).
Qed.

Lemma conflict_dec (A B : gmap string value) :
  (exists k, conflict A B k) \/ (forall k, ~ conflict A B k).
Proof.
  destruct (decide (map_Exists (fun k a =>
              match B !! k with
              | Some b => PyEq.neb b a
              | None => false
              end = true) A)) as [He | Hn].
  - left. destruct He as (k & a & Ha & Hk). exists k, a.
    destruct (B !! k) as [b|]; [by exists b | discriminate].
  - right. intros k (a & b & Ha & Hb & Hne). apply Hn.
    exists k, a. split; [done |]. by rewrite Hb.
Qed.

(** X11.  [A + B] either returns the union of the two stores, in which
    the keys of [B] have the values of [B], or raises [ValueError];
    nothing else happens.  Adding the empty store on either side returns
    the other store. *)
Theorem add_outcomes (A B : gmap string value) :
  (__add__ A B = Return (B ∪ A) \/ __add__ A B = Raise ValueError)
  /\ __add__ A ∅ = Return A
  /\ __add__ ∅ B = Return B.
Proof.
  assert (forall A B : gmap string value,
            (forall k, ~ conflict A B k) -> __add__ A B = Return (B ∪ A)) as Hfree.
  { intros A' B' Hn. destruct (add_fold A' B') as (Hf & _ & _).
    unfold __add__. rewrite (Hf Hn). cbn [mbind result_bind].
    by rewrite init_params. }
  split; [| split].
  - destruct (conflict_dec A B) as [Hc | Hn].
    + right. destruct (add_fold A B) as (_ & Hclash & _).
      unfold __add__. by rewrite (Hclash Hc).
    + left. by apply Hfree.
  - rewrite Hfree; [by rewrite (left_id ∅ (∪)) |].
    intros k (a & b & _ & Hb & _). by rewrite lookup_empty in Hb.
  - rewrite Hfree; [by rewrite (right_id ∅ (∪)) |].
    intros k (a & b & Ha & _). by rewrite lookup_empty in Ha.
Qed.

(** X12.  [A + B] and [B + A] succeed or fail together.  When they
    succeed, the two results hold the same keys; a key of one store only
    has the same value in both results, and a key of both stores has the
    value of [B] in [A + B] and the value of [A] in [B + A], equal under
    [==]. *)
Theorem add_swap (A B : gmap string value) :
  (__add__ A B = Raise ValueError <-> __add__ B A = Raise ValueError)
  /\ (forall C D, __add__ A B = Return C -> __add__ B A = Return D ->
        forall k,
          (is_Some (C !! k) <-> is_Some (D !! k))
          /\ (forall v w, C !! k = Some v -> D !! k = Some w ->
                          v = w \/ (B !! k = Some v /\ A !! k = Some w
                                    /\ PyEq.neb v w = false))).
Proof.
  assert (forall A B : gmap string value,
            (forall k, ~ conflict A B k) <-> __add__ A B = Return (B ∪ A)) as Hfree.
  { intros A' B'. destruct (add_fold A' B') as (Hf & Hc & _). split.
    - intros Hn. unfold __add__. rewrite (Hf Hn). cbn [mbind result_bind].
      by rewrite init_params.
    - intros Hr k Hk. unfold __add__ in Hr. rewrite Hc in Hr by eauto.
      discriminate. }
  assert (forall A B : gmap string value,
            (exists k, conflict A B k) <-> __add__ A B = Raise ValueError) as Hclash.
  { intros A' B'. destruct (add_fold A' B') as (_ & Hc & _). split.
    - intros He. unfold __add__. by rewrite (Hc He).
    - intros Hr. destruct (conflict_dec A' B') as [He | Hn]; [done |].
      apply Hfree in Hn. congruence. }
  split.
  - rewrite <- !Hclash. split; intros [k Hk]; exists k; by apply conflict_sym.
  - intros C D HC HD k.
    assert (forall k, ~ conflict A B k) as Hn.
    { intros k' Hk'. assert (__add__ A B = Raise ValueError) as Hr
        by (apply Hclash; eauto). congruence. }
    assert (forall k, ~ conflict B A k) as Hn'.
    { intros k' Hk'. by apply (Hn k'), conflict_sym. }
    apply Hfree in Hn as HC'. apply Hfree in Hn' as HD'.
    assert (C = B ∪ A) as -> by congruence.
    assert (D = A ∪ B) as -> by congruence.
    split.
    + rewrite !lookup_union_is_Some. tauto.
    + intros v w Hv Hw.
      apply lookup_union_Some_raw in Hv as [Hv | [Hb Hv]];
        apply lookup_union_Some_raw in Hw as [Hw | [Ha Hw]]; try (left; congruence).
      right. repeat split; [done | done |].
      destruct (PyEq.neb v w) eqn:Hne; [| done].
      exfalso. apply (Hn k). by exists w, v.
Qed.

Lemma add_swap_witness :
  (exists C D, __add__ two_tags other_tags = Return C
               /\ __add__ other_tags two_tags = Return D
               /\ (is_Some (C !! "EDGE") <-> is_Some (D !! "EDGE")))
  /\ (__add__ nan_list same_nan_list = Return same_nan_list
      /\ __add__ same_nan_list nan_list = Return nan_list
      /\ PyEq.neb (VList [SNaN 1; SFloat (dyadic 1 0)]) (VList [SNaN 1; SInt 1])
         = false).
Proof.
  split.
  - assert (__add__ two_tags other_tags = Return (other_tags ∪ two_tags)) as HC
      by (vm_compute; reflexivity).
    assert (__add__ other_tags two_tags = Return (two_tags ∪ other_tags)) as HD
      by (vm_compute; reflexivity).
    exists (other_tags ∪ two_tags), (two_tags ∪ other_tags).
    split; [done | split; [done |]].
    destruct (add_swap two_tags other_tags) as [_ H].
    apply (H _ _ HC HD "EDGE").
  - assert (__add__ nan_list same_nan_list = Return same_nan_list) as HC
      by (vm_compute; reflexivity).
    assert (__add__ same_nan_list nan_list = Return nan_list) as HD
      by (vm_compute; reflexivity).
    split; [done | split; [done |]].
    destruct (add_swap nan_list same_nan_list) as [_ H].
    destruct (H _ _ HC HD "EXAFS") as [_ Hv].
    destruct (Hv (VList [SNaN 1; SFloat (dyadic 1 0)]) (VList [SNaN 1; SInt 1]))
      as [Heq | (_ & _ & Hne)];
      [vm_compute; reflexivity | vm_compute; reflexivity | discriminate Heq | done].
Defined.
(** X13.  [A + B] returns a store exactly when [A.diff(B)] reports every
    key that both stores hold under "Same". *)
Theorem add_iff_diff_same (A B : gmap string value) :
  (exists C, __add__ A B = Return C) <->
  (forall k, is_Some (A !! k) -> is_Some (B !! k) ->
             is_Some ((diff A B).1 !! k)).
Proof.
  destruct (add_fold A B) as (Hfree & Hclash & _). split.
  - intros [C HC] k [a Ha] [b Hb].
    rewrite diff_same_lookup, Ha, Hb. cbn.
    destruct (PyEq.neb a b) eqn:Hne; [| by eexists].
    unfold __add__ in HC. rewrite Hclash in HC; [discriminate |].
    exists k, a, b. by rewrite neb_sym.
  - intros Hsame. exists (B ∪ A). unfold __add__. rewrite Hfree.
    + cbn [mbind result_bind]. by rewrite init_params.
    + intros k (a & b & Ha & Hb & Hne).
      destruct (Hsame k) as [v Hv]; [by eexists | by eexists |].
      pose proof (diff_same_lookup A B k) as Hk. rewrite Hv, Ha, Hb in Hk.
      cbn in Hk.
      rewrite neb_sym, Hne in Hk. discriminate.
Qed.

(** X14.  A store without NaN added to itself gives the store back; a
    store that holds the float NaN under some key cannot be added to
    itself: [S + S] raises [ValueError]. *)
Theorem add_self (S : gmap string value) :
  ((forall k v, S !! k = Some v -> PyEq.nan_free v = true) ->
     __add__ S S = Return S)
  /\ ((exists k, S !! k = Some (VFloat S754_nan)) ->
        __add__ S S = Raise ValueError).
Proof.
  destruct (add_fold S S) as (Hfree & Hclash & _). unfold __add__. split.
  - intros Hnan. rewrite Hfree.
    + cbn [mbind result_bind]. by rewrite init_params, (idemp (∪) S).
    + intros k (a & b & Ha & Hb & Hne).
      assert (a = b) as <- by congruence.
      rewrite neb_refl in Hne by by eapply Hnan. discriminate.
  - intros [k Hk]. rewrite Hclash; [done |].
    by exists k, (VFloat S754_nan), (VFloat S754_nan).
Qed.

Lemma add_self_witness :
  __add__ two_tags two_tags = Return two_tags
  /\ __add__ nan_store nan_store = Raise ValueError.
Proof.
  destruct (add_self two_tags) as [Hok _].
  destruct (add_self nan_store) as [_ Hbad].
  split.
  - apply Hok. intros k v Hk. unfold two_tags in Hk.
    apply lookup_insert_Some in Hk as [[_ <-] | [_ Hk]]; [reflexivity |].
    apply lookup_singleton_Some in Hk as [_ <-]. reflexivity.
  - apply Hbad. exists "S02". reflexivity.
Defined.
End TagStoreMore.

(** ** More on [proc_val] and [__setitem__] *)

Section ProcValMore.
Import FeffTags Numerals Examples.

Lemma class_keys_are_list_keys key :
  Py.mem key list_type_keys = false ->
  Py.mem key boolean_type_keys = false
  /\ Py.mem key float_type_keys = false
  /\ Py.mem key int_type_keys = false.
Proof.
  intros Hk. split; [reflexivity | split];
    unfold float_type_keys, int_type_keys; cbn [Py.mem];
    repeat match goal with
           | |- context [String.eqb key ?s] =>
               destruct (String.eqb_spec key s) as [-> | _];
               [by vm_compute in Hk |]
           end; reflexivity.
Qed.

Lemma proc_val_unlisted key val :
  Py.mem key list_type_keys = false -> proc_val key val = fallback val.
Proof.
  intros Hk. destruct (class_keys_are_list_keys key Hk) as (Hb & Hf & Hi).
  unfold proc_val, proc_val_with, if_then, and_then. cbn zeta.
  by rewrite Hk, Hb, Hf, Hi.
Qed.

(** X15.  The warning of [__setitem__] looks at the upper-cased name, the
    choice of class at the name as written.  So a text assigned under a
    name that is not itself in [VALID_FEFF_TAGS] is stored capitalized,
    never parsed, and without a warning when the upper-cased name is in
    the list (as for ["scf"]). *)
Theorem setitem_unlisted (self : gmap string value) key s :
  Py.mem (Py.strip key) VALID_FEFF_TAGS = false ->
  (__setitem__ self key (VStr s)).2
  = Return (<[Py.strip key := VStr (Py.capitalize (Py.strip s))]> self)
  /\ ((__setitem__ self key (VStr s)).1 = [] <->
      Py.mem (Py.upper (Py.strip key)) VALID_FEFF_TAGS = true).
Proof.
  intros Hk. unfold __setitem__. cbn [fst snd].
  rewrite proc_val_unlisted by done. split; [reflexivity |].
  destruct (Py.mem (Py.upper _) _); split; done.
Qed.

Lemma setitem_unlisted_witness :
  __setitem__ ∅ " scf " (VStr "7") = ([], Return {[ "scf" := VStr "7" ]}).
Proof.
  destruct (setitem_unlisted ∅ " scf " "7" eq_refl) as [H2 H1].
  destruct (__setitem__ ∅ " scf " (VStr "7")) as [w r]. cbn [fst snd] in *.
  rewrite H2. f_equal. by apply H1.
Defined.

Lemma proc_val_exn key val e : proc_val key val = Raise e -> e = OverflowError.
Proof.
  unfold proc_val, proc_val_with, if_then, and_then, fallback. cbn zeta.
  destruct (Py.mem key list_type_keys).
  { intros [[output He]%list_class_raises Hne]%except_ValueError_raises.
    apply list_class_loop_raises in He as [-> | He]; done. }
  destruct (Py.mem key boolean_type_keys).
  { by intros [He%boolean_class_raises Hne]%except_ValueError_raises. }
  destruct (Py.mem key float_type_keys).
  { by intros [He%float_class_raises Hne]%except_ValueError_raises. }
  destruct (Py.mem key int_type_keys).
  { by intros [He%int_class_raises Hne]%except_ValueError_raises. }
  discriminate.
Qed.

(** X16.  An assignment [self[key] = val] either returns the store with
    one entry set, under the name stripped of surrounding white space and
    with every other key as before, or raises [OverflowError]; it raises
    only for a text value, never for a value of another type. *)
Theorem setitem_effect (self : gmap string value) key val :
  match (__setitem__ self key val).2 with
  | Return store =>
      is_Some (store !! Py.strip key)
      /\ (forall k, k <> Py.strip key -> store !! k = self !! k)
      /\ ((forall s, val <> VStr s) -> store !! Py.strip key = Some val)
  | Raise e => e = OverflowError /\ exists s, val = VStr s
  end.
Proof.
  unfold __setitem__. cbn [snd].
  destruct val as [n | f | b | s | l]; cbn [mbind result_bind];
    try (split; [by rewrite lookup_insert_eq
                | split; [intros k Hk; by rewrite lookup_insert_ne
                         | intros _; by rewrite lookup_insert_eq]]).
  destruct (proc_val (Py.strip key) (Py.strip s)) as [v|e] eqn:Hv;
    cbn [mbind result_bind].
  - split; [by rewrite lookup_insert_eq |].
    split; [intros k Hk; by rewrite lookup_insert_ne |].
    intros H. by destruct (H s).
  - split; [by eapply proc_val_exn | by eexists].
Qed.
Lemma list_class_empty_token rest :
  list_class_loop ("" :: rest) [] = Raise ValueError.
Proof. reflexivity. Qed.

(** X17.  A value that is empty or begins with white space is never
    parsed, whatever the key: [proc_val] returns it capitalized (its first
    piece is the empty text, which is no number).  [__setitem__] and
    [from_file] strip the value first; a direct call does not. *)
Theorem proc_val_leading_space key val :
  val = "" \/ (exists c rest, val = String c rest /\ Py.isspace c = true) ->
  proc_val key val = fallback val.
Proof.
  intros Hval.
  assert (exists rest, Py.re_split_ws val = "" :: rest) as [rest Hsplit].
  { destruct Hval as [-> | (c & r & -> & Hc)]; [by exists [] |].
    unfold Py.re_split_ws. cbn [Py.re_split_ws_from]. rewrite Hc. by eexists. }
  destruct (Py.mem key list_type_keys) eqn:Hk; [| by apply proc_val_unlisted].
  unfold proc_val, proc_val_with, if_then, and_then. cbn zeta. rewrite Hk.
  unfold list_class. by rewrite Hsplit, list_class_empty_token.
Qed.

Lemma proc_val_leading_space_witness :
  proc_val "SCF" " 7" = Return (VStr " 7").
Proof.
  apply (proc_val_leading_space "SCF" " 7"). right. by exists " "%char, "7".
Defined.

(** *** Lists of integers *)

Lemma isdigit_not_space c : Py.isdigit c = true -> Py.isspace c = false.
Proof.
  unfold Py.isdigit, Py.isspace. intros [H1 H2]%andb_true_iff.
  apply Z.leb_le in H1, H2.
  apply orb_false_iff. split; apply andb_false_iff.
  - right. apply Z.leb_gt. lia.
  - right. apply Z.leb_gt. lia.
Qed.

Lemma re_split_nonempty s : forall b, Py.re_split_ws_from b s <> [].
Proof.
  induction s as [|c s IH]; intros b; cbn [Py.re_split_ws_from]; [done |].
  destruct (Py.isspace c); [destruct b; [apply IH | done] |].
  by destruct (Py.re_split_ws_from false s).
Qed.

Lemma re_split_no_space t : forall r,
  all_digits t = true ->
  Py.re_split_ws_from false (t +:+ r)
  = match Py.re_split_ws_from false r with
    | tok :: l => (t +:+ tok) :: l
    | [] => [t]
    end.
Proof.
  induction t as [|c t IH]; intros r Ht.
  - change ("" +:+ r) with r.
    pose proof (re_split_nonempty r false).
    by destruct (Py.re_split_ws_from false r).
  - cbn [all_digits] in Ht. apply andb_true_iff in Ht as [Hc Ht].
    change (String c t +:+ r) with (String c (t +:+ r)).
    cbn [Py.re_split_ws_from]. rewrite (isdigit_not_space c Hc), IH by done.
    by destruct (Py.re_split_ws_from false r).
Qed.

Lemma append_empty_r s : s +:+ "" = s.
Proof. induction s as [|c s IH]; [done |]. change (String c s +:+ "") with (String c (s +:+ "")). by rewrite IH. Qed.

Lemma re_split_join toks :
  toks <> [] -> Forall numeral toks ->
  Py.re_split_ws (join_blank toks) = toks.
Proof.
  unfold Py.re_split_ws. intros Hne Htoks.
  induction Htoks as [|t toks [Ht1 Ht2] Htoks IH]; [done |].
  destruct toks as [|t2 toks].
  - cbn [join_blank]. rewrite <- (append_empty_r t) at 1.
    rewrite re_split_no_space by done. cbn. by rewrite append_empty_r.
  - change (join_blank (t :: t2 :: toks))
      with (t +:+ String " " (join_blank (t2 :: toks))).
    rewrite re_split_no_space by done.
    cbn [Py.re_split_ws_from]. change (Py.isspace " ") with true. cbv iota.
    rewrite append_empty_r. f_equal.
    rewrite <- IH at 2 by done.
    (* the text after the blank begins with a digit *)
    apply Forall_cons in Htoks as [[Hn Hd] _].
    destruct t2 as [|c t2]; [done |].
    cbn [all_digits] in Hd. apply andb_true_iff in Hd as [Hc _].
    destruct toks as [|t3 toks];
      [cbn [join_blank]
      | change (join_blank (String c t2 :: t3 :: toks))
          with (String c (t2 +:+ String " " (join_blank (t3 :: toks))))];
      cbn [Py.re_split_ws_from]; by rewrite (isdigit_not_space c Hc).
Qed.

Lemma span_all_digits t : all_digits t = true -> Py.span Py.isdigit t = (t, "").
Proof.
  induction t as [|c t IH]; [done |]. cbn [all_digits Py.span].
  intros [-> Ht]%andb_true_iff. by rewrite IH.
Qed.

Lemma repeat_match_numeral t : all_digits t = true -> repeat_match t = None.
Proof.
  intros Ht. unfold repeat_match. rewrite span_all_digits by done.
  by destruct t.
Qed.

Lemma contains_all_digits c t :
  Py.isdigit c = false -> all_digits t = true -> Py.contains c t = false.
Proof.
  intros Hc. induction t as [|d t IH]; [done |]. cbn [all_digits Py.contains].
  intros [Hd Ht]%andb_true_iff. rewrite IH by done.
  destruct (Ascii.eqb_spec c d) as [-> | _]; [congruence | done].
Qed.

Lemma lower_all_digits t : all_digits t = true -> Py.lower t = t.
Proof.
  induction t as [|c t IH]; [done |]. cbn [all_digits Py.lower].
  intros [Hc Ht]%andb_true_iff. rewrite IH by done. f_equal.
  unfold Py.lower_char, Py.isdigit in *.
  apply andb_true_iff in Hc as [H1 H2]. apply Z.leb_le in H1, H2.
  destruct (65 <=? Py.ord c) eqn:H3; [apply Z.leb_le in H3; lia | done].
Qed.

Lemma strip_all_digits t : all_digits t = true -> Py.strip t = t.
Proof.
  intros Ht. unfold Py.strip.
  assert (Py.lstrip t = t) as ->.
  { destruct t as [|c t]; [done |]. cbn [all_digits] in Ht.
    apply andb_true_iff in Ht as [Hc _]. cbn [Py.lstrip].
    by rewrite (isdigit_not_space c Hc). }
  induction t as [|c t IH]; [done |]. cbn [all_digits] in Ht.
  apply andb_true_iff in Ht as [Hc Ht]. cbn [Py.rstrip].
  rewrite IH by done. rewrite (isdigit_not_space c Hc). by destruct t.
Qed.

Lemma split_sign_digit c t :
  Py.isdigit c = true -> PyNum.split_sign (String c t) = (false, String c t).
Proof.
  destruct c as [[] [] [] [] [] [] [] []]; try discriminate; reflexivity.
Qed.

Lemma digit_group_all_digits t : forall acc n prev,
  all_digits t = true -> t <> "" \/ prev = true ->
  PyNum.digit_group_from acc n prev t
  = Some (Table.digits_value acc t, n + Z.of_nat (String.length t)).
Proof.
  induction t as [|c t IH]; intros acc n prev Ht Hne.
  - destruct Hne as [Hne | ->]; [done |]. cbn. do 2 f_equal. lia.
  - cbn [all_digits] in Ht. apply andb_true_iff in Ht as [Hc Ht].
    cbn [PyNum.digit_group_from Table.digits_value String.length].
    rewrite Hc, IH by auto. do 2 f_equal. lia.
Qed.

Lemma int_numeral t : numeral t -> PyNum.int t = Return (Table.text_value t).
Proof.
  intros [Hne Ht]. unfold PyNum.int. rewrite strip_all_digits by done.
  destruct t as [|c t]; [done |].
  pose proof Ht as Ht'. cbn [all_digits] in Ht'.
  apply andb_true_iff in Ht' as [Hc _].
  rewrite split_sign_digit by done.
  unfold PyNum.digit_group. by rewrite digit_group_all_digits by auto.
Qed.

Lemma smart_numeral t :
  numeral t -> smart_int_or_float t = Return (SInt (Table.text_value t)).
Proof.
  intros Hn. pose proof Hn as [_ Ht]. unfold smart_int_or_float.
  rewrite lower_all_digits, !contains_all_digits by done.
  cbn [orb]. by rewrite int_numeral.
Qed.

Lemma list_class_loop_numerals toks : forall output,
  Forall numeral toks ->
  list_class_loop toks output
  = Return (output ++ (SInt ∘ Table.text_value <$> toks)).
Proof.
  induction toks as [|t toks IH]; intros output Htoks; cbn [list_class_loop].
  - by rewrite app_nil_r.
  - apply Forall_cons in Htoks as [Ht Htoks].
    rewrite repeat_match_numeral, smart_numeral by (done || apply Ht).
    cbn [mbind result_bind]. rewrite IH by done.
    by rewrite <- app_assoc.
Qed.

(** X18.  For a key of [VALID_FEFF_TAGS], a value made of unsigned
    decimal numerals separated by single blanks is returned as the list
    of those integers, in order, one element per numeral (also when there
    is only one numeral). *)
Theorem proc_val_numerals key toks :
  Py.mem key list_type_keys = true ->
  toks <> [] -> Forall numeral toks ->
  proc_val key (join_blank toks)
  = Return (VList (SInt ∘ Table.text_value <$> toks)).
Proof.
  intros Hk Hne Htoks.
  unfold proc_val, proc_val_with, if_then, and_then. cbn zeta. rewrite Hk.
  unfold list_class. rewrite re_split_join by done.
  by rewrite list_class_loop_numerals.
Qed.

Lemma proc_val_numerals_witness :
  proc_val "CONTROL" "1 1 1 1 1 1" = Return (VList (SInt <$> [1; 1; 1; 1; 1; 1])).
Proof.
  apply (proc_val_numerals "CONTROL" ["1"; "1"; "1"; "1"; "1"; "1"]);
    [reflexivity | discriminate |].
  repeat constructor; discriminate.
Defined.
End ProcValMore.

(** ** The readers *)

Section ReaderFacts.
Import PyStr Readers.

Lemma contains_remove_char c s : Py.contains c (remove_char c s) = false.
Proof.
  induction s as [|d s IH]; [done |]. cbn [remove_char].
  destruct (Ascii.eqb d c) eqn:Hd; [done |]. cbn [Py.contains].
  rewrite Ascii.eqb_sym, Hd. exact IH.
Qed.

Lemma contains_append c s t :
  Py.contains c (s +:+ t) = Py.contains c s || Py.contains c t.
Proof.
  induction s as [|d s IH]; [done |].
  change (String d s +:+ t) with (String d (s +:+ t)). cbn [Py.contains].
  by rewrite IH, orb_assoc.
Qed.

Lemma contains_join c l :
  Forall (fun s => Py.contains c s = false) l -> Py.contains c (join l) = false.
Proof.
  induction 1 as [|s l Hs _ IH]; [done |].
  cbn [join foldr]. fold (join l). by rewrite contains_append, Hs, IH.
Qed.

Lemma atoms_step_started acc line :
  atoms_step (1, acc) line = (1, acc ++ [remove_char CR line]).
Proof. reflexivity. Qed.

Lemma atoms_step_waiting acc line :
  atoms_step (0, acc) line
  = if has_ATOMS line then (1, acc ++ [remove_char CR line]) else (0, acc).
Proof. unfold atoms_step, has_ATOMS. by destruct (find "ATOMS" line >=? 0). Qed.

Lemma atoms_fold_started l : forall acc,
  fold_left atoms_step l (1, acc) = (1, acc ++ (remove_char CR <$> l)).
Proof.
  induction l as [|line l IH]; intros acc; cbn [fold_left].
  - by rewrite app_nil_r.
  - rewrite atoms_step_started, IH, fmap_cons. by rewrite <- app_assoc.
Qed.

Lemma atoms_fold_waiting l :
  fold_left atoms_step l (0, [])
  = match list_find (fun line => has_ATOMS line = true) l with
    | Some (i, _) => (1, remove_char CR <$> drop i l)
    | None => (0, [])
    end.
Proof.
  induction l as [|line l IH]; [done |]. cbn [fold_left list_find].
  rewrite atoms_step_waiting.
  destruct (has_ATOMS line) eqn:Hf.
  - rewrite decide_True by done. by rewrite atoms_fold_started.
  - rewrite decide_False by done.
    rewrite IH. by destruct (list_find _ l) as [[i x]|].
Qed.

(** X19.  [atoms_string_from_file] returns the text of the file from the
    first line that holds ["ATOMS"] to the end, with every carriage
    return removed, and the empty text when no line holds ["ATOMS"]. *)
Theorem atoms_string_from_file_spec f :
  atoms_string_from_file f
  = match list_find (fun line => has_ATOMS line = true) f with
    | Some (i, _) => join (remove_char CR <$> drop i f)
    | None => ""
    end
  /\ Py.contains CR (atoms_string_from_file f) = false.
Proof.
  unfold atoms_string_from_file. rewrite atoms_fold_waiting.
  destruct (list_find _ f) as [[i x]|]; cbn [snd]; split; try done.
  apply contains_join, Forall_fmap, Forall_forall. intros line _.
  apply contains_remove_char.
Qed.

(** *** [header_string_from_file] *)

Lemma header_fold_ended l : forall acc,
  Forall (fun line => line <> "") l ->
  fold_left header_step l (Return (1, acc)) = Return (1, acc).
Proof.
  induction l as [|line l IH]; intros acc Hl; [done |].
  apply Forall_cons in Hl as [Hline Hl]. cbn [fold_left].
  destruct line as [|c line]; [done |].
  cbn. rewrite andb_false_r. by apply IH.
Qed.

Lemma header_fold_raised l e :
  fold_left header_step l (Raise e) = Raise e.
Proof. induction l as [|line l IH]; [done |]. exact IH. Qed.

Lemma header_fold_open l : forall acc,
  Forall (fun line => line <> "") l ->
  exists end_,
    fold_left header_step l (Return (0, acc))
    = Return (end_, acc ++ (remove_char CR <$> take_while header_line l)).
Proof.
  induction l as [|line l IH]; intros acc Hl.
  - exists 0. cbn. by rewrite app_nil_r.
  - apply Forall_cons in Hl as [Hline Hl]. cbn [fold_left take_while].
    destruct line as [|c line]; [done |].
    cbn [header_step mbind result_bind first_char header_line].
    change (0 =? 0) with true. rewrite andb_true_r.
    destruct (Ascii.eqb c "*" || Ascii.eqb c "T").
    + destruct (IH (acc ++ [remove_char CR (String c line)]) Hl) as [e ->].
      exists e. by rewrite fmap_cons, <- app_assoc.
    + exists 1. rewrite header_fold_ended by done. by rewrite app_nil_r.
Qed.

Lemma header_fold_empty_line l : forall st,
  "" ∈ l -> exists e, fold_left header_step l st = Raise e /\
                     (forall e', st = Raise e' -> e = e') /\
                     (forall x, st = Return x -> e = IndexError).
Proof.
  induction l as [|line l IH]; intros st Hin; [by apply elem_of_nil in Hin |].
  cbn [fold_left]. apply elem_of_cons in Hin as [<- | Hin].
  - destruct st as [[e a]|e]; cbn.
    + rewrite header_fold_raised. exists IndexError. by repeat split.
    + rewrite header_fold_raised. exists e. repeat split; congruence.
  - destruct (IH (header_step st line) Hin) as (e & -> & H1 & H2).
    exists e. split; [done |]. split.
    + intros e' ->. by apply H1.
    + intros [e0 a] ->. destruct line as [|c line]; cbn in *.
      * by apply H1.
      * destruct (_ && _); by eapply H2.
Qed.

Lemma pmg_fold nsites l : forall ln acc,
  0 <= ln ->
  (fold_left (pmg_header_step nsites) l (ln, acc)).2
  = acc ++ take (Z.to_nat (nsites + 9 - ln)) l.
Proof.
  induction l as [|line l IH]; intros ln acc Hln; cbn [fold_left].
  - by rewrite take_nil, app_nil_r.
  - cbn [pmg_header_step]. destruct (ln + 1 <=? nsites + 9) eqn:Hle.
    + apply Z.leb_le in Hle. rewrite IH by lia.
      replace (Z.to_nat (nsites + 9 - ln))
        with (S (Z.to_nat (nsites + 9 - (ln + 1)))) by lia.
      cbn [take]. by rewrite <- app_assoc.
    + apply Z.leb_gt in Hle. rewrite IH by lia.
      replace (Z.to_nat (nsites + 9 - ln)) with 0%nat by lia.
      replace (Z.to_nat (nsites + 9 - (ln + 1))) with 0%nat by lia.
      by rewrite !take_0.
Qed.

(** X20.  [header_string_from_file], by the first line of the file.
    When ["pymatgen"] occurs in it after its first character, the result
    is the first [nsites + 9] lines, [nsites] being the third field of
    line 9; a file of fewer than 9 lines makes it raise [IndexError].
    Otherwise the result is the leading lines that begin with [*] or [T],
    carriage returns removed; an empty file gives the empty text.  (An
    empty text among the lines, which [readlines] never yields, would
    make it raise [IndexError].) *)
Theorem header_string_from_file_spec f :
  (f = [] -> header_string_from_file f = Return "")
  /\ (forall line0 rest, f = line0 :: rest -> find "pymatgen" line0 > 0 ->
        ((length f < 9)%nat -> header_string_from_file f = Raise IndexError)
        /\ (forall line8 field nsites,
              f !! 8%nat = Some line8 -> split line8 !! 2%nat = Some field ->
              PyNum.int field = Return nsites ->
              header_string_from_file f
              = Return (join (take (Z.to_nat (nsites + 9)) f))))
  /\ (forall line0 rest, f = line0 :: rest -> find "pymatgen" line0 <= 0 ->
        (Forall (fun line => line <> "") f ->
           header_string_from_file f
           = Return (join (remove_char CR <$> take_while header_line f)))
        /\ ("" ∈ f -> header_string_from_file f = Raise IndexError)).
Proof.
  split; [by intros -> |]. split.
  - intros line0 rest -> Hfind. unfold header_string_from_file.
    assert ((find "pymatgen" line0 >? 0) = true) as -> by (apply Z.gtb_lt; lia).
    split.
    + intros Hlen.
      assert (item (line0 :: rest) 8 = Raise IndexError) as ->; [| done].
      unfold item. by rewrite lookup_ge_None_2 by lia.
    + intros line8 field nsites H8 H2 Hn. unfold item.
      rewrite H8. cbn [mbind result_bind]. rewrite H2. cbn [mbind result_bind].
      rewrite Hn. cbn [mbind result_bind].
      rewrite pmg_fold by lia. cbn [app]. do 3 f_equal. lia.
  - intros line0 rest -> Hfind. unfold header_string_from_file.
    assert ((find "pymatgen" line0 >? 0) = false) as ->
      by (rewrite Z.gtb_ltb; apply Z.ltb_ge; lia).
    split.
    + intros Hl. destruct (header_fold_open (line0 :: rest) [] Hl) as [e ->].
      reflexivity.
    + intros Hin.
      destruct (header_fold_empty_line (line0 :: rest) (Return (0, [])) Hin)
        as (e & -> & _ & He).
      by rewrite (He _ eq_refl).
Qed.
Lemma pot_step_tagged st line :
  pot_tag st <> -1 ->
  pot_tag (pot_step st line) = pot_tag st
  /\ ((pot_str (pot_step st line) = pot_str st
       /\ pot_data (pot_step st line) = pot_data st)
      \/ (pot_str (pot_step st line) = pot_str st ++ [remove_char CR line]
          /\ pot_data (pot_step st line) = pot_data st + 1
          /\ first_field_int line = Return (pot_data st))).
Proof.
  intros Htag. unfold pot_step.
  destruct (pot_data_over st =? 1); [| by split; [| left]].
  destruct (pot_tag st =? -1) eqn:Ht; [apply Z.eqb_eq in Ht; lia |].
  destruct (_ && _); [| by split; [| left]].
  destruct (first_field_int line) as [n|e] eqn:Hn.
  - destruct (n =? pot_data st) eqn:Hd; [| by split; [| left]].
    apply Z.eqb_eq in Hd as ->. split; [done |]. by right.
  - destruct (pot_data st >? 0); by split; [| left].
Qed.

Lemma pot_fold_tagged l : forall st,
  pot_tag st <> -1 ->
  exists picked,
    pot_str (fold_left pot_step l st) = pot_str st ++ (remove_char CR <$> picked)
    /\ pot_data (fold_left pot_step l st) = pot_data st + Z.of_nat (length picked)
    /\ sublist picked l
    /\ (forall (i : nat) line, picked !! i = Some line ->
          first_field_int line = Return (pot_data st + Z.of_nat i)).
Proof.
  induction l as [|line l IH]; intros st Htag; cbn [fold_left].
  - exists []. cbn. rewrite app_nil_r, Z.add_0_r. repeat split; try done.
  - destruct (pot_step_tagged st line Htag) as [Ht [[Hs Hd] | (Hs & Hd & Hn)]];
      destruct (IH (pot_step st line)) as (picked & H1 & H2 & H3 & H4);
      try congruence.
    + exists picked. rewrite H1, H2, Hs, Hd.
      split; [done |]. split; [done |]. split; [by apply sublist_cons |].
      intros i x Hx. rewrite (H4 i x Hx). by rewrite Hd.
    + exists (line :: picked). rewrite H1, H2, Hs, Hd.
      split; [by rewrite <- app_assoc |]. split; [cbn [length]; lia |].
      split; [by apply sublist_skip |].
      intros [|i] x Hx; cbn in Hx.
      * injection Hx as <-. rewrite Hn. f_equal. lia.
      * rewrite (H4 i x Hx), Hd. f_equal. lia.
Qed.

Lemma pot_step_untagged st line :
  pot_tag st = -1 -> pot_data_over st = 1 -> no_tag line ->
  pot_step st line = PotState 0 (pot_str st) (-1) (pot_data st) 1.
Proof.
  intros Ht Ho Hl. unfold pot_step. rewrite Ht, Ho, Hl. reflexivity.
Qed.

Lemma pot_fold_untagged l : forall st,
  pot_tag st = -1 -> pot_data_over st = 1 -> Forall no_tag l ->
  let st' := fold_left pot_step l st in
  pot_tag st' = -1 /\ pot_data_over st' = 1
  /\ pot_str st' = pot_str st /\ pot_data st' = pot_data st.
Proof.
  induction l as [|line l IH]; intros st Ht Ho Hl; cbn [fold_left]; [done |].
  apply Forall_cons in Hl as [Hline Hl].
  rewrite (pot_step_untagged st line Ht Ho Hline).
  exact (IH (PotState 0 (pot_str st) (-1) (pot_data st) 1) eq_refl eq_refl Hl).
Qed.

Lemma pot_step_tag_line st line :
  pot_tag st = -1 -> pot_data_over st = 1 -> ~ no_tag line ->
  pot_step st line
  = PotState 0 (pot_str st) (find "POTENTIALS" line) (pot_data st) 1.
Proof.
  intros Ht Ho Hl. unfold pot_step. rewrite Ht, Ho. cbn.
  by rewrite andb_false_r.
Qed.

Lemma pot_fold_spec l : forall st,
  pot_tag st = -1 -> pot_data_over st = 1 ->
  exists picked,
    pot_str (fold_left pot_step l st) = pot_str st ++ (remove_char CR <$> picked)
    /\ (forall (i : nat) line, picked !! i = Some line ->
          first_field_int line = Return (pot_data st + Z.of_nat i))
    /\ (Forall no_tag l -> picked = [])
    /\ (forall before tag_line after,
          l = before ++ tag_line :: after -> Forall no_tag before ->
          ~ no_tag tag_line -> sublist picked after).
Proof.
  induction l as [|line l IH]; intros st Ht Ho; cbn [fold_left].
  - exists []. cbn. rewrite app_nil_r. repeat split; try done.
    intros [|??] ?? [=].
  - destruct (decide (no_tag line)) as [Hline | Hline].
    + rewrite (pot_step_untagged st line Ht Ho Hline).
      destruct (IH (PotState 0 (pot_str st) (-1) (pot_data st) 1) eq_refl eq_refl)
        as (picked & H1 & H2 & H3 & H4).
      exists picked. split; [done |]. split; [done |]. split.
      * intros Hl. apply Forall_cons in Hl as [_ Hl]. by apply H3.
      * intros [|b before] tag_line after [= -> ->] Hb Htag; [done |].
        apply Forall_cons in Hb as [_ Hb]. by eapply H4.
    + rewrite (pot_step_tag_line st line Ht Ho Hline).
      destruct (pot_fold_tagged l
                  (PotState 0 (pot_str st) (find "POTENTIALS" line) (pot_data st) 1)
                  Hline) as (picked & H1 & _ & H3 & H4).
      exists picked. split; [done |]. split; [done |]. split.
      * intros Hl. by apply Forall_cons in Hl as [? _].
      * intros [|b before] tag_line after [= -> ->] Hb Htag; [done |].
        by apply Forall_cons in Hb as [? _].
Qed.

(** X21.  [pot_string_from_file] returns the line ["POTENTIALS"] followed
    by lines of the file, carriage returns removed, in the order of the
    file: the [i]-th of them has the integer [i] as its first field, all
    of them come after the first line that holds ["POTENTIALS"], and a
    file without such a line gives the line ["POTENTIALS"] alone. *)
Theorem pot_string_from_file_spec f :
  exists picked,
    pot_string_from_file f
    = join (("POTENTIALS" +:+ String LF "") :: (remove_char CR <$> picked))
    /\ (forall (i : nat) line, picked !! i = Some line ->
          first_field_int line = Return (Z.of_nat i))
    /\ (Forall no_tag f -> picked = [])
    /\ (forall before tag_line after,
          f = before ++ tag_line :: after -> Forall no_tag before ->
          ~ no_tag tag_line -> sublist picked after).
Proof.
  unfold pot_string_from_file, pot_lines.
  destruct (pot_fold_spec f pot_start eq_refl eq_refl) as (picked & -> & H).
  by exists picked.
Qed.

Lemma dict_try_running st line :
  begin st = 1 -> 0 < dln st -> dict_try st line = add_entry st (entry line).
Proof.
  intros Hb Hl. unfold dict_try, add_entry, entry, item. rewrite Hb. cbn.
  assert ((dln st + 1 >? 0) = true) as -> by (apply Z.gtb_lt; lia).
  destruct (split line !! 2%nat) as [atom|]; cbn; [| done].
  destruct (split line !! 0%nat) as [f0|]; cbn; [| done].
  by destruct (PyNum.int f0) as [index|e]; cbn.
Qed.

Lemma dict_try_waiting d r line :
  opens_table line = false ->
  dict_try (DictState d r 0 (-1)) line = DictState d r 0 (-1).
Proof.
  intros Hl. unfold dict_try, opens_table, item in *. cbn.
  destruct (split line) as [|f0 fields]; cbn; [done |].
  by rewrite Hl; cbn.
Qed.

Lemma dict_try_opening d r line :
  opens_table line = true ->
  dict_try (DictState d r 0 (-1)) line
  = add_entry (DictState d r 1 0) (entry line).
Proof.
  intros Hl. unfold dict_try, opens_table, add_entry, entry, item in *. cbn.
  destruct (split line) as [|f0 fields]; cbn; [done |].
  rewrite Hl; cbn.
  destruct (fields !! 1%nat) as [atom|]; cbn; [| done].
  by destruct (PyNum.int f0) as [index|e]; cbn.
Qed.

Lemma dict_fold_running l : forall st,
  begin st = 1 -> 0 < dln st ->
  let st' := fold_left dict_try l st in
  (pot_dict st', pot_dict_reverse st')
  = insert_entries (omap entry l) (pot_dict st, pot_dict_reverse st).
Proof.
  induction l as [|line l IH]; intros st Hb Hl; cbn [fold_left]; [done |].
  rewrite (dict_try_running st line Hb Hl). cbn [omap list_omap].
  destruct (entry line) as [[atom index]|]; cbn [add_entry].
  - refine (IH (DictState _ _ 1 (dln st + 1)) eq_refl _). cbn. lia.
  - refine (IH (DictState _ _ 1 (dln st + 1)) eq_refl _). cbn. lia.
Qed.

Lemma dict_fold_waiting l d r :
  let st' := fold_left dict_try l (DictState d r 0 (-1)) in
  (pot_dict st', pot_dict_reverse st')
  = insert_entries
      (omap entry (drop_while (fun line => negb (opens_table line)) l)) (d, r).
Proof.
  induction l as [|line l IH]; cbn [fold_left drop_while]; [done |].
  destruct (opens_table line) eqn:Hl; cbn [negb].
  - rewrite (dict_try_opening d r line Hl). cbn [omap list_omap].
    destruct (entry line) as [[atom index]|]; cbn [add_entry].
    + refine (dict_fold_running l (DictState _ _ 1 (0 + 1)) eq_refl _). cbn. lia.
    + refine (dict_fold_running l (DictState _ _ 1 (0 + 1)) eq_refl _). cbn. lia.
  - by rewrite (dict_try_waiting d r line Hl).
Qed.

Lemma pot_dict_from_string_entries pot_data :
  pot_dict_from_string pot_data = insert_entries (entries pot_data) (∅, ∅).
Proof. apply dict_fold_waiting. Qed.

Lemma insert_entries_snoc es e dr :
  insert_entries (es ++ [e]) dr
  = (<[e.1 := e.2]> (insert_entries es dr).1,
     <[e.2 := e.1]> (insert_entries es dr).2).
Proof. unfold insert_entries. by rewrite fold_left_app. Qed.

Lemma insert_entries_lookup es :
  (forall atom, (insert_entries es (∅, ∅)).1 !! atom
      = snd <$> last (filter (fun e => e.1 = atom) es))
  /\ (forall index, (insert_entries es (∅, ∅)).2 !! index
      = fst <$> last (filter (fun e => e.2 = index) es)).
Proof.
  induction es as [|e es [IH1 IH2]] using rev_ind; [done |].
  rewrite insert_entries_snoc. cbn [fst snd]. split.
  - intros atom. rewrite filter_app, filter_cons, filter_nil.
    destruct (decide (e.1 = atom)) as [<- | Hne].
    + by rewrite lookup_insert_eq, last_snoc.
    + by rewrite lookup_insert_ne, app_nil_r.
  - intros index. rewrite filter_app, filter_cons, filter_nil.
    destruct (decide (e.2 = index)) as [<- | Hne].
    + by rewrite lookup_insert_eq, last_snoc.
    + by rewrite lookup_insert_ne, app_nil_r.
Qed.

Lemma last_filter_elem {A : Type} (P : A -> Prop) `{!forall a, Decision (P a)}
  (l : list A) e : last (filter P l) = Some e -> P e /\ e ∈ l.
Proof.
  intros Hl. apply (list_elem_of_filter P). apply last_Some in Hl as [l' ->].
  apply elem_of_app. right. by left.
Qed.

Lemma last_filter_is_Some {A : Type} (P : A -> Prop) `{!forall a, Decision (P a)}
  (l : list A) e : P e -> e ∈ l -> is_Some (last (filter P l)).
Proof.
  intros HP He. assert (e ∈ filter P l) as Hin by by apply list_elem_of_filter.
  destruct (filter P l) as [|x l'] using rev_ind; [by apply elem_of_nil in Hin |].
  rewrite last_snoc. by eexists.
Qed.

Lemma last_filter_unique {A B : Type} `{EqDecision B} (f : A -> B) (l : list A) e :
  NoDup (f <$> l) -> e ∈ l -> last (filter (fun x => f x = f e) l) = Some e.
Proof.
  induction l as [|x l IH]; intros Hnd He; [by apply elem_of_nil in He |].
  rewrite fmap_cons in Hnd. apply NoDup_cons in Hnd as [Hx Hnd].
  rewrite filter_cons. apply elem_of_cons in He as [-> | He].
  - rewrite decide_True by done.
    destruct (filter (fun x0 => f x0 = f x) l) as [|y l'] eqn:Hf; [done |].
    assert (y ∈ filter (fun x0 => f x0 = f x) l) as Hy by (rewrite Hf; by left).
    apply list_elem_of_filter in Hy as [Hy1 Hy2].
    destruct Hx. rewrite <- Hy1. by apply list_elem_of_fmap_2.
  - rewrite decide_False; [by apply IH |].
    intros Heq. destruct Hx. rewrite Heq. by apply list_elem_of_fmap_2.
Qed.

(** X22.  The dictionaries of [pot_dict_from_string] are read from the
    entries of the text, which begin at the first line whose first field
    is ["0"]: an atom is mapped to the index of the last entry that names
    it, an index to the atom of the last entry that carries it, and a
    text without a line whose first field is ["0"] gives two empty
    dictionaries. *)
Theorem pot_dict_from_string_lookup pot_data :
  (forall atom, (pot_dict_from_string pot_data).1 !! atom
      = snd <$> last (filter (fun e => e.1 = atom) (entries pot_data)))
  /\ (forall index, (pot_dict_from_string pot_data).2 !! index
      = fst <$> last (filter (fun e => e.2 = index) (entries pot_data)))
  /\ (Forall (fun line => opens_table line = false) (split_lines pot_data) ->
      pot_dict_from_string pot_data = (∅, ∅)).
Proof.
  rewrite pot_dict_from_string_entries.
  destruct (insert_entries_lookup (entries pot_data)) as [H1 H2].
  split; [done |]. split; [done |].
  intros Hl. unfold entries.
  assert (drop_while (fun line => negb (opens_table line)) (split_lines pot_data)
          = []) as ->; [| done].
  induction Hl as [|line l Hline Hl IH]; [done |].
  cbn [drop_while]. by rewrite Hline.
Qed.

(** X23.  The two dictionaries of [pot_dict_from_string] cover each
    other: an index that an atom is mapped to is a key of the reverse
    dictionary, and an atom that an index is mapped to is a key of the
    forward one.  When no two entries carry the same index, the reverse
    dictionary maps the index of an atom back to it; when no two entries
    name the same atom, the forward dictionary maps the atom of an index
    back to it. *)
Theorem pot_dicts_cover pot_data atom index :
  let d := (pot_dict_from_string pot_data).1 in
  let r := (pot_dict_from_string pot_data).2 in
  (d !! atom = Some index -> is_Some (r !! index))
  /\ (r !! index = Some atom -> is_Some (d !! atom))
  /\ (NoDup (entries pot_data).*2 -> d !! atom = Some index ->
      r !! index = Some atom)
  /\ (NoDup (entries pot_data).*1 -> r !! index = Some atom ->
      d !! atom = Some index).
Proof.
  cbn zeta. rewrite pot_dict_from_string_entries.
  destruct (insert_entries_lookup (entries pot_data)) as [H1 H2].
  rewrite H1, H2.
  assert (forall a i,
    snd <$> last (filter (fun e => e.1 = a) (entries pot_data)) = Some i ->
    (a, i) ∈ entries pot_data) as Hd.
  { intros a i H. apply fmap_Some in H as ([a' i'] & H & ->).
    by apply last_filter_elem in H as [<- H]. }
  assert (forall a i,
    fst <$> last (filter (fun e => e.2 = i) (entries pot_data)) = Some a ->
    (a, i) ∈ entries pot_data) as Hr.
  { intros a i H. apply fmap_Some in H as ([a' i'] & H & ->).
    by apply last_filter_elem in H as [<- H]. }
  split; [| split; [| split]].
  - intros H. apply fmap_is_Some.
    by apply (last_filter_is_Some _ _ (atom, index)); [| apply Hd].
  - intros H. apply fmap_is_Some.
    by apply (last_filter_is_Some _ _ (atom, index)); [| apply Hr].
  - intros Hnd H.
    by rewrite (last_filter_unique snd _ (atom, index) Hnd (Hd _ _ H)).
  - intros Hnd H.
    by rewrite (last_filter_unique fst _ (atom, index) Hnd (Hr _ _ H)).
Qed.

Lemma pot_dicts_cover_witness :
  (pot_dict_from_string potentials_card).1 !! "O" = Some 2
  /\ NoDup (entries potentials_card).*2
  /\ (pot_dict_from_string potentials_card).2 !! 2 = Some "O".
Proof.
  assert ((pot_dict_from_string potentials_card).1 !! "O" = Some 2) as Hd
    by by vm_compute.
  assert (NoDup (entries potentials_card).*2) as Hnd
    by (apply (bool_decide_unpack _); by vm_compute).
  split; [done |]. split; [done |].
  destruct (pot_dicts_cover potentials_card "O" 2) as (_ & _ & H & _).
  by apply H.
Defined.

End ReaderFacts.

(** ** Reading a store from a file *)

Section TagFileFacts.
Import PyStr FeffTags FeffTagsIO.

Lemma span_spec p s :
  s = (Py.span p s).1 +:+ (Py.span p s).2 /\ all_chars p (Py.span p s).1 = true.
Proof.
  induction s as [|c s [IH1 IH2]]; [done |]. cbn [Py.span].
  destruct (p c) eqn:Hc; [| done].
  destruct (Py.span p s) as [a b]. cbn [fst snd] in *.
  change (String c a +:+ b) with (String c (a +:+ b)).
  rewrite <- IH1. cbn [all_chars]. by rewrite Hc, IH2.
Qed.

Lemma all_chars_append p s t :
  all_chars p (s +:+ t) = all_chars p s && all_chars p t.
Proof.
  induction s as [|c s IH]; [done |].
  change (String c s +:+ t) with (String c (s +:+ t)). cbn [all_chars].
  by rewrite IH, andb_assoc.
Qed.

Lemma all_chars_impl (p q : ascii -> bool) s :
  (forall c, p c = true -> q c = true) ->
  all_chars p s = true -> all_chars q s = true.
Proof.
  intros Hpq. induction s as [|c s IH]; [done |]. cbn [all_chars].
  intros [Hc Hs]%andb_true_iff. by rewrite (Hpq c Hc), IH.
Qed.

Lemma strip_no_space s :
  all_chars (fun c => negb (Py.isspace c)) s = true -> Py.strip s = s.
Proof.
  intros Hs. unfold Py.strip.
  assert (Py.lstrip s = s) as ->.
  { destruct s as [|c s]; [done |]. cbn [all_chars] in Hs.
    apply andb_true_iff in Hs as [Hc _]. cbn [Py.lstrip].
    by apply negb_true_iff in Hc as ->. }
  induction s as [|c s IH]; [done |]. cbn [all_chars] in Hs.
  apply andb_true_iff in Hs as [Hc Hs]. cbn [Py.rstrip].
  rewrite IH by done. apply negb_true_iff in Hc as ->. by destruct s.
Qed.

Lemma startswith_append s t : startswith s (s +:+ t) = true.
Proof.
  induction s as [|c s IH]; [done |].
  change (String c s +:+ t) with (String c (s +:+ t)). cbn [startswith].
  by rewrite Ascii.eqb_refl, IH.
Qed.

Lemma append_assoc s t u : (s +:+ t) +:+ u = s +:+ (t +:+ u).
Proof.
  induction s as [|c s IH]; [done |].
  change (String c s +:+ t) with (String c (s +:+ t)).
  change (String c (s +:+ t) +:+ u) with (String c ((s +:+ t) +:+ u)).
  by rewrite IH.
Qed.

Lemma is_upper_not_space c : is_upper c = true -> Py.isspace c = false.
Proof.
  unfold is_upper, Py.isspace. intros [H1 H2]%andb_true_iff.
  apply Z.leb_le in H1, H2.
  apply orb_false_iff. split; apply andb_false_iff; right; apply Z.leb_gt; lia.
Qed.

Lemma tag_line_key line key val :
  tag_line line = Some (key, val) ->
  key <> "" /\ all_chars is_tag_char key = true /\ startswith key line = true.
Proof.
  unfold tag_line, tag_match.
  destruct (span_spec is_upper line) as [H1 H2].
  destruct (Py.span is_upper line) as [letters rest]. cbn [fst snd] in *.
  destruct letters as [|c letters]; [done |].
  destruct (span_spec Py.isdigit rest) as [H3 H4].
  destruct (Py.span Py.isdigit rest) as [digits rest1]. cbn [fst snd] in *.
  destruct (Py.span Py.isspace rest1) as [gap rest2].
  destruct (Py.span _ rest2) as [group2 rest3].
  intros [= <- <-].
  assert (all_chars is_tag_char (String c letters +:+ digits) = true) as Hkey.
  { rewrite all_chars_append. apply andb_true_iff. split.
    - revert H2. apply all_chars_impl. intros d Hd. unfold is_tag_char.
      by rewrite Hd.
    - revert H4. apply all_chars_impl. intros d Hd. unfold is_tag_char.
      by rewrite Hd, orb_true_r. }
  rewrite strip_no_space.
  - split; [done |]. split; [done |]. rewrite H1, H3, <- append_assoc.
    apply startswith_append.
  - revert Hkey. apply all_chars_impl. intros d [Hd | Hd]%orb_true_iff.
    + by rewrite (is_upper_not_space d Hd).
    + by rewrite (isdigit_not_space d Hd).
Qed.

Lemma from_file_step_tag params line :
  from_file_step (Return params) line
  = match tag_line line with
    | Some (key, val) =>
        v ← proc_val key val;
        Return (if Py.mem key markers then params else <[key := v]> params)
    | None => Return params
    end.
Proof.
  unfold from_file_step, tag_line. cbn [mbind result_bind].
  destruct (tag_match line) as [[group1 group2]|]; [| done].
  destruct (proc_val _ _) as [v|e]; cbn [mbind result_bind]; [| done].
  by destruct (Py.mem _ markers).
Qed.

Lemma tags_snoc l line :
  tags (l ++ [line])
  = tags l ++ match tag_line line with Some t => [t] | None => [] end.
Proof. unfold tags. rewrite omap_app. cbn. by destruct (tag_line line). Qed.

Lemma from_file_fold_raises l e :
  fold_left from_file_step l (Return ∅) = Raise e -> e = OverflowError.
Proof.
  induction l as [|line l IH] using rev_ind; [done |].
  rewrite fold_left_app. cbn [fold_left].
  destruct (fold_left from_file_step l (Return ∅)) as [params|e'].
  - rewrite from_file_step_tag.
    destruct (tag_line line) as [[key val]|]; [| done].
    destruct (proc_val key val) as [v|e'] eqn:Hv; [done |].
    intros [= <-]. by apply proc_val_exn in Hv.
  - intros [= <-]. by apply IH.
Qed.

Lemma from_file_fold_overflow l :
  Exists (fun t => proc_val t.1 t.2 = Raise OverflowError) (tags l) ->
  fold_left from_file_step l (Return ∅) = Raise OverflowError.
Proof.
  induction l as [|line l IH] using rev_ind.
  - by intros ?%Exists_nil.
  - rewrite tags_snoc, fold_left_app. cbn [fold_left].
    intros [H | H]%Exists_app; [by rewrite IH |].
    destruct (fold_left from_file_step l (Return ∅)) as [params|e] eqn:Hl.
    + rewrite from_file_step_tag.
      destruct (tag_line line) as [[key val]|]; [| by apply Exists_nil in H].
      apply Exists_cons in H as [H | H%Exists_nil]; [| done].
      cbn [fst snd] in H. by rewrite H.
    + apply from_file_fold_raises in Hl as ->. done.
Qed.

Lemma from_file_fold_returns l :
  Forall (fun t => is_Some (returned (proc_val t.1 t.2))) (tags l) ->
  exists params,
    fold_left from_file_step l (Return ∅) = Return params
    /\ forall key, params !! key
         = if Py.mem key markers then None else last_tag key (tags l).
Proof.
  induction l as [|line l IH] using rev_ind.
  - intros _. exists ∅. split; [done |]. intros key.
    rewrite lookup_empty. by destruct (Py.mem key markers).
  - rewrite tags_snoc, fold_left_app. cbn [fold_left].
    intros [Hl Hline]%Forall_app. destruct (IH Hl) as (params & -> & Hp).
    rewrite from_file_step_tag.
    destruct (tag_line line) as [[key val]|].
    + apply Forall_cons in Hline as [[v Hv] _]. cbn [fst snd] in Hv.
      destruct (proc_val key val) as [v'|e] eqn:Hpv; [| done].
      injection Hv as ->. cbn [mbind result_bind]. eexists. split; [done |].
      intros k. unfold last_tag. rewrite filter_app, filter_cons, filter_nil.
      cbn [fst]. destruct (Py.mem key markers) eqn:Hm.
      * rewrite Hp. destruct (Py.mem k markers) eqn:Hk; [done |].
        rewrite decide_False by congruence. by rewrite app_nil_r.
      * destruct (decide (key = k)) as [<- | Hne].
        -- rewrite lookup_insert_eq, Hm, last_snoc. cbn. by rewrite Hpv.
        -- rewrite lookup_insert_ne, Hp, app_nil_r by done. done.
    + exists params. split; [done |]. intros k. by rewrite app_nil_r.
Qed.

(** X24.  [from_file] on the cleaned lines.  A line gives a tag when it
    begins with an upper-case letter: the key is the run of upper-case
    letters and the digits after it, the value the rest of the line,
    stripped and processed by [proc_val].  When the value of some tag
    overflows, [from_file] raises [OverflowError] (also for a tag that
    would not be stored).  Otherwise it returns a store that holds, for
    every key other than [ATOMS], [POTENTIALS], [END] and [TITLE], the
    value of the last line with that key, and nothing else; every key of
    the store is made of upper-case letters and digits and begins a line
    of the file. *)
Theorem from_file_spec lines :
  (Exists (fun t => proc_val t.1 t.2 = Raise OverflowError) (tags lines) ->
     from_file lines = Raise OverflowError)
  /\ (Forall (fun t => is_Some (returned (proc_val t.1 t.2))) (tags lines) ->
      exists store,
        from_file lines = Return store
        /\ (forall key, store !! key
              = if Py.mem key markers then None else last_tag key (tags lines))
        /\ (forall key v, store !! key = Some v ->
              key <> "" /\ all_chars is_tag_char key = true
              /\ Exists (fun line => startswith key line = true) lines)).
Proof.
  unfold from_file. split.
  - intros H. by rewrite from_file_fold_overflow.
  - intros H. destruct (from_file_fold_returns lines H) as (params & -> & Hp).
    cbn [mbind result_bind]. rewrite init_params. exists params.
    split; [done |]. split; [done |].
    intros key v. rewrite Hp. destruct (Py.mem key markers); [done |].
    unfold last_tag. intros ([k val] & Hlast & _)%bind_Some.
    apply last_filter_elem in Hlast as [Hk Hin]. cbn [fst] in Hk. subst k.
    apply list_elem_of_omap in Hin as (line & Hline & Htag).
    destruct (tag_line_key line key val Htag) as (H1 & H2 & H3).
    split; [done |]. split; [done |]. apply Exists_exists. eauto.
Qed.

Lemma from_file_spec_witness :
  exists store,
    from_file parameter_lines = Return store
    /\ store !! "TITLE" = None
    /\ store !! "EDGE" = Some (VStr "L1")
    /\ store !! "S" = Some (VStr "Cf 7").
Proof.
  destruct (from_file_spec parameter_lines) as [_ H].
  destruct H as (store & Hs & Hl & _).
  { apply (bool_decide_unpack _). by vm_compute. }
  exists store. split; [done |]. rewrite !Hl. by vm_compute.
Defined.

End TagFileFacts.

(** ** Assigning twice, and the round trip through a dictionary *)

Section RoundTripFacts.
Import PyStr FeffTags FeffTagsIO.

Ltac by_char c := destruct c as [[] [] [] [] [] [] [] []]; try discriminate; reflexivity.

Lemma lower_char_idem c : Py.lower_char (Py.lower_char c) = Py.lower_char c.
Proof. by_char c. Qed.

Lemma lower_upper_char c : Py.lower_char (Py.upper_char c) = Py.lower_char c.
Proof. by_char c. Qed.

Lemma upper_char_idem c : Py.upper_char (Py.upper_char c) = Py.upper_char c.
Proof. by_char c. Qed.

Lemma isspace_blind : case_blind Py.isspace.
Proof. intros c. by_char c. Qed.

Lemma isspace_upper c : Py.isspace (Py.upper_char c) = Py.isspace c.
Proof. by_char c. Qed.

Lemma isdigit_blind : case_blind Py.isdigit.
Proof. intros c. by_char c. Qed.

Lemma is_num_char_blind : case_blind is_num_char.
Proof. intros c. by_char c. Qed.

Lemma is_e_blind : case_blind PyNum.is_e.
Proof. intros c. by_char c. Qed.

Lemma is_dot_blind : case_blind PyNum.is_dot.
Proof. intros c. by_char c. Qed.

Lemma num_char_lower c : is_num_char c = true -> Py.lower_char c = c.
Proof. by_char c. Qed.

Lemma digit_lower c : Py.isdigit c = true -> Py.lower_char c = c.
Proof. by_char c. Qed.

Lemma lower_lower s : Py.lower (Py.lower s) = Py.lower s.
Proof.
  induction s as [|c s IH]; [done |]. cbn [Py.lower].
  by rewrite lower_char_idem, IH.
Qed.

Lemma lower_capitalize s : Py.lower (Py.capitalize s) = Py.lower s.
Proof.
  destruct s as [|c s]; [done |]. cbn [Py.capitalize Py.lower].
  by rewrite lower_upper_char, lower_lower.
Qed.

Lemma capitalize_idem s : Py.capitalize (Py.capitalize s) = Py.capitalize s.
Proof.
  destruct s as [|c s]; [done |]. cbn [Py.capitalize].
  by rewrite upper_char_idem, lower_lower.
Qed.

Lemma lstrip_lower s : Py.lstrip (Py.lower s) = Py.lower (Py.lstrip s).
Proof.
  induction s as [|c s IH]; [done |]. cbn [Py.lower Py.lstrip].
  rewrite isspace_blind. by destruct (Py.isspace c).
Qed.

Lemma lower_empty s : Py.lower s = "" <-> s = "".
Proof. by destruct s. Qed.

Lemma rstrip_lower s : Py.rstrip (Py.lower s) = Py.lower (Py.rstrip s).
Proof.
  induction s as [|c s IH]; [done |]. cbn [Py.lower Py.rstrip].
  rewrite IH, isspace_blind.
  destruct (Py.rstrip s) as [|d r]; cbn [Py.lower]; [| done].
  by destruct (Py.isspace c).
Qed.

Lemma strip_lower s : Py.strip (Py.lower s) = Py.lower (Py.strip s).
Proof. unfold Py.strip. by rewrite lstrip_lower, rstrip_lower. Qed.

Lemma span_lower p s :
  case_blind p ->
  Py.span p (Py.lower s)
  = (Py.lower (Py.span p s).1, Py.lower (Py.span p s).2).
Proof.
  intros Hp. induction s as [|c s IH]; [done |]. cbn [Py.lower Py.span].
  rewrite Hp, IH. destruct (p c); [| done].
  by destruct (Py.span p s).
Qed.

Lemma span_lower_fixed p s :
  (forall c, p c = true -> Py.lower_char c = c) ->
  Py.lower (Py.span p s).1 = (Py.span p s).1.
Proof.
  intros Hp. induction s as [|c s IH]; [done |]. cbn [Py.span].
  destruct (p c) eqn:Hc; [| done].
  destruct (Py.span p s) as [a b]. cbn [fst Py.lower] in *.
  by rewrite (Hp c Hc), IH.
Qed.

Lemma re_split_lower s : forall b,
  Py.re_split_ws_from b (Py.lower s) = Py.lower <$> Py.re_split_ws_from b s.
Proof.
  induction s as [|c s IH]; intros b; [done |].
  cbn [Py.lower Py.re_split_ws_from]. rewrite isspace_blind, !IH.
  destruct (Py.isspace c); [by destruct b |].
  by destruct (Py.re_split_ws_from false s).
Qed.

Lemma contains_lower c0 s :
  (forall c, Ascii.eqb c0 (Py.lower_char c) = Ascii.eqb c0 c) ->
  Py.contains c0 (Py.lower s) = Py.contains c0 s.
Proof.
  intros Hc. induction s as [|c s IH]; [done |]. cbn [Py.lower Py.contains].
  by rewrite Hc, IH.
Qed.

Lemma split_sign_lower s :
  PyNum.split_sign (Py.lower s)
  = ((PyNum.split_sign s).1, Py.lower (PyNum.split_sign s).2).
Proof.
  destruct s as [|c s]; [done |].
  destruct c as [[] [] [] [] [] [] [] []]; reflexivity.
Qed.

Lemma digit_group_lower s : forall acc n prev,
  PyNum.digit_group_from acc n prev (Py.lower s)
  = PyNum.digit_group_from acc n prev s.
Proof.
  induction s as [|c s IH]; intros acc n prev; [done |].
  cbn [Py.lower PyNum.digit_group_from]. rewrite isdigit_blind.
  destruct (Py.isdigit c) eqn:Hc.
  - by rewrite (digit_lower c Hc), IH.
  - rewrite IH. f_equal. f_equal.
    destruct c as [[] [] [] [] [] [] [] []]; reflexivity.
Qed.

Lemma cut_lower p s :
  case_blind p ->
  PyNum.cut p (Py.lower s)
  = (Py.lower (PyNum.cut p s).1, Py.lower <$> (PyNum.cut p s).2).
Proof.
  intros Hp. induction s as [|c s IH]; [done |]. cbn [Py.lower PyNum.cut].
  rewrite Hp, IH. destruct (p c); [done |].
  by destruct (PyNum.cut p s).
Qed.

Lemma int_lower s : PyNum.int (Py.lower s) = PyNum.int s.
Proof.
  unfold PyNum.int. rewrite strip_lower, split_sign_lower.
  destruct (PyNum.split_sign (Py.strip s)) as [neg body]. cbn [fst snd].
  unfold PyNum.digit_group. by rewrite digit_group_lower.
Qed.

Lemma digits_or_empty_lower s :
  PyNum.digits_or_empty (Py.lower s) = PyNum.digits_or_empty s.
Proof.
  destruct s as [|c s]; [done |].
  change (PyNum.digits_or_empty (Py.lower (String c s)))
    with (PyNum.digit_group (Py.lower (String c s))).
  unfold PyNum.digits_or_empty, PyNum.digit_group. by rewrite digit_group_lower.
Qed.

Lemma exponent_lower s : PyNum.exponent (Py.lower <$> s) = PyNum.exponent s.
Proof.
  destruct s as [t|]; [| done]. cbn [fmap option_fmap option_map PyNum.exponent].
  rewrite split_sign_lower.
  destruct (PyNum.split_sign t) as [neg body]. cbn [fst snd].
  unfold PyNum.digit_group. by rewrite digit_group_lower.
Qed.

Lemma float_lower s : PyNum.float (Py.lower s) = PyNum.float s.
Proof.
  unfold PyNum.float. rewrite strip_lower, split_sign_lower.
  destruct (PyNum.split_sign (Py.strip s)) as [neg body]. cbn [fst snd].
  rewrite lower_lower.
  destruct (_ || _); [done |]. destruct (String.eqb _ "nan"); [done |].
  rewrite (cut_lower _ _ is_e_blind).
  destruct (PyNum.cut PyNum.is_e body) as [mant ex]. cbn [fst snd].
  rewrite (cut_lower _ _ is_dot_blind).
  destruct (PyNum.cut PyNum.is_dot mant) as [ip fp]. cbn [fst snd].
  rewrite digits_or_empty_lower, exponent_lower.
  replace (default "" (Py.lower <$> fp)) with (Py.lower (default "" fp))
    by by destruct fp.
  by rewrite digits_or_empty_lower.
Qed.

Lemma smart_lower s : smart_int_or_float (Py.lower s) = smart_int_or_float s.
Proof.
  unfold smart_int_or_float.
  rewrite lower_lower, float_lower, int_lower, contains_lower; [done |].
  intros c. destruct c as [[] [] [] [] [] [] [] []]; reflexivity.
Qed.

Lemma repeat_match_lower tok : repeat_match (Py.lower tok) = repeat_match tok.
Proof.
  unfold repeat_match. rewrite (span_lower _ _ isdigit_blind).
  rewrite (span_lower_fixed _ _ digit_lower).
  destruct (Py.span Py.isdigit tok) as [g1 rest]. cbn [fst snd].
  destruct g1 as [|d g1]; [done |].
  destruct rest as [|c rest]; [done |]. cbn [Py.lower].
  assert (match Py.lower_char c with "*"%char => true | _ => false end
          = match c with "*"%char => true | _ => false end) as Hstar
    by (destruct c as [[] [] [] [] [] [] [] []]; reflexivity).
  destruct c as [[] [] [] [] [] [] [] []]; try reflexivity.
  change (Py.lower_char "*") with "*"%char. cbv iota.
  rewrite (span_lower _ _ is_num_char_blind).
  rewrite (span_lower_fixed _ _ num_char_lower).
  by destruct (Py.span is_num_char rest) as [g2 rest'].
Qed.

Lemma list_class_loop_lower toks : forall output,
  list_class_loop (Py.lower <$> toks) output = list_class_loop toks output.
Proof.
  induction toks as [|tok toks IH]; intros output; [done |].
  cbn [fmap list_fmap list_class_loop].
  rewrite repeat_match_lower, smart_lower.
  destruct (repeat_match tok) as [[g1 g2]|].
  - destruct (smart_int_or_float g2) as [v|e]; cbn [mbind result_bind]; [| done].
    destruct (PyNum.int g1) as [n|e]; cbn [mbind result_bind]; [| done].
    destruct (list_repeat [v] n) as [vs|e]; cbn [mbind result_bind]; [| done].
    apply IH.
  - destruct (smart_int_or_float tok) as [v|e]; cbn [mbind result_bind]; [| done].
    apply IH.
Qed.

Lemma list_class_lower val : list_class (Py.lower val) = list_class val.
Proof.
  unfold list_class, Py.re_split_ws.
  by rewrite re_split_lower, list_class_loop_lower.
Qed.

Lemma list_class_capitalize val : list_class (Py.capitalize val) = list_class val.
Proof.
  by rewrite <- (list_class_lower (Py.capitalize val)), lower_capitalize,
    list_class_lower.
Qed.

(** *** Values that are stored as they are *)

Lemma lstrip_head s :
  Py.lstrip s = "" \/ exists c r, Py.lstrip s = String c r /\ Py.isspace c = false.
Proof.
  induction s as [|c s IH]; [by left |]. cbn [Py.lstrip].
  destruct (Py.isspace c) eqn:Hc; [done |]. right. by exists c, s.
Qed.

Lemma rstrip_idem s : Py.rstrip (Py.rstrip s) = Py.rstrip s.
Proof.
  induction s as [|c s IH]; [done |]. cbn [Py.rstrip].
  destruct (Py.rstrip s) as [|d r] eqn:Hr.
  - destruct (Py.isspace c) eqn:Hc; [done |]. cbn [Py.rstrip]. by rewrite Hc.
  - cbn [Py.rstrip] in *. by rewrite IH.
Qed.

Lemma rstrip_head c s :
  Py.isspace c = false -> exists r, Py.rstrip (String c s) = String c r.
Proof.
  intros Hc. cbn [Py.rstrip]. rewrite Hc.
  destruct (Py.rstrip s); by eexists.
Qed.

Lemma strip_head s :
  Py.strip s = "" \/ exists c r, Py.strip s = String c r /\ Py.isspace c = false.
Proof.
  unfold Py.strip. destruct (lstrip_head s) as [-> | (c & r & -> & Hc)]; [by left |].
  right. destruct (rstrip_head c r Hc) as [r' ->]. by exists c, r'.
Qed.

Lemma strip_strip s : Py.strip (Py.strip s) = Py.strip s.
Proof.
  destruct (strip_head s) as [-> | (c & r & Hs & Hc)]; [done |].
  unfold Py.strip at 1. rewrite Hs. cbn [Py.lstrip]. rewrite Hc, <- Hs.
  unfold Py.strip. apply rstrip_idem.
Qed.

Lemma rstrip_capitalize s : Py.rstrip (Py.capitalize s) = Py.capitalize (Py.rstrip s).
Proof.
  destruct s as [|c s]; [done |]. cbn [Py.capitalize Py.rstrip].
  rewrite rstrip_lower, isspace_upper.
  destruct (Py.rstrip s) as [|d r]; cbn [Py.lower Py.capitalize]; [| done].
  by destruct (Py.isspace c).
Qed.

Lemma strip_capitalize_strip s :
  Py.strip (Py.capitalize (Py.strip s)) = Py.capitalize (Py.strip s).
Proof.
  destruct (strip_head s) as [-> | (c & r & Hs & Hc)]; [done |].
  unfold Py.strip at 1. rewrite Hs at 1. cbn [Py.capitalize Py.lstrip].
  rewrite isspace_upper, Hc.
  change (String (Py.upper_char c) (Py.lower r)) with (Py.capitalize (String c r)).
  rewrite <- Hs, rstrip_capitalize. f_equal. unfold Py.strip. apply rstrip_idem.
Qed.

Lemma proc_val_listed key val :
  Py.mem key list_type_keys = true ->
  proc_val key val = except_ValueError (list_class val) (fallback val).
Proof.
  intros Hk. unfold proc_val, proc_val_with, if_then, and_then. cbn zeta.
  by rewrite Hk.
Qed.

Lemma list_class_no_text val t : list_class val <> Return (VStr t).
Proof.
  unfold list_class. by destruct (list_class_loop _ []).
Qed.

(** A text that [proc_val] returns is the capitalized value, and the
    capitalized value is processed to itself. *)
Lemma proc_val_text key val t :
  proc_val key val = Return (VStr t) ->
  t = Py.capitalize val /\ proc_val key (Py.capitalize val) = Return (VStr t).
Proof.
  destruct (Py.mem key list_type_keys) eqn:Hk.
  - rewrite !proc_val_listed by done. rewrite list_class_capitalize.
    destruct (list_class val) as [v|[]] eqn:Hv; cbn; try done.
    + intros [= ->]. by apply list_class_no_text in Hv.
    + unfold fallback. intros [= <-]. by rewrite capitalize_idem.
  - rewrite !proc_val_unlisted by done. unfold fallback.
    intros [= <-]. by rewrite capitalize_idem.
Qed.

Lemma setitem_settled (self : gmap string value) key v :
  settled key v -> (__setitem__ self key v).2 = Return (<[key := v]> self).
Proof.
  intros [Hk Hv]. unfold __setitem__. cbn [snd]. rewrite Hk.
  destruct v as [n|f|b|t|l]; try done. by rewrite (Hv t eq_refl).
Qed.

Lemma setitem_settles (self : gmap string value) key val store :
  (__setitem__ self key val).2 = Return store ->
  exists v, store = <[Py.strip key := v]> self /\ settled (Py.strip key) v.
Proof.
  unfold __setitem__. cbn [snd].
  assert (forall v, (forall t, val <> VStr t) -> v = val ->
            settled (Py.strip key) v) as Hother.
  { intros v Hval ->. split; [apply strip_strip |]. intros t ->. by destruct (Hval t). }
  destruct val as [n|f|b|s|l]; cbn [mbind result_bind];
    try (intros [= <-]; eexists; split; [done |]; by apply Hother).
  destruct (proc_val (Py.strip key) (Py.strip s)) as [v|e] eqn:Hv;
    cbn [mbind result_bind]; [| done].
  intros [= <-]. exists v. split; [done |]. split; [apply strip_strip |].
  intros t ->. apply proc_val_text in Hv as [-> Hv].
  by rewrite strip_capitalize_strip.
Qed.

(** X25.  An assignment is idempotent: when [self[key] = val] succeeds,
    assigning the value now stored under the name again, to this or to
    any store, stores that same value (a text that was capitalized or a
    parsed list is not changed a second time).  So a store whose entries
    are all stored as they are stays such a store. *)
Theorem setitem_idempotent (self : gmap string value) key val store :
  (__setitem__ self key val).2 = Return store ->
  (exists v, store !! Py.strip key = Some v
             /\ (__setitem__ store key v).2 = Return store
             /\ forall other, (__setitem__ other key v).2
                              = Return (<[Py.strip key := v]> other))
  /\ (settled_store self -> settled_store store).
Proof.
  intros (v & -> & Hv)%setitem_settles.
  assert (forall other, (__setitem__ other key v).2
                        = Return (<[Py.strip key := v]> other)) as Hagain.
  { intros other. destruct Hv as [Hk Hv]. unfold __setitem__. cbn [snd].
    destruct v as [n|f|b|t|l]; try done. by rewrite (Hv t eq_refl). }
  split.
  - exists v. rewrite lookup_insert_eq. split; [done |]. split; [| done].
    by rewrite Hagain, insert_insert_eq.
  - intros Hself k w [[<- <-] | [Hne Hw]]%lookup_insert_Some; [done |].
    by apply Hself.
Qed.

Lemma setitem_idempotent_witness :
  (__setitem__ ∅ " EDGE " (VStr "k")).2 = Return {[ "EDGE" := VStr "K" ]}
  /\ (__setitem__ {[ "EDGE" := VStr "K" ]} " EDGE " (VStr "K")).2
     = Return {[ "EDGE" := VStr "K" ]}.
Proof.
  assert ((__setitem__ ∅ " EDGE " (VStr "k")).2
          = Return {[ "EDGE" := VStr "K" ]}) as H by by vm_compute.
  split; [done |].
  destruct (setitem_idempotent _ _ _ _ H) as [(v & Hv & Hagain & _) _].
  vm_compute in Hv. injection Hv as <-. exact Hagain.
Defined.

Lemma from_dict_fold items : forall acc,
  (forall k v, (k, v) ∈ items -> Py.mem k meta_keys = false -> settled k v) ->
  fold_left from_dict_step items (Return acc)
  = Return (fold_left keep_entry items acc).
Proof.
  induction items as [|[k v] items IH]; intros acc Hs; [done |].
  cbn [fold_left]. unfold from_dict_step at 2, keep_entry at 2.
  cbn [mbind result_bind fst snd].
  destruct (Py.mem k meta_keys) eqn:Hk.
  - apply IH. intros k' v' Hin. apply Hs. by right.
  - rewrite setitem_settled by (apply Hs; [by left | done]).
    apply IH. intros k' v' Hin. apply Hs. by right.
Qed.

Lemma keep_entry_lookup items : forall acc k,
  NoDup items.*1 ->
  fold_left keep_entry items acc !! k
  = if Py.mem k meta_keys then acc !! k
    else match (list_to_map items : gmap string value) !! k with
         | Some v => Some v
         | None => acc !! k
         end.
Proof.
  induction items as [|[k0 v0] items IH]; intros acc k Hnd.
  - cbn [fold_left]. rewrite list_to_map_nil, lookup_empty.
    by destruct (Py.mem k meta_keys).
  - rewrite fmap_cons in Hnd. apply NoDup_cons in Hnd as [Hk0 Hnd].
    cbn [fold_left fst snd]. rewrite list_to_map_cons, IH by done.
    unfold keep_entry. cbn [fst snd].
    apply not_elem_of_list_to_map_1 in Hk0.
    destruct (Py.mem k meta_keys) eqn:Hk.
    + destruct (Py.mem k0 meta_keys) eqn:Hk0'; [done |].
      rewrite lookup_insert_ne; [done | congruence].
    + destruct (decide (k0 = k)) as [-> | Hne].
      * rewrite Hk, lookup_insert_eq.
        rewrite (Hk0 : (list_to_map items : gmap string value) !! k = None).
        by rewrite lookup_insert_eq.
      * rewrite !(lookup_insert_ne _ k0 k) by done.
        destruct (list_to_map items !! k); [done |].
        destruct (Py.mem k0 meta_keys); [done |].
        by rewrite lookup_insert_ne.
Qed.

Lemma mem_meta_keys k :
  Py.mem k meta_keys = true <-> k = "@module" \/ k = "@class".
Proof.
  unfold meta_keys. cbn [Py.mem].
  destruct (String.eqb_spec k "@module") as [-> | H1]; [by intuition |].
  destruct (String.eqb_spec k "@class") as [-> | H2]; [by intuition |].
  cbn. intuition congruence.
Qed.

Lemma from_dict_settled (store : gmap string value) items :
  settled_store store ->
  items ≡ₚ map_to_list (as_dict store) ->
  from_dict items = Return (delete "@class" (delete "@module" store)).
Proof.
  intros Hstore Hitems.
  assert (NoDup items.*1) as Hnd
    by (rewrite Hitems; apply NoDup_fst_map_to_list).
  assert ((list_to_map items : gmap string value) = as_dict store) as Hmap.
  { rewrite (list_to_map_proper _ _ Hnd Hitems). apply list_to_map_to_list. }
  assert (forall k, Py.mem k meta_keys = false ->
            as_dict store !! k = store !! k) as Hlook.
  { intros k Hk. unfold as_dict.
    rewrite !lookup_insert_ne; [done | |]; intros <-; by vm_compute in Hk. }
  unfold from_dict. rewrite from_dict_fold.
  - f_equal. apply map_eq. intros k. rewrite keep_entry_lookup, Hmap by done.
    destruct (Py.mem k meta_keys) eqn:Hk.
    + apply mem_meta_keys in Hk as [-> | ->].
      * rewrite lookup_empty, lookup_delete_ne by done.
        by rewrite lookup_delete_eq.
      * by rewrite lookup_empty, lookup_delete_eq.
    + rewrite Hlook, lookup_empty by done.
      rewrite !lookup_delete_ne; [by destruct (store !! k) | |];
        intros <-; by vm_compute in Hk.
  - intros k v Hin Hk. apply Hstore. rewrite <- Hlook by done.
    apply elem_of_map_to_list. by rewrite <- Hitems.
Qed.

Lemma delete_meta_keys (store : gmap string value) :
  store !! "@module" = None -> store !! "@class" = None ->
  delete "@class" (delete "@module" store) = store.
Proof.
  intros H1 H2. by rewrite !delete_id by (by rewrite ?lookup_delete_ne).
Qed.

(** X26.  The round trip through [as_dict] and [from_dict], for a store
    whose entries are stored as they are (as are the entries made by
    assignments) and in whatever order the dictionary lists its items:
    [from_dict] gives the store back without the keys ["@module"] and
    ["@class"], so the very store when it has neither key. *)
Theorem from_dict_as_dict (store : gmap string value) items :
  settled_store store ->
  items ≡ₚ map_to_list (as_dict store) ->
  from_dict items = Return (delete "@class" (delete "@module" store))
  /\ (store !! "@module" = None -> store !! "@class" = None ->
      from_dict items = Return store).
Proof.
  intros Hstore Hitems.
  rewrite (from_dict_settled store items Hstore Hitems).
  split; [done |]. intros H1 H2. by rewrite delete_meta_keys.
Qed.

Lemma from_dict_as_dict_witness :
  from_dict (map_to_list (as_dict Examples.two_tags)) = Return Examples.two_tags.
Proof.
  assert (settled_store Examples.two_tags) as Hs.
  { intros k v. unfold Examples.two_tags.
    intros [[<- <-] | [_ [<- <-]%lookup_singleton_Some]]%lookup_insert_Some.
    - split; [by vm_compute |]. intros t [= <-]. by vm_compute.
    - split; [by vm_compute |]. intros t [=]. }
  destruct (from_dict_as_dict Examples.two_tags
              (map_to_list (as_dict Examples.two_tags)) Hs) as [_ H]; [done |].
  apply H; by vm_compute.
Defined.

Lemma proc_val_settles key val v :
  proc_val (Py.strip key) (Py.strip val) = Return v -> settled (Py.strip key) v.
Proof.
  intros Hv. split; [apply strip_strip |].
  intros t ->. apply proc_val_text in Hv as [-> Hv].
  by rewrite strip_capitalize_strip.
Qed.

Lemma from_file_returns_all lines store :
  from_file lines = Return store ->
  Forall (fun t => is_Some (returned (proc_val t.1 t.2))) (tags lines).
Proof.
  intros Hs.
  destruct (decide (Forall (fun t => is_Some (returned (proc_val t.1 t.2)))
                      (tags lines))) as [H | H]; [done |].
  apply not_Forall_Exists in H; [| apply _].
  unfold from_file in Hs. rewrite from_file_fold_overflow in Hs; [done |].
  eapply Exists_impl; [exact H |]. intros [k val] Hn. cbn [fst snd compose] in *.
  destruct (proc_val k val) as [v|e] eqn:Hv.
  - destruct Hn. by eexists.
  - by apply proc_val_exn in Hv as ->.
Qed.

Lemma tag_line_stripped line key val :
  tag_line line = Some (key, val) -> Py.strip key = key /\ Py.strip val = val.
Proof.
  unfold tag_line. destruct (tag_match line) as [[g1 g2]|]; [| done].
  intros [= <- <-]. by rewrite !strip_strip.
Qed.

(** X27.  A store read by [from_file] survives the round trip through
    [as_dict] and [from_dict] unchanged. *)
Theorem from_file_round_trip lines store items :
  from_file lines = Return store ->
  items ≡ₚ map_to_list (as_dict store) ->
  from_dict items = Return store.
Proof.
  intros Hfile Hitems.
  pose proof (from_file_returns_all lines store Hfile) as Hall.
  destruct (from_file_fold_returns lines Hall) as (params & Hfold & Hp).
  unfold from_file in Hfile. rewrite Hfold in Hfile.
  cbn [mbind result_bind] in Hfile. rewrite init_params in Hfile.
  injection Hfile as <-.
  assert (forall k v, params !! k = Some v ->
            exists line val, line ∈ lines /\ tag_line line = Some (k, val)
                             /\ proc_val k val = Return v) as Hentry.
  { intros k v. rewrite Hp. destruct (Py.mem k markers); [done |].
    unfold last_tag. intros ([k' val] & Hlast & Hv)%bind_Some.
    apply last_filter_elem in Hlast as [Hk Hin]. cbn [fst snd] in *. subst k'.
    apply list_elem_of_omap in Hin as (line & Hline & Htag).
    exists line, val. split; [done |]. split; [done |].
    destruct (proc_val k val); cbn in Hv; congruence. }
  assert (forall k, is_Some (params !! k) -> all_chars is_tag_char k = true)
    as Hshape.
  { intros k [v (line & val & _ & Htag & _)%Hentry].
    by apply tag_line_key in Htag as (_ & ? & _). }
  rewrite (from_dict_settled params items); [| | done].
  - f_equal. apply delete_meta_keys.
    + destruct (params !! "@module") eqn:Hm; [| done].
      by specialize (Hshape "@module" (mk_is_Some _ _ Hm)).
    + destruct (params !! "@class") eqn:Hm; [| done].
      by specialize (Hshape "@class" (mk_is_Some _ _ Hm)).
  - intros k v (line & val & _ & Htag & Hv)%Hentry.
    apply tag_line_stripped in Htag as [Hk Hval].
    rewrite <- Hk. apply (proc_val_settles k val). by rewrite Hk, Hval.
Qed.

Lemma from_file_round_trip_witness :
  exists store,
    from_file parameter_lines = Return store
    /\ from_dict (map_to_list (as_dict store)) = Return store.
Proof.
  destruct (from_file parameter_lines) as [store|e] eqn:Hs; [| by vm_compute in Hs].
  exists store. split; [done |].
  by apply (from_file_round_trip parameter_lines).
Defined.

End RoundTripFacts.

(** ** The table of potentials *)

Section PotFacts.
Import FeffPot.

Lemma insert_by_perm {A : Type} (key : A -> Z) a l : insert_by key a l ≡ₚ a :: l.
Proof.
  induction l as [|b l IH]; [done |]. cbn [insert_by].
  destruct (key b <? key a); [| done]. rewrite IH. apply Permutation_swap.
Qed.

Lemma sorted_by_perm {A : Type} (key : A -> Z) l : sorted_by key l ≡ₚ l.
Proof.
  induction l as [|a l IH]; [done |]. cbn [sorted_by foldr].
  fold (sorted_by key l). by rewrite insert_by_perm, IH.
Qed.

Lemma insert_by_order {A : Type} (key : A -> Z) a l :
  Sorted (fun x y => key x <= key y) l ->
  Sorted (fun x y => key x <= key y) (insert_by key a l).
Proof.
  induction 1 as [|b l Hl IH Hb]; [by repeat constructor |].
  cbn [insert_by]. destruct (key b <? key a) eqn:Hba.
  - apply Z.ltb_lt in Hba. constructor; [done |].
    destruct Hb as [|c l Hbc]; cbn [insert_by].
    + constructor. lia.
    + destruct (key c <? key a); constructor; [done | lia].
  - apply Z.ltb_ge in Hba. constructor; [by constructor |]. by constructor.
Qed.

Lemma sorted_by_order {A : Type} (key : A -> Z) l :
  Sorted (fun x y => key x <= key y) (sorted_by key l).
Proof.
  induction l as [|a l IH]; [constructor |]. by apply insert_by_order.
Qed.

Lemma Sorted_fmap_key {A : Type} (key : A -> Z) l :
  Sorted (fun x y => key x <= key y) l -> Sorted Z.le (key <$> l).
Proof.
  induction 1 as [|a l Hl IH Ha]; [constructor |]. rewrite fmap_cons.
  constructor; [done |]. destruct Ha; constructor; done.
Qed.

Lemma Sorted_seqZ m n : Sorted Z.le (seqZ m n).
Proof.
  destruct (decide (n <= 0)) as [Hn | Hn]; [rewrite seqZ_nil by done; constructor |].
  rewrite <- (Z2Nat.id n) by lia.
  generalize (Z.to_nat n) as k. clear. intros k. revert m.
  induction k as [|k IH]; intros m; [constructor |].
  rewrite seqZ_cons by lia. replace (Z.pred (Z.of_nat (S k))) with (Z.of_nat k) by lia.
  constructor; [apply IH |].
  destruct k as [|k]; [constructor |].
  rewrite seqZ_cons by lia. constructor. lia.
Qed.

Lemma index_elem a l :
  a ∈ l -> exists i, FeffAtoms.index a l = Return i /\ l !! i = Some a.
Proof.
  intros Ha. destruct (FeffAtoms.index a l) as [i|e] eqn:Hi.
  - exists i. split; [done |]. by apply index_returns.
  - by apply index_raises in Hi as [? _].
Qed.

Lemma composition_rows_missing self items :
  Exists (fun item => pot_dict self !! el_symbol item.1 = None) items ->
  composition_rows self items = Raise KeyError.
Proof.
  induction items as [|item items IH]; [by intros ?%Exists_nil |].
  cbn [composition_rows]. unfold composition_row at 1.
  destruct (pot_dict self !! el_symbol item.1) as [v|] eqn:Hv; [| done].
  intros [H | H]%Exists_cons; [congruence |].
  cbn [mbind result_bind]. by rewrite IH.
Qed.

Lemma composition_rows_present self items :
  Forall (fun item => is_Some (pot_dict self !! el_symbol item.1)) items ->
  exists rows, composition_rows self items = Return rows
               /\ Forall2 (row_of self) items rows.
Proof.
  induction 1 as [|item items [v Hv] _ (rows & IH & Hrows)].
  - exists []. by split; [| constructor].
  - cbn [composition_rows]. unfold composition_row at 1. rewrite Hv, IH.
    cbn [mbind result_bind]. eexists. split; [done |].
    constructor; [| done]. by repeat split.
Qed.

(** X28.  The outcomes of building the table of [FeffPot.__str__]: it
    raises [ValueError] when no site has the central species and
    [KeyError] when the composition names an element that the potential
    dictionary does not hold; otherwise the table has one row for the
    central atom, with index 0, and one row per item of the composition,
    in ascending order of the potential index. *)
Theorem ipot_sorted_outcome self :
  let syms := el_symbol <$> species (struct self) in
  let items := composition (struct self) in
  (central_atom self ∉ syms -> ipot_sorted self = Raise ValueError)
  /\ (central_atom self ∈ syms ->
      (Exists (fun item => pot_dict self !! el_symbol item.1 = None) items ->
         ipot_sorted self = Raise KeyError)
      /\ (Forall (fun item => is_Some (pot_dict self !! el_symbol item.1)) items ->
          exists rows,
            ipot_sorted self = Return rows
            /\ length rows = S (length items)
            /\ Sorted Z.le (ipot <$> rows)
            /\ (exists r, r ∈ rows /\ ipot r = 0 /\ cs r = central_atom self))).
Proof.
  cbn zeta. unfold ipot_sorted. split.
  - intros Hc. destruct (FeffAtoms.index _ _) as [i|e] eqn:Hi.
    + apply index_returns in Hi. destruct Hc. by eapply list_elem_of_lookup_2.
    + by apply index_raises in Hi as [_ ->].
  - intros (i & -> & Hi)%index_elem. cbn [mbind result_bind].
    rewrite list_lookup_fmap in Hi.
    destruct (species (struct self) !! i) as [center|]; [| done].
    injection Hi as Hc. split.
    + intros H. by rewrite composition_rows_missing.
    + intros (rest & -> & Hrest)%composition_rows_present.
      cbn [mbind result_bind]. eexists. split; [done |].
      split; [| split].
      * rewrite sorted_by_perm. cbn [length]. f_equal.
        symmetry. by eapply Forall2_length.
      * apply Sorted_fmap_key, sorted_by_order.
      * exists (PotRow 0 (el_Z center) (el_symbol center) (-1) (-1) trace 0).
        split; [| by split]. rewrite sorted_by_perm. by left.
Qed.

Lemma make_pot_dict_column atoms :
  NoDup atoms ->
  (fun a => default 0 (FeffAtoms.make_pot_dict atoms !! a)) <$> atoms
  = seqZ 1 (Z.of_nat (length atoms)).
Proof.
  intros Hnd. apply list_eq. intros i. rewrite list_lookup_fmap.
  destruct (atoms !! i) as [a|] eqn:Ha; cbn.
  - assert (FeffAtoms.make_pot_dict atoms !! a = Some (Z.of_nat i + 1)) as ->
      by (apply make_pot_dict_lookup; eauto).
    apply lookup_lt_Some in Ha. cbn. symmetry.
    rewrite lookup_seqZ. split; lia.
  - apply lookup_ge_None in Ha. symmetry. apply lookup_seqZ_ge. lia.
Qed.

(** X29.  For an object made by the constructor whose central species
    is in the structure, and a composition that lists every element of
    the structure once, the table has the potential indices 0, 1, ..., N
    in this order: row 0 is the central atom, and row [i + 1] is the
    [i]-th distinct species in the order of first occurrence among the
    sites, with the atomic number and the amount that the composition
    gives it, whatever the order of the composition. *)
Theorem ipot_sorted_table struct central self :
  init struct central = Return self ->
  central ∈ el_symbol <$> species struct ->
  NoDup ((el_symbol ∘ fst) <$> composition struct) ->
  (forall a, a ∈ (el_symbol ∘ fst) <$> composition struct
             <-> a ∈ el_symbol <$> species struct) ->
  let atoms := Groups.first_occurrences (el_symbol <$> species struct) in
  exists rows,
    ipot_sorted self = Return rows
    /\ ipot <$> rows = seqZ 0 (Z.of_nat (length atoms) + 1)
    /\ (exists r, rows !! 0%nat = Some r /\ cs r = central)
    /\ (forall i r, rows !! S i = Some r ->
          atoms !! i = Some (cs r)
          /\ exists item, item ∈ composition struct
                          /\ el_symbol item.1 = cs r /\ cz r = el_Z item.1
                          /\ stoic r = item.2).
Proof.
  unfold init. destruct (is_ordered struct); [| discriminate].
  intros [= <-] Hcentral Hnd Hsame. cbn zeta.
  rewrite unique_pot_atoms_eq.
  set (atoms := Groups.first_occurrences (el_symbol <$> species struct)).
  pose proof (first_occurrences_NoDup (el_symbol <$> species struct)) as Hatoms.
  fold atoms in Hatoms.
  pose (self := Make central struct (FeffAtoms.make_pot_dict atoms)).
  change (Make central struct (FeffAtoms.make_pot_dict atoms)) with self.
  assert ((el_symbol ∘ fst) <$> composition struct ≡ₚ atoms) as Hperm.
  { apply NoDup_Permutation; [done | done |]. intros a.
    rewrite Hsame. symmetry. apply first_occurrences_elem. }
  (* the central row *)
  destruct (index_elem central _ Hcentral) as (idx & Hindex & Hidx).
  rewrite list_lookup_fmap in Hidx.
  destruct (species struct !! idx) as [center|] eqn:Hlook; [| done].
  injection Hidx as Hcenter.
  set (first := PotRow 0 (el_Z center) (el_symbol center) (-1) (-1) trace 0).
  (* the rows of the composition *)
  destruct (composition_rows_present self (composition struct))
    as (rest & Hcomp & Hrest).
  { apply Forall_forall. intros item Hitem. unfold self. cbn [pot_dict].
    apply make_pot_dict_keys. rewrite <- Hperm.
    apply (list_elem_of_fmap_2 (el_symbol ∘ fst)) in Hitem. exact Hitem. }
  assert (ipot_sorted self = Return (sorted_by ipot (first :: rest))) as Hrun.
  { unfold ipot_sorted. change (central_atom self) with central.
    change (FeffPot.struct self) with struct.
    rewrite Hindex. cbn [mbind result_bind]. rewrite Hlook, Hcomp. done. }
  assert (ipot <$> rest
          = (fun a => default 0 (FeffAtoms.make_pot_dict atoms !! a))
              <$> ((el_symbol ∘ fst) <$> composition struct)) as Hcol.
  { clear -Hrest. induction Hrest as [|item r items rows (Hr & _) _ IH]; [done |].
    rewrite !fmap_cons, IH. f_equal. unfold self in Hr.
    cbn [pot_dict compose] in *. by rewrite Hr. }
  assert (forall r, r ∈ rest ->
            exists item, item ∈ composition struct /\ row_of self item r)
    as Hitem.
  { intros r (j & Hj)%list_elem_of_lookup_1.
    destruct (Forall2_lookup_r _ _ _ _ _ Hrest Hj) as (item & Hi & Hrow).
    exists item. split; [by eapply list_elem_of_lookup_2 | done]. }
  set (rows := sorted_by ipot (first :: rest)).
  assert (ipot <$> rows = seqZ 0 (Z.of_nat (length atoms) + 1)) as Hipot.
  { apply (Sorted_unique Z.le).
    - apply Sorted_fmap_key, sorted_by_order.
    - apply Sorted_seqZ.
    - unfold rows. rewrite sorted_by_perm, fmap_cons, Hcol, Hperm.
      rewrite make_pot_dict_column by done.
      rewrite (seqZ_cons 0) by lia. cbn [ipot first].
      by replace (Z.pred (Z.of_nat (length atoms) + 1))
        with (Z.of_nat (length atoms)) by lia. }
  assert (forall (i : nat) r, rows !! i = Some r ->
            ipot r = Z.of_nat i /\ (r = first \/ r ∈ rest)) as Hrow.
  { intros i r Hr. split.
    - assert ((ipot <$> rows) !! i = Some (ipot r)) as H
        by by rewrite list_lookup_fmap, Hr.
      rewrite Hipot in H. apply lookup_seqZ in H. lia.
    - apply list_elem_of_lookup_2 in Hr. unfold rows in Hr.
      rewrite sorted_by_perm in Hr. by apply elem_of_cons in Hr. }
  assert (forall r, r ∈ rest -> 1 <= ipot r) as Hpos.
  { intros r (item & _ & Hr & _)%Hitem. unfold self in Hr. cbn [pot_dict] in Hr.
    by eapply make_pot_dict_values. }
  exists rows. split; [done |]. split; [done |]. split.
  - destruct (rows !! 0%nat) as [r|] eqn:Hr.
    + exists r. split; [done |].
      destruct (Hrow 0%nat r Hr) as [H0 [-> | Hin]]; [done |].
      apply Hpos in Hin. lia.
    + apply lookup_ge_None in Hr.
      assert (length rows = S (length rest)) as Hlen
        by (unfold rows; by rewrite sorted_by_perm).
      lia.
  - intros i r Hr. destruct (Hrow (S i) r Hr) as [Hi [-> | Hin]]; [done |].
    destruct (Hitem r Hin) as (item & Hin' & Hd & Hcs & Hcz & Hst).
    split; [| exists item; by rewrite Hcs].
    unfold self in Hd. cbn [pot_dict] in Hd. rewrite <- Hcs in Hd.
    apply make_pot_dict_lookup in Hd as (j & Hj & Hij); [| done].
    assert (j = i) as -> by lia. done.
Qed.

Lemma ipot_sorted_table_witness :
  exists rows,
    ipot_sorted CoO2_pot = Return rows
    /\ ipot <$> rows = [0; 1; 2]
    /\ cs <$> rows = ["Co"; "Co"; "O"].
Proof.
  destruct (ipot_sorted_table CoO2 "Co" CoO2_pot eq_refl)
    as (rows & Hrun & Hipot & _).
  - apply (bool_decide_unpack _). by vm_compute.
  - apply (bool_decide_unpack _). by vm_compute.
  - intros a. cbn. rewrite !elem_of_cons, !elem_of_nil. tauto.
  - exists rows. split; [done |]. split; [by rewrite Hipot |].
    vm_compute in Hrun. by injection Hrun as <-.
Defined.

End PotFacts.

(** ** Lists made by [proc_val] hold no NaN *)

Section NoNaN.
Import PyStr FeffTags FeffTagsIO.

(** Rounding a mantissa that is not negative does not give a NaN. *)
Lemma shr_1_nonneg mrs : 0 <= shr_m mrs -> 0 <= shr_m (shr_1 mrs).
Proof.
  destruct mrs as [m r s]. cbn [shr_m shr_1].
  destruct m as [|[p|p|]|p]; cbn; lia.
Qed.

Lemma iter_pos_shr_1_nonneg p : forall mrs,
  0 <= shr_m mrs -> 0 <= shr_m (SpecFloat.iter_pos shr_1 p mrs).
Proof.
  induction p as [p IH|p IH|]; intros mrs H; cbn [SpecFloat.iter_pos].
  - by apply IH, IH, shr_1_nonneg.
  - by apply IH, IH.
  - by apply shr_1_nonneg.
Qed.

Lemma shr_fexp_nonneg prec emax m e l :
  0 <= m -> 0 <= shr_m (shr_fexp prec emax m e l).1.
Proof.
  intros Hm. unfold shr_fexp, shr.
  assert (0 <= shr_m (shr_record_of_loc m l)) as H0
    by (by destruct l as [|[]]).
  destruct (_ - e) as [|p|p]; cbn [fst]; [done | | done].
  by apply iter_pos_shr_1_nonneg.
Qed.

Lemma round_nearest_even_nonneg mx lx : 0 <= mx -> 0 <= round_nearest_even mx lx.
Proof.
  intros H. unfold round_nearest_even.
  destruct lx as [|[]]; [done | | done | lia].
  destruct (Z.even mx); lia.
Qed.

Lemma binary_round_aux_not_nan prec emax sx mx ex lx :
  0 <= mx -> binary_round_aux prec emax sx mx ex lx <> S754_nan.
Proof.
  intros Hm. unfold binary_round_aux.
  pose proof (shr_fexp_nonneg prec emax mx ex lx Hm) as H1.
  destruct (shr_fexp prec emax mx ex lx) as [mrs' e']. cbn [fst] in H1.
  pose proof (shr_fexp_nonneg prec emax _ e' loc_Exact
                (round_nearest_even_nonneg _ (loc_of_shr_record mrs') H1)) as H2.
  destruct (shr_fexp prec emax _ e' loc_Exact) as [mrs'' e'']. cbn [fst] in H2.
  destruct (shr_m mrs'') as [|m|m]; [done | | lia].
  by destruct (_ <=? _).
Qed.

Lemma float_of_decimal_not_nan neg m e10 :
  PyNum.float_of_decimal neg m e10 <> S754_nan.
Proof.
  unfold PyNum.float_of_decimal. destruct m as [|p|p]; [done | | done].
  destruct (0 <=? e10) eqn:He.
  - unfold binary_round. destruct (shl_align _ _ _) as [mz ez].
    by apply binary_round_aux_not_nan.
  - destruct (SFdiv_core_binary _ _ _ _ _ _) as [[q e] l] eqn:Hdiv.
    apply binary_round_aux_not_nan.
    unfold SFdiv_core_binary in Hdiv. cbn zeta in Hdiv.
    set (m' := match _ - _ with Zpos _ => _ | Z0 => _ | Zneg _ => _ end) in Hdiv.
    assert (0 <= m') as Hm'.
    { subst m'. destruct (_ - _); [lia | | lia].
      apply Z.shiftl_nonneg. lia. }
    pose proof (Z.div_pos m' (10 ^ (- e10)) Hm') as Hq.
    unfold Z.div in Hq. destruct (Z.div_eucl m' (10 ^ (- e10))) as [q' r'].
    injection Hdiv as <- _ _. cbn [fst] in Hq. apply Hq.
    apply Z.leb_gt in He. apply Z.pow_pos_nonneg; lia.
Qed.

Lemma contains_lstrip c s :
  Py.isspace c = false -> Py.contains c (Py.lstrip s) = Py.contains c s.
Proof.
  intros Hc. induction s as [|d s IH]; [done |]. cbn [Py.lstrip Py.contains].
  destruct (Py.isspace d) eqn:Hd; [| done]. rewrite IH.
  destruct (Ascii.eqb_spec c d) as [-> | _]; [congruence | done].
Qed.

Lemma contains_rstrip c s :
  Py.isspace c = false -> Py.contains c (Py.rstrip s) = Py.contains c s.
Proof.
  intros Hc. induction s as [|d s IH]; [done |]. cbn [Py.rstrip Py.contains].
  rewrite <- IH. destruct (Py.rstrip s) as [|d' r]; [| done].
  cbn [Py.contains]. rewrite orb_false_r.
  destruct (Py.isspace d) eqn:Hd; [| cbn; by rewrite orb_false_r].
  destruct (Ascii.eqb_spec c d) as [-> | _]; [congruence | done].
Qed.

Lemma contains_strip c s :
  Py.isspace c = false -> Py.contains c (Py.strip s) = Py.contains c s.
Proof.
  intros Hc. unfold Py.strip. by rewrite contains_rstrip, contains_lstrip.
Qed.

Lemma contains_split_sign c s :
  Ascii.eqb c "+" = false -> Ascii.eqb c "-" = false ->
  Py.contains c (PyNum.split_sign s).2 = Py.contains c s.
Proof.
  intros Hp Hm. destruct s as [|d s]; [done |].
  destruct (Ascii.eqb_spec d "+") as [-> | H1].
  { cbn. by rewrite Hp. }
  destruct (Ascii.eqb_spec d "-") as [-> | H2].
  { cbn. by rewrite Hm. }
  replace (PyNum.split_sign (String d s)) with (false, String d s); [done |].
  destruct d as [[] [] [] [] [] [] [] []]; try done.
Qed.

(** The text of a NaN holds neither a point nor the letter [e]. *)
Lemma float_nan_text s :
  PyNum.float s = Return S754_nan ->
  Py.contains "." s = false /\ Py.contains "e" (Py.lower s) = false.
Proof.
  unfold PyNum.float.
  pose proof (contains_split_sign "." (Py.strip s) eq_refl eq_refl) as Hdot.
  pose proof (contains_split_sign "e" (Py.strip (Py.lower s)) eq_refl eq_refl)
    as He.
  rewrite strip_lower, split_sign_lower in He.
  destruct (PyNum.split_sign (Py.strip s)) as [neg body]. cbn [fst snd] in *.
  rewrite contains_strip in Hdot by done.
  rewrite <- strip_lower, contains_strip in He by done.
  destruct (_ || _); [done |].
  destruct (String.eqb_spec (Py.lower body) "nan") as [Hnan | _].
  - intros _. rewrite Hnan in He. split; [| by rewrite <- He].
    rewrite <- Hdot, <- (contains_lower "." body), Hnan; [done |].
    intros c. destruct c as [[] [] [] [] [] [] [] []]; reflexivity.
  - destruct (PyNum.cut PyNum.is_e body) as [mant ex].
    destruct (PyNum.cut PyNum.is_dot mant) as [ip fp].
    destruct (PyNum.digits_or_empty ip) as [[iv n1]|]; [| done].
    destruct (PyNum.digits_or_empty _) as [[fv n2]|]; [| done].
    destruct (PyNum.exponent ex) as [e|]; [| done].
    destruct (0 <? n1 + n2); [| done].
    intros [= H]. by apply float_of_decimal_not_nan in H.
Qed.

Lemma smart_never_nan s a :
  smart_int_or_float s = Return a -> PyEq.nan_free_scalar a = true.
Proof.
  unfold smart_int_or_float.
  destruct (_ || _) eqn:Hc.
  - destruct (PyNum.float s) as [f|e] eqn:Hf; cbn [mbind result_bind]; [| done].
    intros [= <-]. cbn. destruct f; try done.
    apply float_nan_text in Hf as [H1 H2]. by rewrite H1, H2 in Hc.
  - destruct (PyNum.int s) as [n|e]; cbn [mbind result_bind]; [| done].
    by intros [= <-].
Qed.

Lemma list_repeat_elem {A : Type} (v : A) n l :
  list_repeat [v] n = Return l -> Forall (fun a => a = v) l.
Proof.
  unfold list_repeat. destruct (_ <? n); [done |]. intros [= <-].
  induction (Z.to_nat n) as [|k IH]; [constructor |].
  cbn. by constructor.
Qed.

Lemma list_class_loop_never_nan toks : forall output l,
  Forall (fun a => PyEq.nan_free_scalar a = true) output ->
  list_class_loop toks output = Return l ->
  Forall (fun a => PyEq.nan_free_scalar a = true) l.
Proof.
  induction toks as [|tok toks IH]; intros output l Hout; cbn [list_class_loop].
  - by intros [= <-].
  - destruct (repeat_match tok) as [[g1 g2]|].
    + destruct (smart_int_or_float g2) as [v|e] eqn:Hv;
        cbn [mbind result_bind]; [| done].
      destruct (PyNum.int g1) as [n|e]; cbn [mbind result_bind]; [| done].
      destruct (list_repeat [v] n) as [vs|e] eqn:Hvs;
        cbn [mbind result_bind]; [| done].
      apply IH. apply Forall_app. split; [done |].
      apply list_repeat_elem in Hvs. eapply Forall_impl; [exact Hvs |].
      intros a ->. by eapply smart_never_nan.
    + destruct (smart_int_or_float tok) as [v|e] eqn:Hv;
        cbn [mbind result_bind]; [| done].
      apply IH. apply Forall_app. split; [done |].
      constructor; [by eapply smart_never_nan | constructor].
Qed.

(** X30.  No list that [proc_val] returns holds a NaN: a piece is read
    as a float only when it holds a point or the letter [e], which the
    text of a NaN does not, and rounding a decimal numeral never gives a
    NaN.  So two lists made by [proc_val] are compared by the values of
    their elements. *)
Theorem proc_val_list_never_nan key val l :
  proc_val key val = Return (VList l) ->
  Forall (fun a => PyEq.nan_free_scalar a = true) l.
Proof.
  destruct (Py.mem key list_type_keys) eqn:Hk.
  - rewrite proc_val_listed by done. unfold list_class.
    destruct (list_class_loop _ []) as [output|e] eqn:Hloop;
      cbn [mbind result_bind except_ValueError].
    + intros [= <-]. by eapply list_class_loop_never_nan.
    + by destruct e.
  - by rewrite proc_val_unlisted.
Qed.

Lemma proc_val_list_never_nan_witness :
  Forall (fun a => PyEq.nan_free_scalar a = true)
    [SFloat (Examples.dyadic 3 (-1)); SFloat (Examples.dyadic 3 (-1));
     SFloat (Examples.dyadic 3 (-1)); SFloat (Examples.dyadic 1 1)].
Proof.
  apply (proc_val_list_never_nan "EXAFS" "3*1.5 2.0"). by vm_compute.
Defined.

End NoNaN.
